(** * convert_audio_tool.core: conversion orchestration and progress tracking

    A shallow embedding of [src/convert_audio_tool/core.py].

    - Python [str] values are [string]s of bytes; the text handled by the
      core (the progress protocol of the transcode engine, the recognised
      extensions) is ASCII.
    - Python [float] values are binary64 numbers, modelled by [pyfloat]:
      a rational, one of the two infinities, or NaN.  Every operation
      rounds its exact result to the nearest binary64 number, ties to
      even, with gradual underflow and overflow to infinity; comparisons
      are exact.  The sign of a zero is not kept: the program cannot
      observe it.
    - The operating system, the probe tool and the transcode engine are
      external collaborators: they are the fields of the class [Host], and
      the program runs in a monad that threads the state of the world and
      a chronological log of the calls the program makes.
    - Generators are lazy: a file is tested, and with recursion a
      directory is listed, when the loop of [convert_folder] asks for the
      next file, in the world as the conversions made so far have left
      it.  A walk can go on for ever; the model bounds the number of
      directories it visits by a parameter [fuel]. *)

From Stdlib Require Import String Ascii List ZArith QArith Qabs Qround Qpower.
From Stdlib Require Import Lia Lqa.
From Stdlib Require Import Bool Sorted.
From Stdlib Require DecimalString DecimalNat Qcanon.
Import ListNotations.
Open Scope string_scope.
Open Scope Z_scope.

(** ** Python string methods *)

Module PyStr.

(** [str.isspace] on one ASCII character: TAB, LF, VT, FF, CR,
    FS, GS, RS, US and SPACE. *)
Definition isspace (c : ascii) : bool :=
  let n := nat_of_ascii c in
  ((9 <=? n)%nat && (n <=? 13)%nat) || ((28 <=? n)%nat && (n <=? 32)%nat).

Definition isdigit (c : ascii) : bool :=
  let n := nat_of_ascii c in (48 <=? n)%nat && (n <=? 57)%nat.

Definition is_empty (s : string) : bool :=
  match s with EmptyString => true | String _ _ => false end.

(** [s.lstrip()] *)
Fixpoint lstrip (s : string) : string :=
  match s with
  | EmptyString => EmptyString
  | String c s' => if isspace c then lstrip s' else s
  end.

(** [s.rstrip()] *)
Fixpoint rstrip (s : string) : string :=
  match s with
  | EmptyString => EmptyString
  | String c s' =>
      let r := rstrip s' in
      if isspace c && is_empty r then EmptyString else String c r
  end.

(** [s.strip()] *)
Definition strip (s : string) : string := lstrip (rstrip s).

(** [s.startswith(p)] *)
Definition startswith (s p : string) : bool := String.prefix p s.

(** [sub in s] *)
Fixpoint contains (sub s : string) : bool :=
  String.prefix sub s ||
  match s with
  | EmptyString => false
  | String _ s' => contains sub s'
  end.

(** The character-wise part of [s.lower()]. *)
Definition lower_char (c : ascii) : ascii :=
  let n := nat_of_ascii c in
  if (65 <=? n)%nat && (n <=? 90)%nat then ascii_of_nat (n + 32) else c.

(** [s.lower()] *)
Fixpoint lower (s : string) : string :=
  match s with
  | EmptyString => EmptyString
  | String c s' => String (lower_char c) (lower s')
  end.

Fixpoint rev_onto (s acc : string) : string :=
  match s with
  | EmptyString => acc
  | String c s' => rev_onto s' (String c acc)
  end.

Definition rev (s : string) : string := rev_onto s EmptyString.

(** [s.endswith(suffix)] for one suffix. *)
Definition endswith (s suffix : string) : bool :=
  String.prefix (rev suffix) (rev s).

(** [s.endswith(suffixes)] for a tuple of suffixes. *)
Definition endswith_any (s : string) (suffixes : list string) : bool :=
  existsb (endswith s) suffixes.

(** [s.split(sep, 1)] for a one-character separator: [None] when the
    separator does not occur (the result then has one element), else the
    text before and after its first occurrence. *)
Fixpoint split_first (sep : ascii) (s : string) : option (string * string) :=
  match s with
  | EmptyString => None
  | String c s' =>
      if Ascii.eqb c sep then Some (EmptyString, s')
      else match split_first sep s' with
           | None => None
           | Some (a, b) => Some (String c a, b)
           end
  end.

(** [s.split(sep)] for a one-character separator. *)
Fixpoint split (sep : ascii) (s : string) : list string :=
  match s with
  | EmptyString => [EmptyString]
  | String c s' =>
      if Ascii.eqb c sep then EmptyString :: split sep s'
      else match split sep s' with
           | [] => [String c EmptyString]
           | p :: ps => String c p :: ps
           end
  end.

(** [c in s] for a character. *)
Fixpoint has_char (c : ascii) (s : string) : bool :=
  match s with
  | EmptyString => false
  | String d s' => Ascii.eqb d c || has_char c s'
  end.

End PyStr.

(** ** Python numbers *)

Module PyNum.
Import PyStr.

(** A Python [float]: NaN, an infinity, or a finite value. *)
Inductive pyfloat : Type :=
| FNan
| FInf (negative : bool)
| FFin (q : Q).

(** The least magnitude that no longer rounds to a finite binary64
    value: [2^1024 - 2^970]. *)
Definition overflow_bound : Z := 2 ^ 1024 - 2 ^ 970.

(** The floor of the binary logarithm of a positive rational. *)
Definition ilog2 (q : Q) : Z :=
  let e := Z.log2 (Qnum q) - Z.log2 (Zpos (Qden q)) in
  if Qle_bool (2 ^ e) q then e else e - 1.

(** The exponent of the last place of the binary64 numbers around [q]:
    53 bits of precision, and no exponent below that of the subnormal
    numbers. *)
Definition quantum (q : Q) : Z := Z.max (ilog2 (Qabs q) - 52) (-1074).

(** The nearest integer, ties to even. *)
Definition round_half_even (x : Q) : Z :=
  let k := Qfloor x in
  match (x - inject_Z k ?= 1 # 2)%Q with
  | Lt => k
  | Gt => k + 1
  | Eq => if Z.even k then k else k + 1
  end.

(** The binary64 number nearest to [q], overflow aside. *)
Definition round64 (q : Q) : Q :=
  let e := quantum q in
  Qred (inject_Z (round_half_even (q * 2 ^ (- e))) * 2 ^ e).

(** [q] is a binary64 number. *)
Definition binary64 (q : Q) : bool :=
  Qeq_bool (round64 q) q
  && negb (Qle_bool (inject_Z overflow_bound) (Qabs q)).

(** The finite binary64 numbers are whole multiples of the least
    positive one, [2^-1074]. *)
Definition on_grid (q : Q) : Prop :=
  exists k : Z, (q == inject_Z k * 2 ^ (-1074))%Q.

Definition gridded (a : pyfloat) : Prop :=
  match a with
  | FFin q => on_grid q
  | _ => True
  end.

(** The float nearest to a rational. *)
Definition of_Q (q : Q) : pyfloat :=
  if Qle_bool (inject_Z overflow_bound) (Qabs q)
  then FInf (negb (Qle_bool 0%Q q))
  else FFin (round64 q).

(** The conversion of an [int] operand in mixed arithmetic; [None] is
    [OverflowError: int too large to convert to float]. *)
Definition of_int (n : Z) : option pyfloat :=
  if overflow_bound <=? Z.abs n then None
  else Some (FFin (round64 (inject_Z n))).

Definition neg (a : pyfloat) : pyfloat :=
  match a with
  | FNan => FNan
  | FInf s => FInf (negb s)
  | FFin q => FFin (- q)%Q
  end.

(** [a + b] *)
Definition add (a b : pyfloat) : pyfloat :=
  match a, b with
  | FNan, _ | _, FNan => FNan
  | FInf s, FInf s' => if Bool.eqb s s' then FInf s else FNan
  | FInf s, FFin _ | FFin _, FInf s => FInf s
  | FFin x, FFin y => of_Q (x + y)%Q
  end.

(** [a - b] *)
Definition sub (a b : pyfloat) : pyfloat := add a (neg b).

(** [a / b]; [None] is [ZeroDivisionError]. *)
Definition truediv (a b : pyfloat) : option pyfloat :=
  match b with
  | FNan => Some FNan
  | FInf _ => Some match a with FFin _ => FFin 0%Q | _ => FNan end
  | FFin y =>
      if Qeq_bool y 0%Q then None
      else Some match a with
                | FNan => FNan
                | FInf s => FInf (xorb s (negb (Qle_bool 0%Q y)))
                | FFin x => of_Q (x / y)%Q
                end
  end.

(** [a < b] *)
Definition ltb (a b : pyfloat) : bool :=
  match a, b with
  | FNan, _ | _, FNan => false
  | FInf s, FInf s' => s && negb s'
  | FInf s, FFin _ => s
  | FFin _, FInf s => negb s
  | FFin x, FFin y => negb (Qle_bool y x)
  end.

(** [a > b] *)
Definition gtb (a b : pyfloat) : bool := ltb b a.

(** [min(a, b)]: the first argument unless the second is smaller. *)
Definition min (a b : pyfloat) : pyfloat := if ltb b a then b else a.

(** [bool(a)]: only zero is falsy. *)
Definition truthy (a : pyfloat) : bool :=
  match a with
  | FFin q => negb (Qeq_bool q 0%Q)
  | _ => true
  end.

(** The underscore rule of numeric literals: an underscore is allowed
    only between two digits.  Returns the text without underscores. *)
Fixpoint drop_underscores (prev : ascii) (s : string) : option string :=
  match s with
  | EmptyString => if Ascii.eqb prev "_" then None else Some EmptyString
  | String c s' =>
      if Ascii.eqb c "_" then
        if isdigit prev then drop_underscores c s' else None
      else if Ascii.eqb prev "_" && negb (isdigit c) then None
      else option_map (String c) (drop_underscores c s')
  end.

Definition digit_value (c : ascii) : Z := Z.of_nat (nat_of_ascii c) - 48.

(** The value of a string of decimal digits; [None] on any other
    character. *)
Fixpoint decimal (acc : Z) (s : string) : option Z :=
  match s with
  | EmptyString => Some acc
  | String c s' =>
      if isdigit c then decimal (10 * acc + digit_value c) s' else None
  end.

Definition split_sign (s : string) : bool * string :=
  match s with
  | String "-" r => (true, r)
  | String "+" r => (false, r)
  | _ => (false, s)
  end.

Definition signed (negative : bool) (n : Z) : Z :=
  if negative then - n else n.

(** An optional sign and at least one digit. *)
Definition signed_decimal (s : string) : option Z :=
  let (negative, body) := split_sign s in
  if is_empty body then None
  else option_map (signed negative) (decimal 0 body).

(** [int(s)] for a string [s]; [None] is [ValueError]. *)
Definition py_int (s : string) : option Z :=
  match drop_underscores zero (strip s) with
  | None => None
  | Some t => signed_decimal t
  end.

(** The leading digits of [s]: their value on top of [acc], how many
    there are on top of [n], and the rest of [s]. *)
Fixpoint span_digits (acc : Z) (n : nat) (s : string) : Z * nat * string :=
  match s with
  | EmptyString => (acc, n, s)
  | String c s' =>
      if isdigit c
      then span_digits (10 * acc + digit_value c) (S n) s'
      else (acc, n, s)
  end.

(** [m * 10^e] *)
Definition scale10 (m e : Z) : Q := (inject_Z m * Qpower (inject_Z 10) e)%Q.

(** An unsigned decimal number: digits, an optional point and digits
    (one digit at least), an optional exponent. *)
Definition parse_decimal (s : string) : option Q :=
  let '(ip, ni, r1) := span_digits 0 0 s in
  let '(m, nf, r2) :=
    match r1 with
    | String "." r => span_digits ip 0 r
    | _ => (ip, 0%nat, r1)
    end in
  if (ni + nf =? 0)%nat then None
  else match r2 with
       | EmptyString => Some (scale10 m (- Z.of_nat nf))
       | String c r =>
           if Ascii.eqb c "e" || Ascii.eqb c "E" then
             match signed_decimal r with
             | Some e => Some (scale10 m (e - Z.of_nat nf))
             | None => None
             end
           else None
       end.

(** [float(s)] for a string [s]; [None] is [ValueError]. *)
Definition py_float (s : string) : option pyfloat :=
  match drop_underscores zero (strip s) with
  | None => None
  | Some t =>
      let (negative, body) := split_sign t in
      let word := lower body in
      if String.eqb word "inf" || String.eqb word "infinity"
      then Some (FInf negative)
      else if String.eqb word "nan" then Some FNan
      else match parse_decimal body with
           | Some q => Some (of_Q (if negative then (- q)%Q else q))
           | None => None
           end
  end.

End PyNum.


(** ** [os.path] on POSIX *)

Module OsPath.
Import PyStr.

(** [os.path.join(a, b)] *)
Definition join (a b : string) : string :=
  if startswith b "/" then b
  else if is_empty a || endswith a "/" then a ++ b
  else a ++ "/" ++ b.

(** [os.path.basename(p)]: what follows the last slash. *)
Fixpoint basename (p : string) : string :=
  match p with
  | EmptyString => EmptyString
  | String c p' =>
      if has_char "/" p' then basename p'
      else if Ascii.eqb c "/" then p' else p
  end.

(** [p.rfind(c)], counting from [i]. *)
Fixpoint rfind_from (i : nat) (c : ascii) (p : string) : option nat :=
  match p with
  | EmptyString => None
  | String d p' =>
      match rfind_from (S i) c p' with
      | Some j => Some j
      | None => if Ascii.eqb d c then Some i else None
      end
  end.

Definition rfind (c : ascii) (p : string) : option nat := rfind_from 0 c p.

Fixpoint all_dots (s : string) : bool :=
  match s with
  | EmptyString => true
  | String c s' => Ascii.eqb c "." && all_dots s'
  end.

(** [os.path.splitext(p)[0]]: [p] without its extension; the extension
    starts at the last dot of the last component, leading dots of that
    component aside. *)
Definition splitext_root (p : string) : string :=
  match rfind "." p with
  | None => p
  | Some dotIndex =>
      let filenameIndex :=
        match rfind "/" p with Some sepIndex => S sepIndex | None => O end in
      if (filenameIndex <=? dotIndex)%nat
         && negb (all_dots (substring filenameIndex (dotIndex - filenameIndex) p))
      then substring 0 dotIndex p
      else p
  end.

End OsPath.

(** ** The progress stream parser *)

Import PyStr PyNum.

(** [_parse_out_time(line)]: a line like [out_time=00:01:23.456789] to
    seconds, [None] if parsing fails. *)
Definition _parse_out_time (line : string) : option pyfloat :=
  match split_first "=" line with
  | None => None
  | Some (_, value) =>
      let value := strip value in
      if is_empty value then None
      else
        match split ":" value with
        | [h_str; m_str; s_str] =>
            match py_int h_str, py_int m_str, py_float s_str with
            | Some h, Some m, Some s =>
                match of_int (60 * (m + 60 * h)) with
                | Some whole => Some (add s whole)
                | None => None
                end
            | _, _, _ => None
            end
        | _ => None
        end
  end.

(** The timestamp [t] that [convert_media] reads off a stripped line:
    [out_time_ms] is preferred, [out_time] is the fallback, and any
    exception of the conversion leaves [t = None]. *)
Definition line_timestamp (line : string) : option pyfloat :=
  if startswith line "out_time_ms=" then
    match split_first "=" line with
    | Some (_, value) =>
        match py_int value with
        | Some ms =>
            match of_int ms with
            | Some f => truediv f (FFin (inject_Z 1000000))
            | None => None
            end
        | None => None
        end
    | None => None
    end
  else if startswith line "out_time=" then _parse_out_time line
  else None.

(** [line.startswith("progress=") and "end" in line] *)
Definition is_progress_end (line : string) : bool :=
  startswith line "progress=" && contains "end" line.

(** The progress state of one job: [last_t], and the arguments of the
    calls of [pbar.update] so far, oldest first. *)
Record progress : Type := {
  last_t : pyfloat;
  updates : list pyfloat
}.

Definition progress_start : progress :=
  {| last_t := FFin 0%Q; updates := [] |}.

(** What the loop body does with [t]: clamp to [duration], and advance
    the bar if the clamped value exceeds [last_t]. *)
Definition advance (duration : pyfloat) (t : option pyfloat) (p : progress)
  : progress :=
  match t with
  | None => p
  | Some t =>
      let t := PyNum.min t duration in
      if gtb t (last_t p)
      then {| last_t := t; updates := updates p ++ [sub t (last_t p)] |}
      else p
  end.

(** One iteration of the loop over [process.stdout]: the new state, and
    whether the loop is left by [break]. *)
Definition consume_line (duration : pyfloat) (p : progress) (raw_line : string)
  : progress * bool :=
  let line := strip raw_line in
  if is_empty line then (p, false)
  else (advance duration (line_timestamp line) p, is_progress_end line).

(** The loop over the lines of [process.stdout]. *)
Fixpoint read_progress (duration : pyfloat) (lines : list string) (p : progress)
  : progress * bool :=
  match lines with
  | [] => (p, false)
  | raw_line :: rest =>
      let (p', stop) := consume_line duration p raw_line in
      if stop then (p', true) else read_progress duration rest p'
  end.


(** After [process.wait()]: force the bar to [duration]. *)
Definition finish (duration : pyfloat) (p : progress) : progress :=
  if ltb (last_t p) duration
  then {| last_t := last_t p;
          updates := updates p ++ [sub duration (last_t p)] |}
  else p.

(** [pbar.n] after the given updates of a bar that starts at zero. *)
Definition total (us : list pyfloat) : pyfloat :=
  fold_left add us (FFin 0%Q).




(** ** The outside world *)

(** What the program can raise. [EnvironmentError] is the error of
    [check_ffmpeg]; [ExternalError] is any [Exception] coming out of an
    external call (a spawn failure, an I/O error while reading the pipe);
    [SystemExit] is raised by [sys.exit] and is not an [Exception].
    [Unfinished] is no exception of Python: a recursive walk has no
    bound on the directories it visits, the model has one, and a run that
    reaches the bound ends with [Unfinished]. *)
Inductive exn : Type :=
| EnvironmentError (msg : string)
| ExternalError (msg : string)
| SystemExit (code : Z)
| Unfinished.

(** [isinstance(e, Exception)] *)
Definition is_Exception (e : exn) : bool :=
  match e with
  | SystemExit _ => false
  | Unfinished => false
  | _ => true
  end.

(** [str(e)] *)
Definition exn_str (e : exn) : string :=
  match e with
  | EnvironmentError msg => msg
  | ExternalError msg => msg
  | SystemExit code => DecimalString.NilZero.string_of_int (Z.to_int code)
  | Unfinished => EmptyString
  end.

(** The standard output of a child process: the lines it writes, and the
    error, if any, that reading raises once they are consumed. *)
Record stream : Type := {
  lines : list string;
  read_error : option string
}.

(** A child process as [convert_media] sees it. *)
Record process : Type := {
  stdout : option stream;
  returncode : Z
}.

(** The external collaborators.  [world] is the state of the file system
    and of [PATH]; queries read it, commands return the next one.  The
    calls on the file system are taken to succeed; the spawn of the
    transcode process and the reads from its pipe can fail. *)
Class Host : Type := {
  world : Type;
  (** [shutil.which(name) is not None] *)
  shutil_which : world -> string -> bool;
  os_path_exists : world -> string -> bool;
  os_path_isdir : world -> string -> bool;
  os_path_isfile : world -> string -> bool;
  os_path_islink : world -> string -> bool;
  (** [os.listdir(path)], in enumeration order; a path that cannot be
      listed has no entries *)
  os_listdir : world -> string -> list string;
  (** [os.makedirs(path, exist_ok=True)] *)
  os_makedirs : world -> string -> world;
  (** [shutil.move(src, dst)] *)
  shutil_move : world -> string -> string -> world;
  (** [subprocess.run(cmd, capture_output=True, text=True, check=True)]:
      the captured standard output, or [None] for any exception *)
  subprocess_run : world -> list string -> option string;
  (** [subprocess.Popen(cmd, ...)]: the error of a failed spawn, or the
      process; and the world once the process is done *)
  subprocess_Popen : world -> list string -> (string + process) * world
}.

(** What the program does to the outside, in order. *)
Inductive event : Type :=
| EPrint (text : string)
| ERun (command : list string)
| EPopen (command : list string)
| EWait
| ETqdm (total : pyfloat) (desc : string)
| EUpdate (delta : pyfloat)
| ETqdmClose
| EMakedirs (path : string)
| EMove (src dst : string).

(** ** The monad of the program: world, log and exceptions *)

Inductive result (A : Type) : Type :=
| Returned (a : A)
| Raised (e : exn).

Arguments Returned {A} a.
Arguments Raised {A} e.

Section Program.
Context {H : Host}.

Record state : Type := {
  now : world;
  log : list event
}.

Definition M (A : Type) : Type := state -> result A * state.

Definition ret {A} (a : A) : M A := fun st => (Returned a, st).

Definition bind {A B} (m : M A) (k : A -> M B) : M B :=
  fun st =>
    match m st with
    | (Returned a, st') => k a st'
    | (Raised e, st') => (Raised e, st')
    end.

Definition raise {A} (e : exn) : M A := fun st => (Raised e, st).

(** [try: body  except Exception as e: handler(e)] *)
Definition try_except {A} (body : M A) (handler : exn -> M A) : M A :=
  fun st =>
    match body st with
    | (Raised e, st') =>
        if is_Exception e then handler e st' else (Raised e, st')
    | r => r
    end.

Definition ask {A} (query : world -> A) : M A :=
  fun st => (Returned (query (now st)), st).

Definition emit (e : event) : M unit :=
  fun st => (Returned tt, {| now := now st; log := log st ++ [e] |}).

Definition emit_all (es : list event) : M unit :=
  fun st => (Returned tt, {| now := now st; log := log st ++ es |}).

Definition act (e : event) (f : world -> world) : M unit :=
  fun st => (Returned tt, {| now := f (now st); log := log st ++ [e] |}).

Definition print (text : string) : M unit := emit (EPrint text).

End Program.

Notation "x <- m ;; k" := (bind m (fun x => k))
  (at level 61, m at next level, right associativity).
Notation "m ;; k" := (bind m (fun _ => k))
  (at level 61, right associativity).

Section Core.
Context {H : Host}.

(** ** FFmpeg helpers *)

(** Raise if ffmpeg or ffprobe are not available in PATH. *)
Definition check_ffmpeg : M unit :=
  ffmpeg <- ask (fun w => shutil_which w "ffmpeg") ;;
  if negb ffmpeg
  then raise (EnvironmentError "ffmpeg is not installed or not found in PATH.")
  else
    ffprobe <- ask (fun w => shutil_which w "ffprobe") ;;
    if negb ffprobe
    then raise (EnvironmentError "ffprobe is not installed or not found in PATH.")
    else ret tt.

Definition ffprobe_command (path : string) : list string :=
  ["ffprobe"; "-v"; "error"; "-show_entries"; "format=duration"; "-of";
   "default=noprint_wrappers=1:nokey=1"; path].

(** Duration in seconds using ffprobe, or [None] if unavailable. *)
Definition get_media_duration (path : string) : M (option pyfloat) :=
  emit (ERun (ffprobe_command path)) ;;
  out <- ask (fun w => subprocess_run w (ffprobe_command path)) ;;
  ret match out with
      | Some text => py_float (strip text)
      | None => None
      end.

(** ** Conversion *)

Definition ffmpeg_command (overwrite : bool) (input_file output_file : string)
  : list string :=
  ["ffmpeg"; "-hide_banner"; "-loglevel"; "error"; "-progress"; "pipe:1";
   "-nostats"; if overwrite then "-y" else "-n"; "-i"; input_file;
   output_file].

(** [subprocess.Popen(command, ...)] *)
Definition Popen (command : list string) : M process :=
  fun st =>
    let (r, w) := subprocess_Popen (now st) command in
    let st' := {| now := w; log := log st ++ [EPopen command] |} in
    match r with
    | inl msg => (Raised (ExternalError msg), st')
    | inr p => (Returned p, st')
    end.

(** The two messages after the exit of the process. *)
Definition report_exit (quiet : bool) (code : Z) (input_file output_file : string)
  : M unit :=
  if (code =? 0) && negb quiet
  then print ("OK  " ++ input_file ++ " -> " ++ output_file)
  else if negb (code =? 0)
  then print ("Error during conversion: " ++ input_file ++ " -> " ++ output_file)
  else ret tt.

(** Reaching the end of the pipe: the read error of the stream, if any. *)
Definition end_of_stream (s : stream) : M unit :=
  match read_error s with
  | Some msg => raise (ExternalError msg)
  | None => ret tt
  end.

(** No progress bar: [for _ in process.stdout or []: pass], wait, report. *)
Definition drain_and_report (p : process) (quiet : bool)
  (input_file output_file : string) : M unit :=
  match stdout p with
  | Some s => end_of_stream s
  | None => ret tt
  end ;;
  emit EWait ;;
  report_exit quiet (returncode p) input_file output_file.

(** The body of [with tqdm(...) as pbar:]. *)
Definition drive_bar (duration : pyfloat) (s : stream) : M unit :=
  let (p, stop) := read_progress duration (lines s) progress_start in
  emit_all (map EUpdate (updates p)) ;;
  (if stop then ret tt else end_of_stream s) ;;
  emit EWait ;;
  if ltb (last_t p) duration
  then emit (EUpdate (sub duration (last_t p)))
  else ret tt.

(** [with tqdm(total=duration, desc=filename) as pbar: body]: the bar is
    closed on every way out. *)
Definition with_tqdm (duration : pyfloat) (desc : string) (body : M unit)
  : M unit :=
  emit (ETqdm duration desc) ;;
  fun st =>
    match body st with
    | (r, st') => (r, {| now := now st'; log := log st' ++ [ETqdmClose] |})
    end.

(** What follows the spawn, inside the [try]. *)
Definition after_spawn (duration : option pyfloat) (p : process) (quiet : bool)
  (input_file output_file : string) : M unit :=
  match duration, stdout p with
  | Some d, Some s =>
      if negb (truthy d)
      then drain_and_report p quiet input_file output_file
      else
        with_tqdm d (OsPath.basename input_file) (drive_bar d s) ;;
        report_exit quiet (returncode p) input_file output_file
  | _, _ => drain_and_report p quiet input_file output_file
  end.

(** The body of the [try]: spawn the process and follow it. *)
Definition transcode (duration : option pyfloat) (overwrite quiet : bool)
  (input_file output_file : string) : M unit :=
  p <- Popen (ffmpeg_command overwrite input_file output_file) ;;
  after_spawn duration p quiet input_file output_file.

(** What follows the probe: the [try] with its handler. *)
Definition launch (duration : option pyfloat) (overwrite quiet : bool)
  (input_file output_file : string) : M unit :=
  try_except
    (transcode duration overwrite quiet input_file output_file)
    (fun e => print ("Error converting " ++ input_file ++ ": " ++ exn_str e)).

(** Convert a single media file with ffmpeg and show a progress bar.
    Falls back to no progress bar if duration can't be detected. *)
Definition convert_media (input_file output_file : string)
  (overwrite quiet : bool) : M unit :=
  check_ffmpeg ;;
  exist <- ask (fun w => os_path_exists w output_file) ;;
  if exist && negb overwrite
  then (if negb quiet then print ("Skipping (exists): " ++ output_file)
        else ret tt)
  else
    duration <- get_media_duration input_file ;;
    launch duration overwrite quiet input_file output_file.

End Core.

(** Extensions we process (audio + some common video containers). *)
Definition MEDIA_EXTENSIONS : list string :=
  [".wav"; ".flac"; ".aac"; ".ogg"; ".mp3"; ".mp4"; ".m4a"; ".mxf"; ".mov";
   ".avi"].

Section Batch.
Context {H : Host}.

(** ** The media file locator *)

(** [os.walk(top)], top-down and without following links, as CPython
    implements it: a generator that keeps a stack of the directories
    still to visit.  It scans the next one, sorting the names of its
    entries into those of the sub-directories and the others, and yields
    them. *)
Definition scan (w : world) (top : string) : list string * list string :=
  partition (fun name => os_path_isdir w (OsPath.join top name))
            (os_listdir w top).

(** When it is resumed, it stacks the sub-directories that are not
    symbolic links, the first on top. *)
Definition descend (w : world) (top : string) (dirs : list string)
  : list string :=
  filter (fun new_path => negb (os_path_islink w new_path))
         (map (OsPath.join top) dirs).

(** [list(os.walk(top))] in a world that stays as it is: the directories
    in the order of the visit, each with its non-directory entries.
    [fuel] bounds the number of directories visited; [None] when it is
    used up. *)
Fixpoint os_walk (fuel : nat) (w : world) (stack : list string)
  : option (list (string * list string)) :=
  match stack with
  | [] => Some []
  | top :: rest =>
      match fuel with
      | O => None
      | S fuel' =>
          option_map (cons (top, snd (scan w top)))
            (os_walk fuel' w (descend w top (fst (scan w top)) ++ rest))
      end
  end.

(** The paths [full] that [iter_media_files] builds, in order, when the
    world stays as it is: every non-directory entry of every walked
    directory when [recursive], else the entries of [input_folder]. *)
Definition media_candidates (fuel : nat) (w : world) (input_folder : string)
  (recursive : bool) : option (list string) :=
  if recursive
  then option_map (flat_map (fun rf => map (OsPath.join (fst rf)) (snd rf)))
                  (os_walk fuel w [input_folder])
  else Some (map (OsPath.join input_folder) (os_listdir w input_folder)).

(** [os.path.isfile(full) and full.lower().endswith(MEDIA_EXTENSIONS)] *)
Definition is_media_file (w : world) (full : string) : bool :=
  os_path_isfile w full && endswith_any (lower full) MEDIA_EXTENSIONS.

(** Yield absolute paths to media files under [input_folder]: what
    [list(iter_media_files(input_folder, recursive))] is when the world
    does not change while the generator runs. *)
Definition iter_media_files (fuel : nat) (w : world) (input_folder : string)
  (recursive : bool) : option (list string) :=
  option_map (filter (is_media_file w))
             (media_candidates fuel w input_folder recursive).

(** ** The batch converter *)

(** [str(n)] for a length. *)
Definition str_of_nat (n : nat) : string :=
  DecimalString.NilZero.string_of_uint (Nat.to_uint n).

Definition makedirs (path : string) : M unit :=
  act (EMakedirs path) (fun w => os_makedirs w path).

Definition move (src dst : string) : M unit :=
  act (EMove src dst) (fun w => shutil_move w src dst).

(** The target of a source: [output_folder], the basename of the source
    without its extension, and [output_ext]. *)
Definition out_path_of (output_folder output_ext src_path : string) : string :=
  OsPath.join output_folder
    (OsPath.splitext_root (OsPath.basename src_path) ++ output_ext).

(** The body of the loop over the yielded files: convert, then append. *)
Definition convert_one (output_folder output_ext : string)
  (overwrite quiet : bool) (src_path : string) (converted_files : list string)
  : M (list string) :=
  convert_media src_path (out_path_of output_folder output_ext src_path)
    overwrite quiet ;;
  ret (converted_files ++ [src_path])%list.

(** [for src_path in iter_media_files(...)]: the generator is lazy, each
    candidate is tested when the loop asks for the next file, in the world
    as the conversions before it have left it. *)
Fixpoint convert_each (output_folder output_ext : string)
  (overwrite quiet : bool) (candidates : list string)
  (converted_files : list string) : M (list string) :=
  match candidates with
  | [] => ret converted_files
  | full :: rest =>
      yielded <- ask (fun w => is_media_file w full) ;;
      if yielded then
        converted_files' <-
          convert_one output_folder output_ext overwrite quiet full
            converted_files ;;
        convert_each output_folder output_ext overwrite quiet rest
          converted_files'
      else
        convert_each output_folder output_ext overwrite quiet rest
          converted_files
  end.

(** [for src in converted_files: shutil.move(src, dest)] *)
Fixpoint move_each (archive_folder : string) (converted_files : list string)
  : M unit :=
  match converted_files with
  | [] => ret tt
  | src :: rest =>
      move src (OsPath.join archive_folder (OsPath.basename src)) ;;
      move_each archive_folder rest
  end.

(** Archive originals. *)
Definition archive_originals (archive_folder : option string) (quiet : bool)
  (converted_files : list string) : M unit :=
  match archive_folder with
  | None => ret tt
  | Some archive_folder =>
      makedirs archive_folder ;;
      move_each archive_folder converted_files ;;
      if negb quiet
      then print ("Moved " ++ str_of_nat (length converted_files)
                  ++ " file(s) to archive: " ++ archive_folder)
      else ret tt
  end.

(** [for src_path in iter_media_files(input_folder, recursive=True)]:
    the generator and [os.walk] under it are lazy.  A directory is scanned
    when the walk reaches it, its sub-directories are looked at when the
    loop has gone through its files, and each file is tested when the
    loop asks for it: all this in the world as the conversions made so
    far have left it. *)
Fixpoint convert_walk (output_folder output_ext : string)
  (overwrite quiet : bool) (fuel : nat) (stack : list string)
  (converted_files : list string) {struct fuel} : M (list string) :=
  match stack with
  | [] => ret converted_files
  | top :: rest =>
      match fuel with
      | O => raise Unfinished
      | S fuel' =>
          listing <- ask (fun w => scan w top) ;;
          converted_files' <-
            convert_each output_folder output_ext overwrite quiet
              (map (OsPath.join top) (snd listing)) converted_files ;;
          stack' <- ask (fun w => descend w top (fst listing) ++ rest)%list ;;
          convert_walk output_folder output_ext overwrite quiet fuel' stack'
            converted_files'
      end
  end.

(** The loop of [convert_folder] over the files that the locator
    yields; without recursion the folder is listed once, when the loop
    starts. *)
Definition convert_all (fuel : nat)
  (input_folder output_folder output_ext : string)
  (recursive overwrite quiet : bool) : M (list string) :=
  if recursive
  then convert_walk output_folder output_ext overwrite quiet fuel
         [input_folder] []
  else
    names <- ask (fun w => os_listdir w input_folder) ;;
    convert_each output_folder output_ext overwrite quiet
      (map (OsPath.join input_folder) names) [].

(** Convert all media files in a folder.  [fuel] is the bound of the
    model on the directories that a recursive walk visits. *)
Definition convert_folder (fuel : nat)
  (input_folder output_folder output_ext : string)
  (recursive overwrite quiet : bool) (archive_folder : option string)
  : M unit :=
  isdir <- ask (fun w => os_path_isdir w input_folder) ;;
  if negb isdir then
    print ("Input folder does not exist: " ++ input_folder) ;;
    raise (SystemExit 1)
  else
    makedirs output_folder ;;
    converted_files <-
      convert_all fuel input_folder output_folder output_ext recursive
        overwrite quiet ;;
    archive_originals archive_folder quiet converted_files.

(** The state in which the loop of [convert_folder] starts: the output
    folder has been created. *)
Definition loop_start (output_folder : string) (st : state) : state :=
  {| now := os_makedirs (now st) output_folder;
     log := log st ++ [EMakedirs output_folder] |}.

(** The files that the locator yields in the course of [convert_each]
    from the state [st] on: the candidates that pass the test at the
    moment they are asked for. *)
Fixpoint yielded_files (output_folder output_ext : string)
  (overwrite quiet : bool) (candidates : list string) (st : state)
  : list string :=
  match candidates with
  | [] => []
  | full :: rest =>
      if is_media_file (now st) full
      then full ::
           yielded_files output_folder output_ext overwrite quiet rest
             (snd (convert_media full
                     (out_path_of output_folder output_ext full)
                     overwrite quiet st))
      else yielded_files output_folder output_ext overwrite quiet rest st
  end.

(** The paths that the recursive loop builds and tests from the state
    [st] on, in order: the entries of each directory as they are listed
    when the walk reaches it. *)
Fixpoint walk_candidates (output_folder output_ext : string)
  (overwrite quiet : bool) (fuel : nat) (stack : list string) (st : state)
  {struct fuel} : list string :=
  match stack with
  | [] => []
  | top :: rest =>
      match fuel with
      | O => []
      | S fuel' =>
          let candidates :=
            map (OsPath.join top) (snd (scan (now st) top)) in
          let st' :=
            snd (convert_each output_folder output_ext overwrite quiet
                   candidates [] st) in
          (candidates
           ++ walk_candidates output_folder output_ext overwrite quiet fuel'
                (descend (now st') top (fst (scan (now st) top)) ++ rest)
                st')%list
      end
  end.

(** The walk of the recursive loop comes to its end within [fuel]. *)
Fixpoint walk_ends (output_folder output_ext : string)
  (overwrite quiet : bool) (fuel : nat) (stack : list string) (st : state)
  {struct fuel} : bool :=
  match stack with
  | [] => true
  | top :: rest =>
      match fuel with
      | O => false
      | S fuel' =>
          let st' :=
            snd (convert_each output_folder output_ext overwrite quiet
                   (map (OsPath.join top) (snd (scan (now st) top))) [] st) in
          walk_ends output_folder output_ext overwrite quiet fuel'
            (descend (now st') top (fst (scan (now st) top)) ++ rest)%list st'
      end
  end.

(** The candidates of the loop of [convert_folder] from the state [st]
    on, and whether the enumeration ends within [fuel]. *)
Definition run_candidates (fuel : nat)
  (input_folder output_folder output_ext : string)
  (recursive overwrite quiet : bool) (st : state) : list string :=
  if recursive
  then walk_candidates output_folder output_ext overwrite quiet fuel
         [input_folder] st
  else map (OsPath.join input_folder) (os_listdir (now st) input_folder).

Definition run_ends (fuel : nat)
  (input_folder output_folder output_ext : string)
  (recursive overwrite quiet : bool) (st : state) : bool :=
  if recursive
  then walk_ends output_folder output_ext overwrite quiet fuel
         [input_folder] st
  else true.

End Batch.

(** ** Reading the log *)

(** The arguments of the [pbar.update] calls in a log. *)
Definition bar_updates (l : list event) : list pyfloat :=
  flat_map (fun e => match e with EUpdate x => [x] | _ => [] end) l.

(** The commands of the processes spawned with [Popen] in a log. *)
Definition spawned (l : list event) : list (list string) :=
  flat_map (fun e => match e with EPopen c => [c] | _ => [] end) l.

(** The commands run to completion with [subprocess.run] in a log. *)
Definition probed (l : list event) : list (list string) :=
  flat_map (fun e => match e with ERun c => [c] | _ => [] end) l.

(** The lines printed in a log. *)
Definition printed (l : list event) : list string :=
  flat_map (fun e => match e with EPrint s => [s] | _ => [] end) l.

(** The directories created and the files moved in a log. *)
Definition touched (l : list event) : list event :=
  filter (fun e => match e with
                   | EMakedirs _ | EMove _ _ => true
                   | _ => false
                   end) l.


(** [a <= b] on finite floats. *)
Definition fle (a b : pyfloat) : Prop :=
  match a, b with
  | FFin x, FFin y => (x <= y)%Q
  | _, _ => False
  end.

(** The invariant of the loop for the duration [d]: [last_t] is a
    finite float between zero and the duration. *)
Definition in_step (d : Q) (p : progress) : Prop :=
  exists l : Q,
    last_t p = FFin l /\ (0 <= l)%Q /\ (l <= d)%Q /\ on_grid l.



(** Both tools are found in [PATH], whatever the state of the world. *)
Definition tools_found (H : Host) : Prop :=
  forall w : world,
    shutil_which w "ffmpeg" = true /\ shutil_which w "ffprobe" = true.

(** ** A simulated host

    A small machine to run the program on: the tools in [PATH], the
    answer of the probe and the behaviour of the transcode engine for each
    input are fixed; the file system is a list of directories and a list
    of regular files, and a transcode that exits with 0 creates its
    target. *)

Module Sim.

Record machine : Type := {
  path_tools : list string;
  probe_stdout : string -> option string;
  transcode : string -> string + process
}.

Record fs : Type := {
  dirs : list string;
  files : list string
}.

Definition mem (p : string) (l : list string) : bool :=
  existsb (String.eqb p) l.

(** The name of [p] in the directory [d], when [p] is an entry of [d]. *)
Definition child_name (d p : string) : list string :=
  let stem := d ++ "/" in
  if startswith p stem then
    let name :=
      substring (String.length stem) (String.length p - String.length stem) p in
    if has_char "/" name || is_empty name then [] else [name]
  else [].

Definition children (d : string) (l : list string) : list string :=
  flat_map (child_name d) l.

Definition spawn (m : machine) (w : fs) (command : list string)
  : (string + process) * fs :=
  let output_file := last command EmptyString in
  let input_file := last (removelast command) EmptyString in
  match transcode m input_file with
  | inl msg => (inl msg, w)
  | inr p =>
      (inr p,
       if (returncode p =? 0) && negb (mem output_file (files w))
       then {| dirs := dirs w; files := files w ++ [output_file] |}
       else w)
  end.

Definition host (m : machine) : Host := {|
  world := fs;
  shutil_which := fun _ name => mem name (path_tools m);
  os_path_exists := fun w p => mem p (dirs w) || mem p (files w);
  os_path_isdir := fun w p => mem p (dirs w);
  os_path_isfile := fun w p => mem p (files w);
  os_path_islink := fun _ _ => false;
  os_listdir := fun w d => children d (dirs w ++ files w);
  os_makedirs := fun w p =>
    if mem p (dirs w) then w
    else {| dirs := dirs w ++ [p]; files := files w |};
  shutil_move := fun w src dst =>
    {| dirs := dirs w;
       files := map (fun f => if String.eqb f src then dst else f) (files w) |};
  subprocess_run := fun _ command =>
    probe_stdout m (last command EmptyString);
  subprocess_Popen := spawn m
|}.

Definition LF : string := String (ascii_of_nat 10) EmptyString.

(** The progress output of the test of [convert_media]. *)
Definition ten_seconds : process := {|
  stdout := Some {| lines := ["out_time_ms=5000000" ++ LF;
                              "progress=continue" ++ LF;
                              "out_time_ms=10000000" ++ LF;
                              "progress=end" ++ LF];
                    read_error := None |};
  returncode := 0
|}.

(** Both tools installed; every input lasts ten seconds and converts. *)
Definition studio : machine := {|
  path_tools := ["ffmpeg"; "ffprobe"];
  probe_stdout := fun _ => Some ("10.000000" ++ LF);
  transcode := fun _ => inr ten_seconds
|}.

(** The same machine without ffmpeg. *)
Definition bare : machine := {|
  path_tools := ["ffprobe"];
  probe_stdout := fun _ => Some ("10.000000" ++ LF);
  transcode := fun _ => inr ten_seconds
|}.

(** Both tools installed, but the spawn of ffmpeg fails. *)
Definition broken : machine := {|
  path_tools := ["ffmpeg"; "ffprobe"];
  probe_stdout := fun _ => Some ("10.000000" ++ LF);
  transcode := fun _ => inl "Permission denied"
|}.


(** Both tools installed; the probe reports a duration of zero. *)
Definition still : machine := {|
  path_tools := ["ffmpeg"; "ffprobe"];
  probe_stdout := fun _ => Some ("0.000000" ++ LF);
  transcode := fun _ => inr ten_seconds
|}.



(** An input folder that holds the output folder. *)
Definition nested : fs := {|
  dirs := ["in"; "in/out"];
  files := ["in/A.wav"]
|}.


(** An input folder with two recognised files. *)
Definition album : fs := {|
  dirs := ["in"];
  files := ["in/A.wav"; "in/C.mp3"]
|}.

(** An input folder with a recognised and an unrecognised file. *)
Definition disk : fs := {|
  dirs := ["in"];
  files := ["in/A.wav"; "in/B.txt"]
|}.

(** The same, with the target of [A.wav] already in the output folder. *)
Definition disk_done : fs := {|
  dirs := ["in"; "out"];
  files := ["in/A.wav"; "in/B.txt"; "out/A.wav"]
|}.

(** The state of the machine [m] with the file system [w] and the log
    [l]. *)
Definition frame (m : machine) (w : fs) (l : list event) : @state (host m) :=
  @Build_state (host m) w l.

Definition boot (m : machine) (w : fs) : @state (host m) := frame m w [].

End Sim.

(** ** Reading a computation *)

(** Events that show on the console or wait for the child: what
    [convert_media] does once the process is spawned. *)
Definition is_display (e : event) : bool :=
  match e with
  | EPrint _ | EWait | ETqdm _ _ | EUpdate _ | ETqdmClose => true
  | _ => false
  end.

(** Printing and waiting: what the path without a progress bar does. *)
Definition is_plain (e : event) : bool :=
  match e with
  | EPrint _ | EWait => true
  | _ => false
  end.

Section Effects.
Context {H : Host}.

(** [m] leaves the world alone and only adds events that pass [ok] to
    the log. *)
Definition logs_only {A} (ok : event -> bool) (m : M A) : Prop :=
  forall st : state,
    exists evs : list event,
      snd (m st) = {| now := now st; log := log st ++ evs |}
      /\ forallb ok evs = true.

(** [m] returns, or raises the error of an external call. *)
Definition fails_externally {A} (m : M A) : Prop :=
  forall st : state,
    (exists a, fst (m st) = Returned a)
    \/ (exists msg, fst (m st) = Raised (ExternalError msg)).

End Effects.


(** ** Reading the archive step *)

(** The calls of [shutil.move] for the converted list. *)
Definition archive_moves (archive_folder : string)
  (converted_files : list string) : list event :=
  map (fun src =>
         EMove src (OsPath.join archive_folder (OsPath.basename src)))
      converted_files.

(** The world after these moves. *)
Definition archive_world {H : Host} (archive_folder : string)
  (converted_files : list string) (w : world) : world :=
  fold_left
    (fun w src =>
       shutil_move w src (OsPath.join archive_folder (OsPath.basename src)))
    converted_files w.

(** The one-line summary of the archive step. *)
Definition archive_summary (archive_folder : string) (quiet : bool)
  (converted_files : list string) : list event :=
  if quiet then []
  else [EPrint ("Moved " ++ str_of_nat (length converted_files)
                ++ " file(s) to archive: " ++ archive_folder)].

(** ** More ways to read the parser and the log *)

(** A finite float above zero. *)
Definition is_positive (f : pyfloat) : Prop :=
  match f with
  | FFin x => (0 < x)%Q
  | _ => False
  end.

(** [s.count(c)] for a character. *)
Fixpoint count_char (c : ascii) (s : string) : nat :=
  match s with
  | EmptyString => O
  | String d s' => (if Ascii.eqb d c then 1 else 0) + count_char c s'
  end.


(** Events that leave the file system alone: neither [os.makedirs] nor
    [shutil.move]. *)
Definition is_harmless (e : event) : bool :=
  match e with
  | EMakedirs _ | EMove _ _ => false
  | _ => true
  end.

(** ** Case-insensitive suffixes, in the words of the specification *)





(** ** Config helpers *)

(** A JSON document as [json.load] returns it. *)
#[warnings="-register-all"]
Inductive pyval : Type :=
| PNone
| PBool (b : bool)
| PNumber (q : Q)
| PStr (s : string)
| PList (l : list pyval)
| PDict (d : list (string * pyval)).

(** A Python [dict] with string keys, in insertion order. *)
Definition dict (V : Type) : Type := list (string * V).

(** [d.get(key)] *)
Fixpoint dict_get {V : Type} (d : dict V) (key : string) : option V :=
  match d with
  | [] => None
  | (k, v) :: d' => if String.eqb k key then Some v else dict_get d' key
  end.

(** [d[key] = v] *)
Fixpoint dict_set {V : Type} (d : dict V) (key : string) (v : V) : dict V :=
  match d with
  | [] => [(key, v)]
  | (k, x) :: d' =>
      if String.eqb k key then (k, v) :: d' else (k, x) :: dict_set d' key v
  end.

(** What opening the config file and decoding it gives: the file is
    missing ([FileNotFoundError]), it cannot be opened or read for another
    reason, its text is not JSON ([json.JSONDecodeError]), or its text is
    the JSON document [v].  Writing a document with [json.dump] leaves the
    file in the last of these states. *)
Inductive config_file : Type :=
| NoFile
| Unreadable (msg : string)
| NotJson
| Document (v : pyval).

(** [val] when [isinstance(val, str) or val is None], for
    [val = cfg.get(key)]. *)
Definition normal_value (val : option pyval) : option (option string) :=
  match val with
  | None => Some None
  | Some PNone => Some None
  | Some (PStr s) => Some (Some s)
  | Some _ => None
  end.

Definition config_keys : list string :=
  ["input_folder"; "output_folder"; "archive"].

(** The body of the loop over the three keys. *)
Definition normalise_key (cfg : dict pyval) (out : dict (option string))
  (key : string) : dict (option string) :=
  match normal_value (dict_get cfg key) with
  | Some val => dict_set out key val
  | None => out
  end.

(** Load default folders from the config file, if it exists. *)
Definition load_config (file : config_file) : result (dict (option string)) :=
  match file with
  | NoFile => Returned []
  | NotJson => Returned []
  | Unreadable msg => Raised (ExternalError msg)
  | Document (PDict cfg) =>
      Returned (fold_left (normalise_key cfg) config_keys [])
  | Document _ => Returned []
  end.

(** [s.lstrip(c)] and [s.rstrip(c)] for one character. *)
Fixpoint lstrip_char (c : ascii) (s : string) : string :=
  match s with
  | EmptyString => EmptyString
  | String d s' => if Ascii.eqb d c then lstrip_char c s' else s
  end.

Fixpoint rstrip_char (c : ascii) (s : string) : string :=
  match s with
  | EmptyString => EmptyString
  | String d s' =>
      let r := rstrip_char c s' in
      if Ascii.eqb d c && is_empty r then EmptyString else String d r
  end.

Fixpoint all_chars (c : ascii) (s : string) : bool :=
  match s with
  | EmptyString => true
  | String d s' => Ascii.eqb d c && all_chars c s'
  end.

(** [os.path.dirname(p)] on POSIX. *)
Definition dirname (p : string) : string :=
  let head :=
    match OsPath.rfind "/" p with
    | Some i => substring 0 (S i) p
    | None => EmptyString
    end in
  if negb (is_empty head) && negb (all_chars "/" head)
  then rstrip_char "/" head
  else head.

(** The config file in the home directory [home]
    ([os.path.expanduser("~")]). *)
Definition CONFIG_FILE (home : string) : string :=
  OsPath.join home ".convert_audio_tool.json".

Section Config.
Context {H : Host}.

(** The program with its config file. *)
Record desk : Type := {
  settings : config_file;
  session : state
}.

(** Save default folders to the config file. *)
Definition save_config (home input_folder output_folder : string)
  (archive_folder : option string) (d : desk) : desk :=
  {| settings :=
       Document
         (PDict [("input_folder", PStr input_folder);
                 ("output_folder", PStr output_folder);
                 ("archive", match archive_folder with
                             | Some a => PStr a
                             | None => PNone
                             end)]);
     session :=
       {| now := os_makedirs (now (session d)) (dirname (CONFIG_FILE home));
          log := log (session d)
                 ++ [EMakedirs (dirname (CONFIG_FILE home));
                     EPrint ("Saved defaults to " ++ CONFIG_FILE home)] |} |}.

End Config.

(** ** The command line ([cli.py]) *)

Module Cli.

(** The namespace that [parse_args] returns. *)
Record Namespace : Type := {
  input_folder : string;
  output_folder : string;
  format : string;
  archive : string;
  no_archive : bool;
  recursive : bool;
  overwrite : bool;
  quiet : bool;
  save_defaults : bool;
  show_defaults : bool
}.

(** [config.get(key) or fallback] *)
Definition get_or (config : dict (option string)) (key fallback : string)
  : string :=
  match dict_get config key with
  | Some (Some s) => if is_empty s then fallback else s
  | _ => fallback
  end.

(** [parse_args([])]: no argument on the command line, every option has
    its default; the defaults of the three folders come from the config
    file.  The parsing of a non-empty command line by [argparse] is not
    modelled. *)
Definition parse_args (file : config_file) : result Namespace :=
  match load_config file with
  | Raised e => Raised e
  | Returned config =>
      Returned
        {| input_folder := get_or config "input_folder" "input_folder";
           output_folder :=
             get_or config "output_folder" "output_folder/odpovedi";
           format := "wav";
           archive := get_or config "archive" "archived";
           no_archive := false;
           recursive := false;
           overwrite := false;
           quiet := false;
           save_defaults := false;
           show_defaults := false |}
  end.

(** ["." + args.format.lstrip(".")] *)
Definition output_ext_of (format : string) : string :=
  "." ++ lstrip_char "." format.

(** [None if args.no_archive else args.archive] *)
Definition archive_of (args : Namespace) : option string :=
  if no_archive args then None else Some (archive args).

Section Main.
Context {H : Host}.

(** The lines of [--show-defaults]. *)
Definition defaults_lines (home : string) (args : Namespace) : list event :=
  [EPrint "Current defaults (including config + built-in):";
   EPrint ("  input-folder:  " ++ input_folder args);
   EPrint ("  output-folder: " ++ output_folder args);
   EPrint ("  archive:       "
           ++ (if no_archive args then "disabled (no archive)"
               else archive args));
   EPrint ("Config file: " ++ CONFIG_FILE home)].

(** [main(argv)] from the namespace [args = parse_args(argv)] on;
    [fuel] is the bound of [convert_folder]. *)
Definition main (fuel : nat) (home : string) (args : Namespace) (d : desk)
  : result unit * desk :=
  if show_defaults args then
    (Returned tt,
     {| settings := settings d;
        session := {| now := now (session d);
                      log := log (session d) ++ defaults_lines home args |} |})
  else
    let d1 :=
      if save_defaults args
      then save_config home (input_folder args) (output_folder args)
             (archive_of args) d
      else d in
    let (r, st) :=
      convert_folder fuel (input_folder args) (output_folder args)
        (output_ext_of (format args)) (recursive args) (overwrite args)
        (quiet args) (archive_of args) (session d1) in
    (r, {| settings := settings d1; session := st |}).

End Main.

End Cli.

(** * Properties *)

(** ** Facts about the string methods *)

Section StringFacts.
Import PyStr.
#[local] Arguments isspace : simpl never.

Lemma rstrip_idem (s : string) : rstrip (rstrip s) = rstrip s.
Proof.
  induction s as [|c s IH]; simpl; [reflexivity|].
  destruct (isspace c && is_empty (rstrip s)) eqn:E; simpl; [reflexivity|].
  rewrite IH, E. reflexivity.
Qed.

Lemma lstrip_idem (s : string) : lstrip (lstrip s) = lstrip s.
Proof.
  induction s as [|c s IH]; simpl; [reflexivity|].
  destruct (isspace c) eqn:E; [exact IH|].
  simpl. rewrite E. reflexivity.
Qed.

Lemma rstrip_lstrip (s : string) : rstrip (lstrip s) = lstrip (rstrip s).
Proof.
  induction s as [|c s IH]; simpl; [reflexivity|].
  destruct (isspace c) eqn:E; simpl.
  - rewrite IH. destruct (rstrip s) eqn:R; simpl; [reflexivity|].
    rewrite E. reflexivity.
  - rewrite E. reflexivity.
Qed.

Lemma strip_rstrip (s : string) : strip (rstrip s) = strip s.
Proof. unfold strip. rewrite rstrip_idem. reflexivity. Qed.

Lemma strip_lstrip (s : string) : strip (lstrip s) = strip s.
Proof. unfold strip. rewrite rstrip_lstrip, lstrip_idem. reflexivity. Qed.

Lemma strip_idem (s : string) : strip (strip s) = strip s.
Proof. unfold strip at 2. rewrite strip_lstrip, strip_rstrip. reflexivity. Qed.

Lemma is_empty_app_cons (a b : string) (c : ascii) :
  is_empty (a ++ String c b) = false.
Proof. destruct a; reflexivity. Qed.

Lemma rstrip_app_cons (a b : string) (c : ascii) :
  isspace c = false -> rstrip (a ++ String c b) = a ++ String c (rstrip b).
Proof.
  intros Hc. induction a as [|x a IH]; simpl.
  - rewrite Hc. reflexivity.
  - rewrite IH, is_empty_app_cons, andb_false_r. reflexivity.
Qed.

Lemma lstrip_app_cons (a b : string) (c : ascii) :
  isspace c = false -> lstrip (a ++ String c b) = lstrip a ++ String c b.
Proof.
  intros Hc. induction a as [|x a IH]; simpl.
  - rewrite Hc. reflexivity.
  - destruct (isspace x); [exact IH | reflexivity].
Qed.

Lemma has_char_lstrip (c : ascii) (s : string) :
  has_char c s = false -> has_char c (lstrip s) = false.
Proof.
  induction s as [|x s IH]; simpl; [reflexivity|].
  intros Hs. apply orb_false_elim in Hs as [Hx Hs].
  destruct (isspace x); [auto|]. simpl. rewrite Hx. exact Hs.
Qed.

Lemma has_char_rstrip (c : ascii) (s : string) :
  has_char c s = false -> has_char c (rstrip s) = false.
Proof.
  induction s as [|x s IH]; simpl; [reflexivity|].
  intros Hs. apply orb_false_elim in Hs as [Hx Hs].
  destruct (isspace x && is_empty (rstrip s)); [reflexivity|].
  simpl. rewrite Hx. auto.
Qed.

Lemma split_without (c : ascii) (a : string) :
  has_char c a = false -> split c a = [a].
Proof.
  induction a as [|x a IH]; simpl; [reflexivity|].
  intros Hs. apply orb_false_elim in Hs as [Hx Hs].
  rewrite Hx, (IH Hs). reflexivity.
Qed.

Lemma split_app_sep (c : ascii) (a b : string) :
  has_char c a = false -> split c (a ++ String c b) = a :: split c b.
Proof.
  induction a as [|x a IH]; simpl.
  - intros _. rewrite Ascii.eqb_refl. reflexivity.
  - intros Hs. apply orb_false_elim in Hs as [Hx Hs].
    rewrite Hx, (IH Hs). reflexivity.
Qed.

End StringFacts.

(** ** Facts about the numbers *)

Section RoundingFacts.
Import PyNum.
Open Scope Q_scope.

Lemma round_half_even_near (x : Q) :
  Qabs (inject_Z (round_half_even x) - x) <= 1 # 2.
Proof.
  unfold round_half_even.
  pose proof (Qfloor_le x) as Hlo. pose proof (Qlt_floor x) as Hhi.
  rewrite inject_Z_plus in Hhi. change (inject_Z 1) with 1 in Hhi.
  apply Qabs_Qle_condition.
  destruct (x - inject_Z (Qfloor x) ?= 1 # 2) eqn:E.
  - apply Qeq_alt in E.
    destruct (Z.even (Qfloor x));
      [|rewrite inject_Z_plus; change (inject_Z 1) with 1]; split; lra.
  - apply Qlt_alt in E. split; lra.
  - apply Qgt_alt in E. rewrite inject_Z_plus. change (inject_Z 1) with 1.
    split; lra.
Qed.

Lemma round_half_even_floor (x : Q) : (Qfloor x <= round_half_even x)%Z.
Proof.
  unfold round_half_even.
  destruct (x - inject_Z (Qfloor x) ?= 1 # 2);
    [destruct (Z.even (Qfloor x))| |]; lia.
Qed.

Lemma round_half_even_comp (x y : Q) :
  x == y -> round_half_even x = round_half_even y.
Proof.
  intros E. unfold round_half_even.
  rewrite (Qfloor_comp x y E).
  assert (E' : x - inject_Z (Qfloor y) == y - inject_Z (Qfloor y))
    by (rewrite E; reflexivity).
  rewrite (Qcompare_comp _ _ E' (1 # 2) (1 # 2) (Qeq_refl _)). reflexivity.
Qed.

Lemma round_half_even_Z (k : Z) : round_half_even (inject_Z k) = k.
Proof.
  unfold round_half_even. rewrite Qfloor_Z.
  assert (E : inject_Z k - inject_Z k == 0) by ring.
  rewrite (Qcompare_comp _ _ E (1 # 2) (1 # 2) (Qeq_refl _)). reflexivity.
Qed.

Lemma two_pow_pos (e : Z) : 0 < 2 ^ e.
Proof. apply Qpower_0_lt. reflexivity. Qed.

Lemma two_pow_plus (a b : Z) : 2 ^ (a + b) == 2 ^ a * 2 ^ b.
Proof. apply Qpower_plus. discriminate. Qed.

Lemma two_pow_le (a b : Z) : (a <= b)%Z -> 2 ^ a <= 2 ^ b.
Proof. intros Hab. apply Qpower_le_compat_l; [exact Hab | discriminate]. Qed.

Lemma two_pow_cancel (e : Z) : 2 ^ (- e) * 2 ^ e == 1.
Proof.
  rewrite <- two_pow_plus. replace (- e + e)%Z with 0%Z by lia. reflexivity.
Qed.

Lemma two_pow_Z (n : Z) : (0 <= n)%Z -> inject_Z (2 ^ n) == 2 ^ n.
Proof. intros Hn. rewrite (Zpower_Qpower 2 n Hn). reflexivity. Qed.

Lemma Qabs_eq (q : Q) : 0 <= q -> Qabs q = q.
Proof.
  destruct q as [n d]. unfold Qle, Qabs. simpl. intros Hn.
  rewrite Z.abs_eq by lia. reflexivity.
Qed.

(** [ilog2] is the floor of the binary logarithm. *)
Lemma ilog2_spec (q : Q) :
  0 < q -> 2 ^ ilog2 q <= q /\ q < 2 ^ (ilog2 q + 1).
Proof.
  intros Hq. destruct q as [n d]. unfold ilog2. simpl Qnum. simpl Qden.
  assert (Hn : (0 < n)%Z) by (unfold Qlt in Hq; simpl in Hq; lia).
  pose proof (Z.log2_spec n Hn) as [Ln Un].
  pose proof (Z.log2_spec (Z.pos d) (Pos2Z.is_pos d)) as [Ld Ud].
  pose proof (Z.log2_nonneg n) as Nn.
  pose proof (Z.log2_nonneg (Z.pos d)) as Nd.
  set (a := Z.log2 n) in *. set (b := Z.log2 (Z.pos d)) in *.
  assert (Hd : 0 < inject_Z (Z.pos d)) by reflexivity.
  assert (La : 2 ^ a <= inject_Z n).
  { rewrite <- two_pow_Z by exact Nn. rewrite <- Zle_Qle. exact Ln. }
  assert (Ua : inject_Z n < 2 ^ (a + 1)).
  { rewrite <- two_pow_Z by lia. rewrite <- Zlt_Qlt.
    replace (a + 1)%Z with (Z.succ a) by lia. exact Un. }
  assert (Lb : 2 ^ b <= inject_Z (Z.pos d)).
  { rewrite <- two_pow_Z by exact Nd. rewrite <- Zle_Qle. exact Ld. }
  assert (Ub : inject_Z (Z.pos d) < 2 ^ (b + 1)).
  { rewrite <- two_pow_Z by lia. rewrite <- Zlt_Qlt.
    replace (b + 1)%Z with (Z.succ b) by lia. exact Ud. }
  assert (Hmul : (n # d) * inject_Z (Z.pos d) == inject_Z n).
  { rewrite (Qmake_Qdiv n d). field. intros C. rewrite C in Hd.
    discriminate. }
  assert (Lo : 2 ^ (a - b - 1) < n # d).
  { apply Qmult_lt_r with (inject_Z (Z.pos d)); [exact Hd|].
    rewrite Hmul.
    apply Qlt_le_trans with (2 ^ (a - b - 1) * 2 ^ (b + 1)).
    - apply Qmult_lt_l; [apply two_pow_pos | exact Ub].
    - rewrite <- two_pow_plus.
      replace (a - b - 1 + (b + 1))%Z with a by lia. exact La. }
  assert (Hi : n # d < 2 ^ (a - b + 1)).
  { apply Qmult_lt_r with (inject_Z (Z.pos d)); [exact Hd|].
    rewrite Hmul.
    apply Qlt_le_trans with (2 ^ (a + 1)); [exact Ua|].
    replace (a + 1)%Z with (a - b + 1 + b)%Z by lia. rewrite two_pow_plus.
    apply Qmult_le_l; [apply two_pow_pos | exact Lb]. }
  destruct (Qle_bool (2 ^ (a - b)) (n # d)) eqn:E.
  - apply Qle_bool_iff in E. split; [exact E | exact Hi].
  - split; [apply Qlt_le_weak; exact Lo|].
    replace (a - b - 1 + 1)%Z with (a - b)%Z by lia.
    apply Qnot_le_lt. intros C. apply Qle_bool_iff in C. congruence.
Qed.

Lemma ilog2_below (q : Q) (b : Z) : 0 < q -> q < 2 ^ b -> (ilog2 q < b)%Z.
Proof.
  intros Hq Hb. destruct (ilog2_spec q Hq) as [Lo _].
  apply (Qpower_lt_compat_l_inv 2); [|reflexivity].
  apply Qle_lt_trans with q; assumption.
Qed.

Lemma round64_value (q : Q) :
  round64 q
  == inject_Z (round_half_even (q * 2 ^ (- quantum q))) * 2 ^ quantum q.
Proof. unfold round64. apply Qred_correct. Qed.

Lemma quantum_min (q : Q) : (-1074 <= quantum q)%Z.
Proof. unfold quantum. lia. Qed.

(** The rounding error is at most half a unit in the last place. *)
Lemma round64_error (q : Q) :
  Qabs (round64 q - q) <= 2 ^ quantum q * (1 # 2).
Proof.
  rewrite round64_value. set (e := quantum q).
  set (m := round_half_even (q * 2 ^ (- e))).
  assert (E : inject_Z m * 2 ^ e - q
              == (inject_Z m - q * 2 ^ (- e)) * 2 ^ e).
  { pose proof (two_pow_cancel e) as C.
    transitivity (inject_Z m * 2 ^ e - q * (2 ^ (- e) * 2 ^ e)).
    - rewrite C. ring.
    - ring. }
  rewrite E, Qabs_Qmult, (Qabs_pos (2 ^ e))
    by (apply Qlt_le_weak, two_pow_pos).
  rewrite (Qmult_comm (2 ^ e)).
  apply Qmult_le_compat_r; [|apply Qlt_le_weak, two_pow_pos].
  apply round_half_even_near.
Qed.

Lemma round64_on_grid (q : Q) : on_grid (round64 q).
Proof.
  pose proof (quantum_min q) as Hmin.
  exists (round_half_even (q * 2 ^ (- quantum q)) * 2 ^ (quantum q + 1074))%Z.
  rewrite round64_value, inject_Z_mult, two_pow_Z by lia.
  rewrite <- Qmult_assoc, <- two_pow_plus.
  replace (quantum q + 1074 + -1074)%Z with (quantum q) by lia. reflexivity.
Qed.

(** The unit in the last place is below the number itself. *)
Lemma quantum_below (q : Q) : 2 ^ (-1074) <= q -> 2 ^ quantum q <= q.
Proof.
  intros Hq.
  assert (Hpos : 0 < q).
  { apply Qlt_le_trans with (2 ^ (-1074)); [apply two_pow_pos | exact Hq]. }
  unfold quantum. rewrite (Qabs_eq q) by (apply Qlt_le_weak; exact Hpos).
  destruct (ilog2_spec q Hpos) as [Lo _].
  destruct (Z.max_spec (ilog2 q - 52) (-1074)) as [[_ ->]|[_ ->]];
    [exact Hq|].
  apply Qle_trans with (2 ^ ilog2 q); [apply two_pow_le; lia | exact Lo].
Qed.

Lemma round64_nonneg (q : Q) : 0 <= q -> 0 <= round64 q.
Proof.
  intros Hq. rewrite round64_value.
  apply Qmult_le_0_compat; [|apply Qlt_le_weak, two_pow_pos].
  change 0 with (inject_Z 0). rewrite <- Zle_Qle.
  apply Z.le_trans with (Qfloor (q * 2 ^ (- quantum q)));
    [|apply round_half_even_floor].
  change 0%Z with (Qfloor 0). apply Qfloor_resp_le.
  apply Qmult_le_0_compat; [exact Hq | apply Qlt_le_weak, two_pow_pos].
Qed.

(** No positive number of the grid rounds to zero. *)
Lemma round64_pos (q : Q) : 2 ^ (-1074) <= q -> 2 ^ (-1074) <= round64 q.
Proof.
  intros Hq. pose proof (quantum_below q Hq) as Hb.
  pose proof (quantum_min q) as Hmin.
  rewrite round64_value. set (e := quantum q) in *.
  assert (H1 : (1 <= round_half_even (q * 2 ^ (- e)))%Z).
  { apply Z.le_trans with (Qfloor (q * 2 ^ (- e)));
      [|apply round_half_even_floor].
    change 1%Z with (Qfloor 1). apply Qfloor_resp_le.
    rewrite <- (two_pow_cancel e), (Qmult_comm (2 ^ (- e))).
    apply Qmult_le_compat_r; [exact Hb | apply Qlt_le_weak, two_pow_pos]. }
  apply Qle_trans with (1 * 2 ^ e).
  - rewrite Qmult_1_l. apply two_pow_le. exact Hmin.
  - apply Qmult_le_compat_r; [|apply Qlt_le_weak, two_pow_pos].
    change 1 with (inject_Z 1). rewrite <- Zle_Qle. exact H1.
Qed.

(** Two numbers of the grid differ by a unit at least. *)
Lemma grid_gap (x y : Q) :
  on_grid x -> on_grid y -> y < x -> 2 ^ (-1074) <= x - y.
Proof.
  intros [a Ha] [b Hb] Hlt.
  assert (Hab : (b < a)%Z).
  { apply Z.lt_nge. intros C. rewrite Zle_Qle in C.
    assert (x <= y).
    { rewrite Ha, Hb. apply Qmult_le_compat_r;
        [exact C | apply Qlt_le_weak, two_pow_pos]. }
    lra. }
  rewrite Ha, Hb.
  assert (H1 : 1 <= inject_Z a - inject_Z b).
  { assert (Hz : (1 <= a - b)%Z) by lia. rewrite Zle_Qle in Hz.
    unfold Zminus in Hz. rewrite inject_Z_plus, inject_Z_opp in Hz.
    exact Hz. }
  pose proof (two_pow_pos (-1074)) as P. nra.
Qed.

Lemma Qabs_scaled (k g : Z) :
  Qabs (inject_Z k * 2 ^ g) == inject_Z (Z.abs k) * 2 ^ g.
Proof.
  rewrite Qabs_Qmult, (Qabs_pos (2 ^ g)) by (apply Qlt_le_weak, two_pow_pos).
  apply Qmult_comp; [|reflexivity].
  unfold Qabs, inject_Z. reflexivity.
Qed.

(** A number of at most 53 bits, at an exponent that binary64 has, is not
    changed by rounding. *)
Lemma round64_exact (q : Q) (k g : Z) :
  q == inject_Z k * 2 ^ g -> (Z.abs k < 2 ^ 53)%Z -> (-1074 <= g)%Z ->
  round64 q == q.
Proof.
  intros Hq Hk Hg. rewrite round64_value.
  destruct (Z.eq_dec k 0) as [->|Hk0].
  { assert (Hz : q == 0) by (rewrite Hq; ring).
    assert (Hx : q * 2 ^ (- quantum q) == inject_Z 0).
    { transitivity (0 * 2 ^ (- quantum q));
        [apply Qmult_comp; [exact Hz | reflexivity] | ring]. }
    rewrite (round_half_even_comp _ _ Hx), round_half_even_Z.
    transitivity 0; [ring | symmetry; exact Hz]. }
  assert (He : (quantum q <= g)%Z).
  { unfold quantum.
    assert (Hpos : 0 < Qabs q).
    { rewrite Hq, Qabs_scaled.
      apply Qmult_lt_0_compat; [|apply two_pow_pos].
      change 0 with (inject_Z 0). rewrite <- Zlt_Qlt. lia. }
    assert (Hup : Qabs q < 2 ^ (53 + g)).
    { rewrite Hq, Qabs_scaled, two_pow_plus.
      apply Qmult_lt_r; [apply two_pow_pos|].
      rewrite <- two_pow_Z by lia. rewrite <- Zlt_Qlt. exact Hk. }
    pose proof (ilog2_below _ _ Hpos Hup). lia. }
  set (e := quantum q) in *.
  assert (Hx : q * 2 ^ (- e) == inject_Z (k * 2 ^ (g - e))).
  { rewrite Hq, inject_Z_mult, two_pow_Z by lia.
    rewrite <- Qmult_assoc, <- two_pow_plus.
    replace (g + - e)%Z with (g - e)%Z by lia. reflexivity. }
  rewrite (round_half_even_comp _ _ Hx), round_half_even_Z.
  rewrite inject_Z_mult, two_pow_Z by lia.
  rewrite <- Qmult_assoc, <- two_pow_plus.
  replace (g - e + e)%Z with g by lia. symmetry. exact Hq.
Qed.

(** The unit in the last place of a number: at most [2^-52] times the
    number in the normal range, and [2^-1074] below. *)
Lemma quantum_bound (q : Q) :
  ~ q == 0 -> 2 ^ quantum q <= Qabs q * 2 ^ (-52) + 2 ^ (-1074).
Proof.
  intros Hq.
  assert (Hpos : 0 < Qabs q).
  { destruct (Qlt_le_dec 0 (Qabs q)) as [L|L]; [exact L|].
    exfalso. apply Hq. apply Qabs_Qle_condition in L as [L1 L2]. lra. }
  destruct (ilog2_spec _ Hpos) as [Lo _].
  pose proof (two_pow_plus (ilog2 (Qabs q)) (-52)) as P.
  pose proof (two_pow_pos (-1074)) as T.
  pose proof (two_pow_pos (-52)) as T'.
  unfold quantum.
  destruct (Z.max_spec (ilog2 (Qabs q) - 52) (-1074)) as [[_ ->]|[_ ->]].
  - assert (0 <= Qabs q * 2 ^ (-52)) by nra. lra.
  - replace (ilog2 (Qabs q) - 52)%Z with (ilog2 (Qabs q) + -52)%Z by lia.
    rewrite P.
    assert (2 ^ ilog2 (Qabs q) * 2 ^ (-52) <= Qabs q * 2 ^ (-52)) by nra.
    lra.
Qed.

(** The rounding error: a relative error of [2^-53] in the normal range,
    half a subnormal unit below it. *)
Lemma round64_close (q : Q) :
  Qabs (round64 q - q) <= Qabs q * 2 ^ (-53) + 2 ^ (-1075).
Proof.
  assert (H53 : 2 ^ (-52) * (1 # 2) == 2 ^ (-53)) by reflexivity.
  assert (H75 : 2 ^ (-1074) * (1 # 2) == 2 ^ (-1075)).
  { change (1 # 2) with (2 ^ (-1)). rewrite <- two_pow_plus. reflexivity. }
  destruct (Qeq_dec q 0) as [Hz|Hnz].
  - assert (E : round64 q == q).
    { apply (round64_exact q 0 0); [rewrite Hz; reflexivity | | ];
        [reflexivity | lia]. }
    assert (E' : round64 q - q == 0) by (rewrite E; ring).
    rewrite E'. simpl Qabs at 1.
    pose proof (Qabs_nonneg q). pose proof (two_pow_pos (-53)).
    pose proof (two_pow_pos (-1075)). nra.
  - pose proof (round64_error q) as He.
    pose proof (quantum_bound q Hnz) as Hb.
    rewrite <- H75.
    assert (Qabs q * 2 ^ (-53) == Qabs q * 2 ^ (-52) * (1 # 2))
      by (rewrite <- H53; ring).
    lra.
Qed.

(** An integer below [2^53] is a float. *)
Lemma round64_Z (n : Z) :
  (Z.abs n < 2 ^ 53)%Z -> round64 (inject_Z n) = inject_Z n.
Proof.
  intros Hn.
  assert (E : round64 (inject_Z n) == inject_Z n).
  { apply (round64_exact _ n 0); [|exact Hn|lia]. simpl. ring. }
  unfold round64 in *. apply Qred_complete in E.
  rewrite (Qcanon.Qred_identity (Qred _)) in E by apply gcd_Qred.
  rewrite E. apply Qcanon.Qred_identity. simpl. apply Z.gcd_1_r.
Qed.





(** What is a fixed point of the rounding lies on the grid. *)
Lemma binary64_on_grid (q : Q) : binary64 q = true -> on_grid q.
Proof.
  unfold binary64. intros E. apply andb_prop in E as [E _].
  apply Qeq_bool_iff in E. destruct (round64_on_grid q) as [k Hk].
  exists k. rewrite <- E. exact Hk.
Qed.

Lemma binary64_finite (q : Q) :
  binary64 q = true -> Qabs q < inject_Z overflow_bound.
Proof.
  unfold binary64. intros E. apply andb_prop in E as [_ E].
  apply negb_true_iff in E. apply Qnot_le_lt. intros C.
  apply Qle_bool_iff in C. congruence.
Qed.

End RoundingFacts.

Section NumberFacts.
Import PyStr PyNum.

Lemma overflow_bound_pos : 0 < overflow_bound.
Proof. vm_compute. reflexivity. Qed.

#[local] Opaque overflow_bound.

Lemma py_int_rstrip (s : string) : py_int (rstrip s) = py_int s.
Proof. unfold py_int. rewrite strip_rstrip. reflexivity. Qed.

Lemma py_int_lstrip (s : string) : py_int (lstrip s) = py_int s.
Proof. unfold py_int. rewrite strip_lstrip. reflexivity. Qed.

Lemma py_float_rstrip (s : string) : py_float (rstrip s) = py_float s.
Proof. unfold py_float. rewrite strip_rstrip. reflexivity. Qed.

Lemma py_float_strip (s : string) : py_float (strip s) = py_float s.
Proof. unfold py_float. rewrite strip_idem. reflexivity. Qed.

Lemma of_Q_finite (q : Q) :
  (Qabs q < inject_Z overflow_bound)%Q -> of_Q q = FFin (round64 q).
Proof.
  intros Hq. unfold of_Q.
  destruct (Qle_bool (inject_Z overflow_bound) (Qabs q)) eqn:E;
    [|reflexivity].
  apply Qle_bool_iff in E. exfalso. exact (Qlt_not_le _ _ Hq E).
Qed.

Lemma of_int_finite (n : Z) :
  Z.abs n < overflow_bound ->
  of_int n = Some (FFin (round64 (inject_Z n))).
Proof.
  intros Hn. unfold of_int.
  destruct (overflow_bound <=? Z.abs n) eqn:E; [|reflexivity].
  apply Z.leb_le in E. lia.
Qed.

(** An integer of at most 53 bits converts without rounding. *)
Lemma of_int_exact (n : Z) :
  Z.abs n < 2 ^ 53 -> of_int n = Some (FFin (inject_Z n)).
Proof.
  intros Hn. rewrite of_int_finite, (round64_Z n Hn); [reflexivity|].
  apply Z.lt_trans with (2 ^ 53); [exact Hn|].
  Transparent overflow_bound. vm_compute. reflexivity.
Qed.

Lemma microseconds_to_seconds (x : Q) :
  truediv (FFin x) (FFin (inject_Z 1000000))
  = Some (of_Q (x / inject_Z 1000000)).
Proof. reflexivity. Qed.

Lemma of_Q_gridded (q : Q) : gridded (of_Q q).
Proof.
  unfold of_Q. destruct (Qle_bool _ _); simpl; [exact I|].
  apply round64_on_grid.
Qed.

Lemma zero_on_grid : on_grid 0.
Proof. exists 0. reflexivity. Qed.

Lemma add_gridded (a b : pyfloat) : gridded (add a b).
Proof.
  destruct a as [|s|x], b as [|s'|y]; simpl; try exact I.
  - destruct (Bool.eqb s s'); exact I.
  - apply of_Q_gridded.
Qed.

Lemma sub_gridded (a b : pyfloat) : gridded (sub a b).
Proof. apply add_gridded. Qed.

Lemma truediv_gridded (a b r : pyfloat) : truediv a b = Some r -> gridded r.
Proof.
  unfold truediv. destruct b as [|s|y].
  - intros [= <-]. exact I.
  - intros [= <-]. destruct a; simpl; try exact I. apply zero_on_grid.
  - destruct (Qeq_bool y 0); [discriminate|]. intros [= <-].
    destruct a; simpl; try exact I. apply of_Q_gridded.
Qed.

Lemma of_int_gridded (n : Z) (r : pyfloat) : of_int n = Some r -> gridded r.
Proof.
  unfold of_int. destruct (overflow_bound <=? Z.abs n); [discriminate|].
  intros [= <-]. apply round64_on_grid.
Qed.

Lemma py_float_gridded (s : string) (r : pyfloat) :
  py_float s = Some r -> gridded r.
Proof.
  unfold py_float. destruct (drop_underscores zero (strip s)); [|discriminate].
  destruct (split_sign s0) as [negative body].
  destruct (String.eqb (lower body) "inf" || String.eqb (lower body) "infinity");
    [intros [= <-]; exact I|].
  destruct (String.eqb (lower body) "nan"); [intros [= <-]; exact I|].
  destruct (parse_decimal body); [|discriminate].
  intros [= <-]. apply of_Q_gridded.
Qed.

Lemma min_gridded (a b : pyfloat) :
  gridded a -> gridded b -> gridded (PyNum.min a b).
Proof. unfold PyNum.min. destruct (ltb b a); auto. Qed.

End NumberFacts.

(** ** The progress stream parser *)

Section ParserFacts.
Import PyStr PyNum.

#[local] Opaque overflow_bound.

Lemma prefix_nil (s : string) : String.prefix EmptyString s = true.
Proof. destruct s; reflexivity. Qed.

Lemma prefix_app (p r : string) : String.prefix p (p ++ r) = true.
Proof.
  induction p as [|a p IH]; simpl.
  - destruct r; reflexivity.
  - destruct (ascii_dec a a) as [_|N]; [exact IH | now elim N].
Qed.

(** Stripping a line that starts and ends its key with a character that
    is not white space only strips the right of its value. *)
Lemma strip_keyed (a c : ascii) (k s : string) :
  isspace a = false -> isspace c = false ->
  strip (String a (k ++ String c s)) = String a (k ++ String c (rstrip s)).
Proof.
  intros Ha Hc. unfold strip.
  change (String a (k ++ String c s)) with (String a k ++ String c s).
  rewrite (rstrip_app_cons _ _ _ Hc). simpl. rewrite Ha. reflexivity.
Qed.

Lemma strip_out_time_ms (s : string) :
  strip ("out_time_ms=" ++ s) = "out_time_ms=" ++ rstrip s.
Proof. apply (strip_keyed "o" "=" "ut_time_ms" s); reflexivity. Qed.

Lemma strip_out_time (s : string) :
  strip ("out_time=" ++ s) = "out_time=" ++ rstrip s.
Proof. apply (strip_keyed "o" "=" "ut_time" s); reflexivity. Qed.

Lemma line_timestamp_out_time_ms (v : string) :
  line_timestamp ("out_time_ms=" ++ v)
  = match py_int v with
    | Some ms =>
        match of_int ms with
        | Some f => truediv f (FFin (inject_Z 1000000))
        | None => None
        end
    | None => None
    end.
Proof.
  unfold line_timestamp, startswith.
  rewrite prefix_app. reflexivity.
Qed.

Lemma line_timestamp_out_time (v : string) :
  line_timestamp ("out_time=" ++ v) = _parse_out_time ("out_time=" ++ v).
Proof.
  unfold line_timestamp, startswith.
  rewrite prefix_app.
  replace (String.prefix "out_time_ms=" ("out_time=" ++ v)) with false
    by reflexivity.
  reflexivity.
Qed.

Lemma _parse_out_time_fields (hs ms ss : string) :
  has_char ":" hs = false -> has_char ":" ms = false ->
  has_char ":" ss = false ->
  _parse_out_time ("out_time=" ++ rstrip (hs ++ ":" ++ ms ++ ":" ++ ss))
  = match py_int hs, py_int ms, py_float ss with
    | Some h, Some m, Some s =>
        match of_int (60 * (m + 60 * h)) with
        | Some whole => Some (add s whole)
        | None => None
        end
    | _, _, _ => None
    end.
Proof.
  intros Hh Hm Hs.
  assert (Hcolon : isspace ":" = false) by reflexivity.
  unfold _parse_out_time.
  change (split_first "=" ("out_time=" ++ ?v)) with (Some ("out_time", v)).
  cbv beta iota.
  rewrite strip_rstrip. unfold strip.
  change (hs ++ ":" ++ ms ++ ":" ++ ss)
    with (hs ++ String ":" (ms ++ String ":" ss)).
  rewrite (rstrip_app_cons hs _ _ Hcolon), (rstrip_app_cons ms _ _ Hcolon).
  rewrite (lstrip_app_cons hs _ _ Hcolon).
  rewrite is_empty_app_cons.
  rewrite (split_app_sep ":" (lstrip hs)) by (apply has_char_lstrip; exact Hh).
  rewrite (split_app_sep ":" ms) by exact Hm.
  rewrite (split_without ":" (rstrip ss)) by (apply has_char_rstrip; exact Hs).
  rewrite py_int_lstrip, py_float_rstrip. reflexivity.
Qed.

(** The timestamp of a line is a float. *)
Lemma line_timestamp_gridded (line : string) (t : pyfloat) :
  line_timestamp line = Some t -> gridded t.
Proof.
  unfold line_timestamp.
  destruct (startswith line "out_time_ms=").
  - destruct (split_first "=" line) as [[k v]|]; [|discriminate].
    destruct (py_int v) as [ms|]; [|discriminate].
    destruct (of_int ms) as [f|]; [|discriminate].
    apply truediv_gridded.
  - destruct (startswith line "out_time="); [|discriminate].
    unfold _parse_out_time.
    destruct (split_first "=" line) as [[k v]|]; [|discriminate].
    destruct (is_empty (strip v)); [discriminate|].
    destruct (split ":" (strip v)) as [|h [|m [|x [|y r]]]];
      try discriminate.
    destruct (py_int h); [|discriminate].
    destruct (py_int m); [|discriminate].
    destruct (py_float x); [|discriminate].
    destruct (of_int _); [|discriminate].
    intros [= <-]. apply add_gridded.
Qed.

End ParserFacts.

(** C5.  The progress-line parser converts [out_time_ms=<integer>] to
    seconds by dividing the integer by 1,000,000 (so
    [out_time_ms=5000000] is 5 seconds), converts
    [out_time=HH:MM:SS.ffffff] to hours*3600 + minutes*60 + seconds (so
    [out_time=00:01:23.500000] is 83.5 seconds), and takes [progress=end]
    as the end of the stream: the loop stops there, whatever the state and
    the duration, and the state is left as it was.  The quotient and the
    sum are those of Python: the integer is converted to a float, and the
    result is the float nearest to the exact quotient or sum. *)
Theorem progress_line_parsing :
  (forall (s : string) (n : Z),
      py_int s = Some n -> Z.abs n < overflow_bound ->
      line_timestamp (strip ("out_time_ms=" ++ s))
      = Some (of_Q (round64 (inject_Z n) / inject_Z 1000000)))
  /\ (forall (s : string) (n : Z),
         py_int s = Some n -> Z.abs n < 2 ^ 53 ->
         line_timestamp (strip ("out_time_ms=" ++ s))
         = Some (of_Q (inject_Z n / inject_Z 1000000)))
  /\ line_timestamp (strip "out_time_ms=5000000") = Some (FFin 5%Q)
  /\ (forall (hs ms ss : string) (h m : Z) (sec : pyfloat),
         py_int hs = Some h -> py_int ms = Some m ->
         py_float ss = Some sec ->
         has_char ":" hs = false -> has_char ":" ms = false ->
         has_char ":" ss = false ->
         Z.abs (h * 3600 + m * 60) < overflow_bound ->
         line_timestamp (strip ("out_time=" ++ hs ++ ":" ++ ms ++ ":" ++ ss))
         = Some (add sec (FFin (round64 (inject_Z (h * 3600 + m * 60))))))
  /\ (forall (hs ms ss : string) (h m : Z) (sec : pyfloat),
         py_int hs = Some h -> py_int ms = Some m ->
         py_float ss = Some sec ->
         has_char ":" hs = false -> has_char ":" ms = false ->
         has_char ":" ss = false ->
         Z.abs (h * 3600 + m * 60) < 2 ^ 53 ->
         line_timestamp (strip ("out_time=" ++ hs ++ ":" ++ ms ++ ":" ++ ss))
         = Some (add sec (FFin (inject_Z (h * 3600 + m * 60)))))
  /\ line_timestamp (strip "out_time=00:01:23.500000")
     = Some (FFin (167 # 2)%Q)
  /\ (forall q : Q,
         (Qabs q < inject_Z overflow_bound)%Q ->
         exists t : Q,
           of_Q q = FFin t
           /\ (Qabs (t - q) <= Qabs q * 2 ^ (-53) + 2 ^ (-1075))%Q)
  /\ (forall (duration : pyfloat) (p : progress) (raw_line : string)
             (rest : list string),
         strip raw_line = "progress=end" ->
         line_timestamp (strip raw_line) = None
         /\ consume_line duration p raw_line = (p, true)
         /\ read_progress duration (raw_line :: rest) p = (p, true)).
Proof.
  assert (Hms : forall (s : string) (n : Z),
             py_int s = Some n -> Z.abs n < overflow_bound ->
             line_timestamp (strip ("out_time_ms=" ++ s))
             = Some (of_Q (round64 (inject_Z n) / inject_Z 1000000))).
  { intros s n Hs Hn.
    rewrite strip_out_time_ms, line_timestamp_out_time_ms, py_int_rstrip, Hs.
    rewrite (of_int_finite n Hn). apply microseconds_to_seconds. }
  assert (Hhms : forall (hs ms ss : string) (h m : Z) (sec : pyfloat),
             py_int hs = Some h -> py_int ms = Some m ->
             py_float ss = Some sec ->
             has_char ":" hs = false -> has_char ":" ms = false ->
             has_char ":" ss = false ->
             Z.abs (h * 3600 + m * 60) < overflow_bound ->
             line_timestamp
               (strip ("out_time=" ++ hs ++ ":" ++ ms ++ ":" ++ ss))
             = Some (add sec
                       (FFin (round64 (inject_Z (h * 3600 + m * 60)))))).
  { intros hs ms ss h m sec Hh Hm Hs Ch Cm Cs Hn.
    rewrite strip_out_time, line_timestamp_out_time.
    rewrite (_parse_out_time_fields hs ms ss Ch Cm Cs), Hh, Hm, Hs.
    replace (60 * (m + 60 * h)) with (h * 3600 + m * 60) by ring.
    rewrite (of_int_finite _ Hn). reflexivity. }
  assert (Hsmall : forall n : Z, Z.abs n < 2 ^ 53 -> Z.abs n < overflow_bound).
  { intros n Hn. apply Z.lt_trans with (2 ^ 53); [exact Hn|].
    vm_compute. reflexivity. }
  split; [exact Hms|].
  split.
  { intros s n Hs Hn. rewrite (Hms s n Hs (Hsmall n Hn)), (round64_Z n Hn).
    reflexivity. }
  split; [vm_compute; reflexivity|].
  split; [exact Hhms|].
  split.
  { intros hs ms ss h m sec Hh Hm Hs Ch Cm Cs Hn.
    rewrite (Hhms hs ms ss h m sec Hh Hm Hs Ch Cm Cs (Hsmall _ Hn)).
    rewrite (round64_Z _ Hn). reflexivity. }
  split; [vm_compute; reflexivity|].
  split.
  { intros q Hq. exists (round64 q).
    split; [apply of_Q_finite; exact Hq | apply round64_close]. }
  intros duration p raw_line rest Hline.
  assert (Hc : consume_line duration p raw_line = (p, true)).
  { unfold consume_line. rewrite Hline. reflexivity. }
  split; [rewrite Hline; reflexivity|]. split; [exact Hc|].
  simpl. rewrite Hc. reflexivity.
Qed.

Lemma progress_line_parsing_witness :
  line_timestamp (strip ("out_time_ms=" ++ "1500000" ++ Sim.LF))
  = Some (of_Q (inject_Z 1500000 / inject_Z 1000000))
  /\ line_timestamp (strip ("out_time_ms=" ++ "1500000" ++ Sim.LF))
     = Some (FFin (3 # 2)%Q)
  /\ line_timestamp (strip ("out_time=" ++ "01" ++ ":" ++ "02" ++ ":" ++ "03.25"))
     = Some (add (FFin (13 # 4)%Q) (FFin (inject_Z (1 * 3600 + 2 * 60))))
  /\ line_timestamp (strip "out_time=01:02:03.25") = Some (FFin (14893 # 4)%Q)
  /\ read_progress (FFin 10%Q)
       [("progress=end" ++ Sim.LF)%string; "out_time_ms=7000000"]
       progress_start
     = (progress_start, true).
Proof.
  destruct progress_line_parsing as (_ & Hms & _ & _ & Hhms & _ & _ & Hend).
  assert (H1 : line_timestamp (strip ("out_time_ms=" ++ "1500000" ++ Sim.LF))
               = Some (of_Q (inject_Z 1500000 / inject_Z 1000000))).
  { apply (Hms ("1500000" ++ Sim.LF)%string 1500000);
      [reflexivity | vm_compute; reflexivity]. }
  assert (H2 : line_timestamp
                 (strip ("out_time=" ++ "01" ++ ":" ++ "02" ++ ":" ++ "03.25"))
               = Some (add (FFin (13 # 4)%Q)
                         (FFin (inject_Z (1 * 3600 + 2 * 60))))).
  { apply (Hhms "01" "02" "03.25" 1 2 (FFin (13 # 4)%Q));
      try reflexivity; vm_compute; reflexivity. }
  split; [exact H1|]. split; [rewrite H1; vm_compute; reflexivity|].
  split; [exact H2|].
  split; [change ("out_time=01:02:03.25")
            with ("out_time=" ++ "01" ++ ":" ++ "02" ++ ":" ++ "03.25");
          rewrite H2; vm_compute; reflexivity|].
  apply (Hend (FFin 10%Q) progress_start ("progress=end" ++ Sim.LF)%string).
  reflexivity.
Defined.




(** ** The history of [last_t] and the updates of the bar *)

Section HistoryFacts.
Import PyNum.







End HistoryFacts.

(** ** The progress state of a job with a known duration *)

Section KnownDuration.
Import PyNum.

Variable d : Q.
Hypothesis d_pos : (0 < d)%Q.
Hypothesis d_float : binary64 d = true.

#[local] Opaque overflow_bound.

Lemma within_range (q : Q) :
  (0 <= q)%Q -> (q <= d)%Q -> (Qabs q < inject_Z overflow_bound)%Q.
Proof.
  intros H0 H1. rewrite (Qabs_pos q H0).
  apply Qle_lt_trans with d; [exact H1|].
  pose proof (binary64_finite d d_float) as F.
  rewrite Qabs_pos in F by (apply Qlt_le_weak; exact d_pos). exact F.
Qed.


Lemma ltb_fin (x y : Q) : ltb (FFin x) (FFin y) = true <-> (x < y)%Q.
Proof.
  simpl. rewrite negb_true_iff. split.
  - intros E. apply Qnot_le_lt. intros C.
    apply Qle_bool_iff in C. congruence.
  - intros L. destruct (Qle_bool y x) eqn:E; [|reflexivity].
    apply Qle_bool_iff in E. exfalso. exact (Qlt_not_le _ _ L E).
Qed.


(** The clamped timestamp is a finite float that does not exceed the
    duration, unless it cannot exceed [last_t]. *)
Lemma clamp_cases (t : pyfloat) (l : Q) :
  gridded t ->
  (exists q, PyNum.min t (FFin d) = FFin q /\ (q <= d)%Q /\ on_grid q)
  \/ gtb (PyNum.min t (FFin d)) (FFin l) = false.
Proof.
  intros Ht. pose proof (binary64_on_grid d d_float) as Gd.
  unfold PyNum.min. destruct t as [|[|]|q]; simpl.
  - right. reflexivity.
  - right. reflexivity.
  - left. exists d. split; [reflexivity|]. split; [apply Qle_refl | exact Gd].
  - destruct (Qle_bool q d) eqn:E; simpl.
    + left. exists q. split; [reflexivity|].
      split; [apply Qle_bool_iff; exact E | exact Ht].
    + left. exists d. split; [reflexivity|].
      split; [apply Qle_refl | exact Gd].
Qed.

Lemma advance_in_step (t : option pyfloat) (p : progress) :
  in_step d p ->
  match t with Some t => gridded t | None => True end ->
  in_step d (advance (FFin d) t p)
  /\ fle (last_t p) (last_t (advance (FFin d) t p)).
Proof.
  intros (l & Hl & H0 & H1 & G) Ht.
  assert (Hsame : in_step d p /\ fle (last_t p) (last_t p)).
  { split; [exists l; auto|]. rewrite Hl. simpl. apply Qle_refl. }
  destruct t as [t|]; [|exact Hsame]. unfold advance. rewrite Hl.
  destruct (clamp_cases t l Ht) as [(q & Hq & Hqd & Gq) | Hno];
    [|rewrite Hno; rewrite <- Hl; exact Hsame].
  rewrite Hq. unfold gtb.
  destruct (ltb (FFin l) (FFin q)) eqn:E; [|rewrite <- Hl; exact Hsame].
  apply ltb_fin in E. simpl. split.
  - exists q. simpl. repeat split.
    + apply Qle_trans with l; [exact H0 | apply Qlt_le_weak; exact E].
    + exact Hqd.
    + exact Gq.
  - apply Qlt_le_weak. exact E.
Qed.

Lemma consume_line_in_step (p : progress) (raw_line : string) :
  in_step d p ->
  in_step d (fst (consume_line (FFin d) p raw_line))
  /\ fle (last_t p) (last_t (fst (consume_line (FFin d) p raw_line))).
Proof.
  intros Hp. unfold consume_line.
  destruct (PyStr.is_empty (PyStr.strip raw_line)); simpl.
  - split; [exact Hp|]. destruct Hp as (l & Hl & _). rewrite Hl.
    simpl. apply Qle_refl.
  - apply advance_in_step; [exact Hp|].
    destruct (line_timestamp (PyStr.strip raw_line)) as [t|] eqn:E;
      [|exact I].
    exact (line_timestamp_gridded _ _ E).
Qed.

Lemma read_progress_in_step (lines : list string) (p : progress) :
  in_step d p -> in_step d (fst (read_progress (FFin d) lines p)).
Proof.
  revert p. induction lines as [|raw_line rest IH]; intros p Hp; simpl.
  - exact Hp.
  - destruct (consume_line_in_step p raw_line Hp) as [Hp' _].
    destruct (consume_line (FFin d) p raw_line) as [p' stop]. simpl in Hp'.
    destruct stop; [exact Hp' | apply IH; exact Hp'].
Qed.



Lemma progress_start_in_step : in_step d progress_start.
Proof.
  exists 0%Q. simpl. repeat split; try apply Qle_refl.
  - apply Qlt_le_weak. exact d_pos.
  - apply zero_on_grid.
Qed.

(** The difference of two floats below the duration is a positive
    float. *)
Lemma sub_positive (l q : Q) :
  on_grid l -> on_grid q ->
  (0 <= l)%Q -> (l < q)%Q -> (q <= d)%Q ->
  exists u : Q,
    sub (FFin q) (FFin l) = FFin u
    /\ (0 < u)%Q
    /\ (Qabs (u - (q - l)) <= (q - l) * 2 ^ (-53) + 2 ^ (-1075))%Q.
Proof.
  intros Gl Gq H0 Hlq Hqd. unfold sub, neg, add.
  assert (Hgap : (2 ^ (-1074) <= q + - l)%Q) by (apply grid_gap; assumption).
  pose proof (two_pow_pos (-1074)) as P.
  rewrite of_Q_finite by (apply within_range; lra).
  exists (round64 (q + - l)). split; [reflexivity|]. split.
  - pose proof (round64_pos _ Hgap). lra.
  - pose proof (round64_close (q + - l)%Q) as C.
    rewrite (Qabs_pos (q + - l)) in C by lra. exact C.
Qed.


End KnownDuration.

(** ** The total of the updates of the bar *)

Section BarTotal.
Import PyNum.

Variable d : Q.
Hypothesis d_pos : (0 < d)%Q.
Hypothesis d_float : binary64 d = true.
Hypothesis d_normal : (2 ^ (-1022) <= d)%Q.
Hypothesis d_moderate : (d <= 2 ^ 1021)%Q.


#[local] Opaque overflow_bound.









End BarTotal.

(** ** Effects of the pieces of [convert_media] *)

Create HintDb effects.

Section EffectFacts.
Context {H : Host}.

Lemma state_eta (st : state) : {| now := now st; log := log st |} = st.
Proof. destruct st. reflexivity. Qed.

Lemma logs_only_ret {A} (ok : event -> bool) (a : A) : logs_only ok (ret a).
Proof.
  intros st. exists []. simpl. rewrite app_nil_r, state_eta. auto.
Qed.

Lemma logs_only_raise {A} (ok : event -> bool) (e : exn) :
  logs_only ok (@raise H A e).
Proof.
  intros st. exists []. simpl. rewrite app_nil_r, state_eta. auto.
Qed.

Lemma logs_only_ask {A} (ok : event -> bool) (query : world -> A) :
  logs_only ok (ask query).
Proof.
  intros st. exists []. simpl. rewrite app_nil_r, state_eta. auto.
Qed.

Lemma logs_only_emit_all (ok : event -> bool) (es : list event) :
  forallb ok es = true -> logs_only ok (emit_all es).
Proof. intros Hes st. exists es. simpl. auto. Qed.

Lemma logs_only_emit (ok : event -> bool) (e : event) :
  ok e = true -> logs_only ok (emit e).
Proof. intros He st. exists [e]. simpl. rewrite He. auto. Qed.

Lemma logs_only_bind {A B} (ok : event -> bool) (m : M A) (k : A -> M B) :
  logs_only ok m -> (forall a, logs_only ok (k a)) -> logs_only ok (bind m k).
Proof.
  intros Hm Hk st. unfold bind. destruct (Hm st) as (e1 & E1 & O1).
  destruct (m st) as [[a|e] st1]; simpl in E1; subst st1.
  - destruct (Hk a {| now := now st; log := log st ++ e1 |})
      as (e2 & E2 & O2).
    exists (e1 ++ e2)%list. rewrite E2. simpl. rewrite app_assoc, forallb_app, O1, O2.
    auto.
  - exists e1. auto.
Qed.

Lemma logs_only_weaken {A} (ok ok' : event -> bool) (m : M A) :
  (forall e, ok e = true -> ok' e = true) -> logs_only ok m -> logs_only ok' m.
Proof.
  intros Hw Hm st. destruct (Hm st) as (evs & E & O). exists evs.
  split; [exact E|]. rewrite forallb_forall in *. auto.
Qed.

Lemma fails_externally_ret {A} (a : A) : fails_externally (ret a).
Proof. intros st. left. exists a. reflexivity. Qed.

Lemma fails_externally_raise {A} (msg : string) :
  fails_externally (@raise H A (ExternalError msg)).
Proof. intros st. right. exists msg. reflexivity. Qed.

Lemma fails_externally_emit (e : event) : fails_externally (emit e).
Proof. intros st. left. exists tt. reflexivity. Qed.

Lemma fails_externally_emit_all (es : list event) :
  fails_externally (emit_all es).
Proof. intros st. left. exists tt. reflexivity. Qed.

Lemma fails_externally_bind {A B} (m : M A) (k : A -> M B) :
  fails_externally m -> (forall a, fails_externally (k a)) ->
  fails_externally (bind m k).
Proof.
  intros Hm Hk st. unfold bind.
  destruct (Hm st) as [(a & E) | (msg & E)];
    destruct (m st) as [r st1]; simpl in E; subst r.
  - apply Hk.
  - right. exists msg. reflexivity.
Qed.

#[local] Hint Resolve logs_only_ret logs_only_raise logs_only_ask
  logs_only_emit_all logs_only_emit logs_only_bind
  fails_externally_ret fails_externally_raise fails_externally_emit
  fails_externally_emit_all fails_externally_bind : effects.

Lemma report_exit_effects (quiet : bool) (code : Z) (i o : string) :
  logs_only is_plain (report_exit quiet code i o)
  /\ fails_externally (report_exit quiet code i o).
Proof.
  unfold report_exit, print.
  destruct ((code =? 0) && negb quiet); [auto with effects|].
  destruct (negb (code =? 0)); auto with effects.
Qed.

Lemma end_of_stream_effects (ok : event -> bool) (s : stream) :
  logs_only ok (end_of_stream s) /\ fails_externally (end_of_stream s).
Proof.
  unfold end_of_stream. destruct (read_error s); auto with effects.
Qed.

Lemma drain_and_report_effects (p : process) (quiet : bool) (i o : string) :
  logs_only is_plain (drain_and_report p quiet i o)
  /\ fails_externally (drain_and_report p quiet i o).
Proof.
  unfold drain_and_report.
  pose proof (report_exit_effects quiet (returncode p) i o) as [R1 R2].
  assert (E : logs_only is_plain
                (match stdout p with
                 | Some s => end_of_stream s
                 | None => ret tt
                 end)
              /\ fails_externally
                   (match stdout p with
                    | Some s => end_of_stream s
                    | None => ret tt
                    end)).
  { destruct (stdout p); [apply end_of_stream_effects | auto with effects]. }
  destruct E as [E1 E2]. split.
  - apply logs_only_bind; [exact E1|]. intros _.
    apply logs_only_bind; [auto with effects|]. intros _. exact R1.
  - apply fails_externally_bind; [exact E2|]. intros _.
    apply fails_externally_bind; [auto with effects|]. intros _. exact R2.
Qed.

Lemma forallb_updates (us : list pyfloat) :
  forallb is_display (map EUpdate us) = true.
Proof. induction us; simpl; auto. Qed.

Lemma drive_bar_effects (duration : pyfloat) (s : stream) :
  logs_only is_display (drive_bar duration s)
  /\ fails_externally (drive_bar duration s).
Proof.
  unfold drive_bar.
  destruct (read_progress duration (lines s) progress_start) as [p stop].
  pose proof (end_of_stream_effects is_display s) as [E1 E2].
  pose proof (forallb_updates (updates p)) as U.
  split.
  - apply logs_only_bind; [auto with effects|]. intros _.
    apply logs_only_bind; [destruct stop; auto with effects|]. intros _.
    apply logs_only_bind; [auto with effects|]. intros _.
    destruct (ltb (last_t p) duration); auto with effects.
  - apply fails_externally_bind; [auto with effects|]. intros _.
    apply fails_externally_bind; [destruct stop; auto with effects|].
    intros _.
    apply fails_externally_bind; [auto with effects|]. intros _.
    destruct (ltb (last_t p) duration); auto with effects.
Qed.

Lemma with_tqdm_effects (duration : pyfloat) (desc : string) (body : M unit) :
  logs_only is_display body -> fails_externally body ->
  logs_only is_display (with_tqdm duration desc body)
  /\ fails_externally (with_tqdm duration desc body).
Proof.
  intros L F. unfold with_tqdm, bind, emit. split.
  - intros st. simpl.
    destruct (L {| now := now st; log := log st ++ [ETqdm duration desc] |})
      as (evs & E & O).
    destruct (body _) as [r st']. simpl in E. subst st'.
    exists ([ETqdm duration desc] ++ evs ++ [ETqdmClose])%list. simpl.
    rewrite forallb_app, O. split; [|reflexivity].
    rewrite <- !app_assoc. reflexivity.
  - intros st. simpl.
    destruct (F {| now := now st; log := log st ++ [ETqdm duration desc] |})
      as [(a & E) | (msg & E)];
      destruct (body _) as [r st']; simpl in E; subst r; simpl.
    + left. exists a. reflexivity.
    + right. exists msg. reflexivity.
Qed.

Lemma after_spawn_effects (duration : option pyfloat) (p : process)
  (quiet : bool) (i o : string) :
  logs_only is_display (after_spawn duration p quiet i o)
  /\ fails_externally (after_spawn duration p quiet i o).
Proof.
  pose proof (drain_and_report_effects p quiet i o) as [D1 D2].
  assert (D1' : logs_only is_display (drain_and_report p quiet i o)).
  { apply (logs_only_weaken is_plain); [|exact D1].
    intros [] E; try discriminate; reflexivity. }
  unfold after_spawn.
  destruct duration as [d|]; [|auto].
  destruct (stdout p) as [s|]; [|auto].
  destruct (negb (truthy d)); [auto|].
  pose proof (drive_bar_effects d s) as [B1 B2].
  pose proof (with_tqdm_effects d (OsPath.basename i) _ B1 B2) as [W1 W2].
  pose proof (report_exit_effects quiet (returncode p) i o) as [R1 R2].
  split.
  - apply logs_only_bind; [exact W1|]. intros _.
    apply (logs_only_weaken is_plain); [|exact R1].
    intros [] E; try discriminate; reflexivity.
  - apply fails_externally_bind; [exact W2|]. intros _. exact R2.
Qed.

End EffectFacts.

(** ** The single-file converter *)

Section ConverterFacts.
Context {H : Host}.

Lemma check_ffmpeg_found (st : state) :
  shutil_which (now st) "ffmpeg" = true ->
  shutil_which (now st) "ffprobe" = true ->
  check_ffmpeg st = (Returned tt, st).
Proof.
  intros H1 H2. unfold check_ffmpeg, bind, ask, ret. simpl.
  rewrite H1. simpl. rewrite H2. reflexivity.
Qed.

Lemma check_ffmpeg_no_ffmpeg (st : state) :
  shutil_which (now st) "ffmpeg" = false ->
  check_ffmpeg st
  = (Raised (EnvironmentError "ffmpeg is not installed or not found in PATH."),
     st).
Proof.
  intros H1. unfold check_ffmpeg, bind, ask, ret. simpl.
  rewrite H1. reflexivity.
Qed.

Lemma check_ffmpeg_no_ffprobe (st : state) :
  shutil_which (now st) "ffmpeg" = true ->
  shutil_which (now st) "ffprobe" = false ->
  check_ffmpeg st
  = (Raised (EnvironmentError "ffprobe is not installed or not found in PATH."),
     st).
Proof.
  intros H1 H2. unfold check_ffmpeg, bind, ask, ret. simpl.
  rewrite H1. simpl. rewrite H2. reflexivity.
Qed.

(** [convert_media] once the tools are found. *)
Lemma convert_media_found (i o : string) (ov q : bool) (st : state) :
  shutil_which (now st) "ffmpeg" = true ->
  shutil_which (now st) "ffprobe" = true ->
  convert_media i o ov q st
  = if os_path_exists (now st) o && negb ov
    then (if negb q then print ("Skipping (exists): " ++ o) else ret tt) st
    else (duration <- get_media_duration i ;; launch duration ov q i o) st.
Proof.
  intros H1 H2. unfold convert_media.
  unfold bind at 1. rewrite (check_ffmpeg_found st H1 H2).
  unfold bind at 1. unfold ask at 1.
  destruct (os_path_exists (now st) o && negb ov); reflexivity.
Qed.

Lemma transcode_effects (duration : option pyfloat) (ov q : bool)
  (i o : string) (st : state) :
  exists evs : list event,
    snd (transcode duration ov q i o st)
    = {| now := snd (subprocess_Popen (now st) (ffmpeg_command ov i o));
         log := log st ++ EPopen (ffmpeg_command ov i o) :: evs |}
    /\ forallb is_display evs = true
    /\ ((exists a, fst (transcode duration ov q i o st) = Returned a)
        \/ (exists msg,
               fst (transcode duration ov q i o st)
               = Raised (ExternalError msg))).
Proof.
  unfold transcode, bind, Popen.
  destruct (subprocess_Popen (now st) (ffmpeg_command ov i o)) as [[msg|p] w].
  - exists []. simpl. split; [reflexivity|]. split; [reflexivity|].
    right. exists msg. reflexivity.
  - destruct (after_spawn_effects duration p q i o) as [L F].
    destruct (L {| now := w;
                   log := log st ++ [EPopen (ffmpeg_command ov i o)] |})
      as (evs & E & O).
    exists evs. simpl. rewrite E. simpl. rewrite <- app_assoc.
    split; [reflexivity|]. split; [exact O|]. apply F.
Qed.

(** The [try] always returns; when its body raises, the error line is the
    last thing done. *)
Lemma launch_catches (duration : option pyfloat) (ov q : bool)
  (i o : string) (st : state) :
  fst (launch duration ov q i o st) = Returned tt
  /\ forall e, fst (transcode duration ov q i o st) = Raised e ->
       snd (launch duration ov q i o st)
       = {| now := now (snd (transcode duration ov q i o st));
            log := log (snd (transcode duration ov q i o st))
                   ++ [EPrint ("Error converting " ++ i ++ ": " ++ exn_str e)] |}.
Proof.
  unfold launch, try_except.
  destruct (transcode_effects duration ov q i o st) as (evs & _ & _ & R).
  destruct (transcode duration ov q i o st) as [[[]|e] st1]; simpl in *.
  - split; [reflexivity|]. intros e E. discriminate.
  - destruct R as [(a & R) | (msg & R)]; [discriminate|].
    injection R as ->. simpl. split; [reflexivity|].
    intros e E. injection E as <-. reflexivity.
Qed.

Lemma launch_effects (duration : option pyfloat) (ov q : bool)
  (i o : string) (st : state) :
  exists evs : list event,
    launch duration ov q i o st
    = (Returned tt,
       {| now := snd (subprocess_Popen (now st) (ffmpeg_command ov i o));
          log := log st ++ EPopen (ffmpeg_command ov i o) :: evs |})
    /\ forallb is_display evs = true.
Proof.
  destruct (launch_catches duration ov q i o st) as [R C].
  destruct (transcode_effects duration ov q i o st) as (evs & E & O & F).
  destruct F as [(a & F) | (msg & F)].
  - exists evs. split; [|exact O].
    unfold launch, try_except in *.
    destruct (transcode duration ov q i o st) as [r st1]. simpl in *.
    subst r st1. destruct a. reflexivity.
  - exists (evs ++ [EPrint ("Error converting " ++ i ++ ": " ++ msg)])%list.
    split; [|rewrite forallb_app, O; reflexivity].
    specialize (C _ F). rewrite E in C. simpl in C.
    destruct (launch duration ov q i o st) as [r st1]. simpl in *.
    subst r st1. rewrite <- app_assoc. reflexivity.
Qed.

(** With both tools found, [convert_media] returns. *)
Lemma convert_media_returns (i o : string) (ov q : bool) (st : state) :
  shutil_which (now st) "ffmpeg" = true ->
  shutil_which (now st) "ffprobe" = true ->
  fst (convert_media i o ov q st) = Returned tt.
Proof.
  intros H1 H2. rewrite (convert_media_found i o ov q st H1 H2).
  destruct (os_path_exists (now st) o && negb ov).
  - destruct (negb q); reflexivity.
  - unfold bind, get_media_duration, emit, ask, ret. simpl.
    apply launch_catches.
Qed.

End ConverterFacts.

(** ** The updates of the bar in the log *)

Section BarFacts.
Context {H : Host}.



Lemma plain_no_updates (evs : list event) :
  forallb is_plain evs = true -> bar_updates evs = [].
Proof.
  induction evs as [|e evs IH]; simpl; [reflexivity|].
  intros E. apply andb_prop in E as [E1 E2].
  destruct e; try discriminate; simpl; auto.
Qed.

(** What [report_exit] prints depends on the exit code and on [quiet]
    only. *)
Lemma report_exit_spec (q : bool) (code : Z) (i o : string) (st : state) :
  report_exit q code i o st
  = (Returned tt,
     {| now := now st;
        log := log st
               ++ (if code =? 0
                   then if q then []
                        else [EPrint ("OK  " ++ i ++ " -> " ++ o)]
                   else [EPrint ("Error during conversion: "
                                 ++ i ++ " -> " ++ o)]) |}).
Proof.
  unfold report_exit, print, emit, ret.
  destruct (code =? 0), q; simpl; try reflexivity;
    rewrite app_nil_r, state_eta; reflexivity.
Qed.



End BarFacts.




(** ** Exceptions, skipping and the path without a bar *)

Section ConverterClaims.
Context {H : Host}.

Lemma convert_media_no_ffmpeg (i o : string) (ov q : bool) (st : state) :
  shutil_which (now st) "ffmpeg" = false ->
  convert_media i o ov q st
  = (Raised (EnvironmentError "ffmpeg is not installed or not found in PATH."),
     st).
Proof.
  intros H1. unfold convert_media. unfold bind at 1.
  rewrite (check_ffmpeg_no_ffmpeg st H1). reflexivity.
Qed.

Lemma convert_media_no_ffprobe (i o : string) (ov q : bool) (st : state) :
  shutil_which (now st) "ffmpeg" = true ->
  shutil_which (now st) "ffprobe" = false ->
  convert_media i o ov q st
  = (Raised (EnvironmentError "ffprobe is not installed or not found in PATH."),
     st).
Proof.
  intros H1 H2. unfold convert_media. unfold bind at 1.
  rewrite (check_ffmpeg_no_ffprobe st H1 H2). reflexivity.
Qed.

(** A raise of [convert_media] ends the loop over the files. *)
Lemma convert_each_raises (output_folder output_ext : string) (ov q : bool)
  (full : string) (rest converted_files : list string) (st st' : state)
  (e : exn) :
  is_media_file (now st) full = true ->
  convert_media full (out_path_of output_folder output_ext full) ov q st
  = (Raised e, st') ->
  convert_each output_folder output_ext ov q (full :: rest) converted_files st
  = (Raised e, st').
Proof.
  intros Hm Hc. simpl. unfold bind at 1. unfold ask at 1. rewrite Hm.
  unfold bind at 1. unfold convert_one. unfold bind at 1. rewrite Hc.
  reflexivity.
Qed.

(** C2, amended.  [convert_media] propagates no exception raised from the
    launch of the transcode process on: the guarded part always returns,
    and when its body raises (a spawn failure, an I/O error on the pipe)
    the exception is caught and logged as an error line that names the
    source file, after which the call returns; with both tools found
    [convert_media] returns.  The environment error of [check_ffmpeg] is
    raised before the guard: it reaches the caller with nothing done, and
    in [convert_folder] it ends the loop over the files. *)
Theorem convert_media_exception_policy
  (i o : string) (ov q : bool) (st : state) :
  (shutil_which (now st) "ffmpeg" = true ->
   shutil_which (now st) "ffprobe" = true ->
   fst (convert_media i o ov q st) = Returned tt)
  /\ (forall (duration : option pyfloat) (st1 : state),
         fst (launch duration ov q i o st1) = Returned tt
         /\ forall e : exn,
              fst (transcode duration ov q i o st1) = Raised e ->
              snd (launch duration ov q i o st1)
              = {| now := now (snd (transcode duration ov q i o st1));
                   log := log (snd (transcode duration ov q i o st1))
                          ++ [EPrint ("Error converting " ++ i ++ ": "
                                      ++ exn_str e)] |})
  /\ (shutil_which (now st) "ffmpeg" = false ->
      convert_media i o ov q st
      = (Raised (EnvironmentError
                   "ffmpeg is not installed or not found in PATH."), st))
  /\ (shutil_which (now st) "ffmpeg" = true ->
      shutil_which (now st) "ffprobe" = false ->
      convert_media i o ov q st
      = (Raised (EnvironmentError
                   "ffprobe is not installed or not found in PATH."), st))
  /\ (forall (output_folder output_ext : string)
             (rest converted_files : list string),
         is_media_file (now st) i = true ->
         shutil_which (now st) "ffmpeg" = false
         \/ shutil_which (now st) "ffprobe" = false ->
         exists msg : string,
           convert_each output_folder output_ext ov q (i :: rest)
             converted_files st
           = (Raised (EnvironmentError msg), st)).
Proof.
  split; [apply convert_media_returns|].
  split; [intros duration st1; apply launch_catches|].
  split; [apply convert_media_no_ffmpeg|].
  split; [apply convert_media_no_ffprobe|].
  intros output_folder output_ext rest converted_files Hm Hmissing.
  destruct (shutil_which (now st) "ffmpeg") eqn:H1.
  - destruct Hmissing as [C|H2]; [discriminate|].
    eexists. apply convert_each_raises; [exact Hm|].
    apply convert_media_no_ffprobe; assumption.
  - eexists. apply convert_each_raises; [exact Hm|].
    apply convert_media_no_ffmpeg; assumption.
Qed.

(** The short-circuit of [convert_media]. *)
Lemma convert_media_skips (i o : string) (q : bool) (st : state) :
  shutil_which (now st) "ffmpeg" = true ->
  shutil_which (now st) "ffprobe" = true ->
  os_path_exists (now st) o = true ->
  convert_media i o false q st
  = (Returned tt,
     if q then st
     else {| now := now st;
             log := log st ++ [EPrint ("Skipping (exists): " ++ o)] |}).
Proof.
  intros H1 H2 He. rewrite (convert_media_found i o false q st H1 H2), He.
  destruct q; reflexivity.
Qed.

(** C4.  With [overwrite=False] and an existing target, [convert_media]
    runs and spawns no process and leaves the world as it is: the check
    comes before any launch.  The tools being found, it then returns after
    printing [Skipping (exists): <target>], or nothing when quiet.  With
    [overwrite=True] (or without the target) the probe is run and the
    transcode process is spawned with the command of the call, whether the
    target exists or not. *)
Theorem skip_before_spawn (i o : string) (ov q : bool) (st : state) :
  (ov = false -> os_path_exists (now st) o = true ->
   now (snd (convert_media i o ov q st)) = now st
   /\ spawned (log (snd (convert_media i o ov q st))) = spawned (log st)
   /\ probed (log (snd (convert_media i o ov q st))) = probed (log st))
  /\ (shutil_which (now st) "ffmpeg" = true ->
      shutil_which (now st) "ffprobe" = true ->
      (ov = false -> os_path_exists (now st) o = true ->
       convert_media i o ov q st
       = (Returned tt,
          if q then st
          else {| now := now st;
                  log := log st ++ [EPrint ("Skipping (exists): " ++ o)] |}))
      /\ (ov = true \/ os_path_exists (now st) o = false ->
          exists evs : list event,
            convert_media i o ov q st
            = (Returned tt,
               {| now := snd (subprocess_Popen (now st)
                                (ffmpeg_command ov i o));
                  log := log st
                         ++ ERun (ffprobe_command i)
                            :: EPopen (ffmpeg_command ov i o) :: evs |})
            /\ forallb is_display evs = true
            /\ spawned (log (snd (convert_media i o ov q st)))
               = (spawned (log st) ++ [ffmpeg_command ov i o])%list)).
Proof.
  split.
  - intros -> He.
    destruct (shutil_which (now st) "ffmpeg") eqn:H1;
      [destruct (shutil_which (now st) "ffprobe") eqn:H2|].
    + rewrite (convert_media_skips i o q st H1 H2 He). destruct q; simpl.
      * auto.
      * unfold spawned, probed. rewrite !flat_map_app. simpl.
        rewrite !app_nil_r. auto.
    + rewrite (convert_media_no_ffprobe i o false q st H1 H2). auto.
    + rewrite (convert_media_no_ffmpeg i o false q st H1). auto.
  - intros H1 H2. split.
    + intros -> He. apply convert_media_skips; assumption.
    + intros Hgo. rewrite (convert_media_found i o ov q st H1 H2).
      assert (Hskip : os_path_exists (now st) o && negb ov = false).
      { destruct Hgo as [-> | ->]; [apply andb_false_r | reflexivity]. }
      rewrite Hskip. unfold bind at 1.
      unfold get_media_duration, bind, emit, ask, ret. simpl.
      match goal with
      | |- context [launch ?d ov q i o ?st0] =>
          destruct (launch_effects d ov q i o st0) as (evs & E & O);
          rewrite E
      end.
      simpl. exists evs. rewrite <- app_assoc. simpl.
      split; [reflexivity|]. split; [exact O|].
      unfold spawned. rewrite flat_map_app. simpl. f_equal.
      clear E. induction evs as [|e evs IH]; [reflexivity|].
      simpl in O. apply andb_prop in O as [O1 O2].
      destruct e; try discriminate; simpl; auto.
Qed.

(** C10.  A probed duration of exactly zero is treated as an unknown
    duration: what follows the spawn is the path without a progress bar in
    both cases, so that [convert_media] goes on as it does without a
    duration.  That path only waits and prints, and what it prints depends
    on the exit code (and on [quiet]) only. *)
Theorem zero_duration_is_unknown (z : Q) (i o : string) (ov q : bool) :
  (z == 0)%Q ->
  (forall p : process,
      after_spawn (Some (FFin z)) p q i o = drain_and_report p q i o
      /\ after_spawn None p q i o = drain_and_report p q i o)
  /\ (forall st : state,
         launch (Some (FFin z)) ov q i o st = launch None ov q i o st)
  /\ (forall (st : state) (text : string),
         shutil_which (now st) "ffmpeg" = true ->
         shutil_which (now st) "ffprobe" = true ->
         os_path_exists (now st) o && negb ov = false ->
         subprocess_run (now st) (ffprobe_command i) = Some text ->
         py_float (strip text) = Some (FFin z) ->
         convert_media i o ov q st
         = launch None ov q i o
             {| now := now st; log := log st ++ [ERun (ffprobe_command i)] |})
  /\ (forall p : process, logs_only is_plain (drain_and_report p q i o))
  /\ (forall (p : process) (st : state),
         stdout p = None
         \/ (exists s, stdout p = Some s /\ read_error s = None) ->
         drain_and_report p q i o st
         = (Returned tt,
            {| now := now st;
               log := log st
                      ++ EWait
                         :: (if returncode p =? 0
                             then if q then []
                                  else [EPrint ("OK  " ++ i ++ " -> " ++ o)]
                             else [EPrint ("Error during conversion: "
                                           ++ i ++ " -> " ++ o)]) |})).
Proof.
  intros Hz.
  assert (Hfalsy : negb (truthy (FFin z)) = true).
  { simpl. rewrite negb_involutive. apply Qeq_bool_iff. exact Hz. }
  assert (Hafter : forall p,
             after_spawn (Some (FFin z)) p q i o = drain_and_report p q i o
             /\ after_spawn None p q i o = drain_and_report p q i o).
  { intros p. unfold after_spawn. rewrite Hfalsy.
    destruct (stdout p); split; reflexivity. }
  assert (Hlaunch : forall st,
             launch (Some (FFin z)) ov q i o st = launch None ov q i o st).
  { intros st. unfold launch, try_except, transcode, bind, Popen.
    destruct (subprocess_Popen (now st) (ffmpeg_command ov i o))
      as [[msg|p] w]; [reflexivity|].
    destruct (Hafter p) as [-> ->]. reflexivity. }
  split; [exact Hafter|]. split; [exact Hlaunch|]. split; [|split].
  - intros st text H1 H2 Hskip Hrun Hfloat.
    rewrite (convert_media_found i o ov q st H1 H2), Hskip.
    unfold bind at 1. unfold get_media_duration, bind, emit, ask, ret. simpl.
    rewrite Hrun, Hfloat. apply Hlaunch.
  - intros p. apply drain_and_report_effects.
  - intros p st Hread. unfold drain_and_report, bind, emit, end_of_stream.
    assert (E : (match stdout p with
                 | Some s =>
                     match read_error s with
                     | Some msg => raise (ExternalError msg)
                     | None => ret tt
                     end
                 | None => ret tt
                 end) st = (Returned tt, st)).
    { destruct Hread as [-> | (s & -> & ->)]; reflexivity. }
    rewrite E, report_exit_spec. simpl. rewrite <- app_assoc. reflexivity.
Qed.

End ConverterClaims.

(** C2 as stated fails: without ffmpeg in [PATH], [convert_media] raises
    the environment error to its caller, nothing is printed, and
    [convert_folder] stops at the first of two media files. *)
Lemma environment_error_reaches_caller :
  @convert_media (Sim.host Sim.bare) "in/A.wav" "out/A.wav" false false
    (Sim.boot Sim.bare Sim.album)
  = (Raised (EnvironmentError "ffmpeg is not installed or not found in PATH."),
     Sim.boot Sim.bare Sim.album)
  /\ printed
       (log (snd (@convert_media (Sim.host Sim.bare) "in/A.wav" "out/A.wav"
                    false false (Sim.boot Sim.bare Sim.album))))
     = []
  /\ @iter_media_files (Sim.host Sim.bare) 1 Sim.album "in" false
     = Some ["in/A.wav"; "in/C.mp3"]
  /\ fst (@convert_folder (Sim.host Sim.bare) 1 "in" "out" ".wav"
            false false false None (Sim.boot Sim.bare Sim.album))
     = Raised (EnvironmentError "ffmpeg is not installed or not found in PATH.")
  /\ log (snd (@convert_folder (Sim.host Sim.bare) 1 "in" "out" ".wav"
                 false false false None (Sim.boot Sim.bare Sim.album)))
     = [EMakedirs "out"].
Proof. repeat split. Qed.

Lemma convert_media_exception_policy_witness :
  fst (@convert_media (Sim.host Sim.broken) "in/A.wav" "out/A.wav"
         false false (Sim.boot Sim.broken Sim.disk))
  = Returned tt
  /\ snd (@launch (Sim.host Sim.broken) (Some (FFin 10%Q)) false false
            "in/A.wav" "out/A.wav" (Sim.boot Sim.broken Sim.disk))
     = Sim.frame Sim.broken Sim.disk
         [EPopen (ffmpeg_command false "in/A.wav" "out/A.wav");
          EPrint "Error converting in/A.wav: Permission denied"]
  /\ @convert_media (Sim.host Sim.bare) "in/A.wav" "out/A.wav" false false
       (Sim.boot Sim.bare Sim.disk)
     = (Raised (EnvironmentError
                  "ffmpeg is not installed or not found in PATH."),
        Sim.boot Sim.bare Sim.disk).
Proof.
  destruct (@convert_media_exception_policy (Sim.host Sim.broken)
              "in/A.wav" "out/A.wav" false false
              (Sim.boot Sim.broken Sim.disk))
    as (Hreturns & Hcaught & _).
  destruct (@convert_media_exception_policy (Sim.host Sim.bare)
              "in/A.wav" "out/A.wav" false false
              (Sim.boot Sim.bare Sim.disk))
    as (_ & _ & Hmissing & _).
  split; [|split].
  - apply Hreturns; reflexivity.
  - destruct (Hcaught (Some (FFin 10%Q)) (Sim.boot Sim.broken Sim.disk))
      as [_ Hline].
    apply (Hline (ExternalError "Permission denied")). reflexivity.
  - apply Hmissing. reflexivity.
Defined.

Lemma skip_before_spawn_witness :
  @convert_media (Sim.host Sim.studio) "in/A.wav" "out/A.wav" false false
    (Sim.boot Sim.studio Sim.disk_done)
  = (Returned tt,
     Sim.frame Sim.studio Sim.disk_done
       [EPrint "Skipping (exists): out/A.wav"])
  /\ spawned
       (log (snd (@convert_media (Sim.host Sim.studio) "in/A.wav" "out/A.wav"
                    true false (Sim.boot Sim.studio Sim.disk_done))))
     = [ffmpeg_command true "in/A.wav" "out/A.wav"].
Proof.
  destruct (@skip_before_spawn (Sim.host Sim.studio) "in/A.wav" "out/A.wav"
              false false (Sim.boot Sim.studio Sim.disk_done))
    as [_ Hfound].
  destruct (Hfound eq_refl eq_refl) as [Hskip _].
  destruct (@skip_before_spawn (Sim.host Sim.studio) "in/A.wav" "out/A.wav"
              true false (Sim.boot Sim.studio Sim.disk_done))
    as [_ Hfound'].
  destruct (Hfound' eq_refl eq_refl) as [_ Hspawn].
  split.
  - apply Hskip; reflexivity.
  - destruct (Hspawn (or_introl eq_refl)) as (evs & _ & _ & Hs). exact Hs.
Defined.

Lemma zero_duration_is_unknown_witness :
  @convert_media (Sim.host Sim.still) "in/A.wav" "out/A.wav" false false
    (Sim.boot Sim.still Sim.disk)
  = @launch (Sim.host Sim.still) None false false "in/A.wav" "out/A.wav"
      (Sim.frame Sim.still Sim.disk [ERun (ffprobe_command "in/A.wav")])
  /\ @drain_and_report (Sim.host Sim.still) Sim.ten_seconds false
       "in/A.wav" "out/A.wav" (Sim.boot Sim.still Sim.disk)
     = (Returned tt,
        Sim.frame Sim.still Sim.disk
          [EWait; EPrint "OK  in/A.wav -> out/A.wav"]).
Proof.
  destruct (@zero_duration_is_unknown (Sim.host Sim.still) 0%Q
              "in/A.wav" "out/A.wav" false false (Qeq_refl 0%Q))
    as (_ & _ & Hmedia & _ & Hplain).
  split.
  - apply (Hmedia (Sim.boot Sim.still Sim.disk) ("0.000000" ++ Sim.LF)%string);
      reflexivity.
  - apply (Hplain Sim.ten_seconds (Sim.boot Sim.still Sim.disk)).
    right. eexists. split; reflexivity.
Defined.

(** ** The media file locator *)

Section LocatorFacts.
Import PyStr OsPath.


Lemma append_nil_r (s : string) : s ++ EmptyString = s.
Proof. induction s as [|a s IH]; simpl; [|rewrite IH]; reflexivity. Qed.

Lemma append_assoc (x y z : string) : (x ++ y) ++ z = x ++ (y ++ z).
Proof. induction x as [|a x IH]; simpl; [|rewrite IH]; reflexivity. Qed.

Lemma rev_onto_app (s acc : string) : rev_onto s acc = rev s ++ acc.
Proof.
  unfold rev. revert acc. induction s as [|a s IH]; intros acc; simpl.
  - reflexivity.
  - rewrite (IH (String a acc)), (IH (String a EmptyString)), append_assoc.
    reflexivity.
Qed.

Lemma rev_app (x y : string) : rev (x ++ y) = rev y ++ rev x.
Proof.
  induction x as [|a x IH]; simpl.
  - rewrite append_nil_r. reflexivity.
  - unfold rev at 1 3. simpl. rewrite !rev_onto_app, IH, append_assoc.
    reflexivity.
Qed.

Lemma rev_cons (a : ascii) (s : string) :
  rev (String a s) = rev s ++ String a EmptyString.
Proof. unfold rev at 1. simpl. apply rev_onto_app. Qed.

Lemma rev_involutive (s : string) : rev (rev s) = s.
Proof.
  induction s as [|a s IH]; [reflexivity|].
  rewrite rev_cons, rev_app, IH. reflexivity.
Qed.


(** A string that ends with a slash is a string followed by a slash. *)
Lemma endswith_slash (a : string) :
  endswith a "/" = true -> exists a', a = a' ++ "/".
Proof.
  unfold endswith. intros E. rewrite <- (rev_involutive a).
  change (rev "/") with "/" in E.
  destruct (rev a) as [|c r]; [simpl in E; discriminate|].
  cbn [String.prefix] in E.
  destruct (ascii_dec "/" c) as [<-|]; [|discriminate].
  exists (rev r). apply rev_cons.
Qed.










End LocatorFacts.


Section LocatorClaims.
Context {H : Host}.
Import PyStr OsPath.





End LocatorClaims.


(** ** The batch converter *)

Section BatchFacts.
Context {H : Host}.
Import OsPath.

Variables output_folder output_ext : string.
Variables overwrite quiet : bool.

Lemma convert_one_spec (src : string) (converted_files : list string)
  (st : state) :
  convert_one output_folder output_ext overwrite quiet src converted_files st
  = match convert_media src (out_path_of output_folder output_ext src)
            overwrite quiet st with
    | (Returned _, st') => (Returned (converted_files ++ [src])%list, st')
    | (Raised e, st') => (Raised e, st')
    end.
Proof. reflexivity. Qed.

Lemma convert_each_cons (full : string) (rest converted_files : list string)
  (st : state) :
  convert_each output_folder output_ext overwrite quiet (full :: rest)
    converted_files st
  = if is_media_file (now st) full
    then match convert_media full (out_path_of output_folder output_ext full)
                 overwrite quiet st with
         | (Returned _, st') =>
             convert_each output_folder output_ext overwrite quiet rest
               (converted_files ++ [full])%list st'
         | (Raised e, st') => (Raised e, st')
         end
    else convert_each output_folder output_ext overwrite quiet rest
           converted_files st.
Proof.
  simpl. unfold bind at 1. unfold ask at 1.
  destruct (is_media_file (now st) full); [|reflexivity].
  unfold bind at 1. rewrite convert_one_spec.
  destruct (convert_media full _ overwrite quiet st) as [[[]|e] st'];
    reflexivity.
Qed.

(** With the tools found, a call of [convert_media] returns in every
    state. *)
Lemma convert_media_total (src out : string) (st : state) :
  tools_found H ->
  exists st', convert_media src out overwrite quiet st = (Returned tt, st').
Proof.
  intros Htools. destruct (Htools (now st)) as [H1 H2].
  pose proof (convert_media_returns src out overwrite quiet st H1 H2) as R.
  destruct (convert_media src out overwrite quiet st) as [r st'].
  simpl in R. subst r. exists st'. reflexivity.
Qed.

(** The converted list at the end of the loop: every yielded file, once,
    in the order of the yields. *)
Lemma convert_each_yields (candidates converted_files : list string)
  (st : state) :
  tools_found H ->
  fst (convert_each output_folder output_ext overwrite quiet candidates
         converted_files st)
  = Returned (converted_files
              ++ yielded_files output_folder output_ext overwrite quiet
                   candidates st)%list.
Proof.
  intros Htools. revert converted_files st.
  induction candidates as [|full rest IH]; intros converted_files st.
  - simpl. rewrite app_nil_r. reflexivity.
  - rewrite convert_each_cons. simpl yielded_files.
    destruct (is_media_file (now st) full); [|apply IH].
    destruct (convert_media_total full
                (out_path_of output_folder output_ext full) st Htools)
      as (st' & E).
    rewrite E. simpl. rewrite IH, <- app_assoc. reflexivity.
Qed.

(** The state after the loop does not depend on the list it started
    with. *)
Lemma convert_each_state (candidates acc acc' : list string) (st : state) :
  snd (convert_each output_folder output_ext overwrite quiet candidates acc st)
  = snd (convert_each output_folder output_ext overwrite quiet candidates
           acc' st).
Proof.
  revert acc acc' st.
  induction candidates as [|full rest IH]; intros acc acc' st.
  - reflexivity.
  - rewrite !convert_each_cons.
    destruct (is_media_file (now st) full); [|apply IH].
    destruct (convert_media full _ overwrite quiet st) as [[[]|e] st'];
      [apply IH | reflexivity].
Qed.


(** The loop over a listing cut in two. *)
Lemma convert_each_app (before rest acc : list string) (st : state) :
  convert_each output_folder output_ext overwrite quiet (before ++ rest)
    acc st
  = match convert_each output_folder output_ext overwrite quiet before acc
            st with
    | (Returned acc', st') =>
        convert_each output_folder output_ext overwrite quiet rest acc' st'
    | (Raised e, st') => (Raised e, st')
    end.
Proof.
  revert acc st. induction before as [|full before IH]; intros acc st;
    [reflexivity|].
  simpl app. rewrite !convert_each_cons.
  destruct (is_media_file (now st) full); [|apply IH].
  destruct (convert_media full _ overwrite quiet st) as [[[]|e] st'];
    [apply IH | reflexivity].
Qed.

(** One step of the recursive loop. *)
Lemma convert_walk_cons (fuel : nat) (top : string) (rest acc : list string)
  (st : state) :
  convert_walk output_folder output_ext overwrite quiet (S fuel)
    (top :: rest) acc st
  = match convert_each output_folder output_ext overwrite quiet
            (map (OsPath.join top) (snd (scan (now st) top))) acc st with
    | (Returned acc', st') =>
        convert_walk output_folder output_ext overwrite quiet fuel
          (descend (now st') top (fst (scan (now st) top)) ++ rest)%list
          acc' st'
    | (Raised e, st') => (Raised e, st')
    end.
Proof.
  cbn [convert_walk]. unfold bind at 1. unfold ask at 1. cbn [now].
  unfold bind at 1.
  destruct (convert_each output_folder output_ext overwrite quiet _ acc st)
    as [[acc'|e] st']; reflexivity.
Qed.

(** A recursive loop that comes to its end is the loop over the paths
    that the walk has listed on its way. *)
Lemma convert_walk_run (fuel : nat) (stack acc : list string) (st : state) :
  walk_ends output_folder output_ext overwrite quiet fuel stack st = true ->
  convert_walk output_folder output_ext overwrite quiet fuel stack acc st
  = convert_each output_folder output_ext overwrite quiet
      (walk_candidates output_folder output_ext overwrite quiet fuel stack st)
      acc st.
Proof.
  revert stack acc st.
  induction fuel as [|fuel IH]; intros [|top rest] acc st Hends;
    try reflexivity; try discriminate.
  rewrite convert_walk_cons. cbn [walk_candidates walk_ends] in Hends |- *.
  rewrite convert_each_app.
  pose proof (convert_each_state
                (map (OsPath.join top) (snd (scan (now st) top))) acc []
                st) as S.
  destruct (convert_each output_folder output_ext overwrite quiet
              (map (OsPath.join top) (snd (scan (now st) top))) acc st)
    as [[acc'|e] st']; [|reflexivity].
  simpl in S. rewrite <- S in Hends |- *. apply IH. exact Hends.
Qed.

(** Whether it ends or not, the recursive loop leaves the state of the
    loop over the paths listed. *)
Lemma convert_walk_state (fuel : nat) (stack acc : list string) (st : state) :
  snd (convert_walk output_folder output_ext overwrite quiet fuel stack acc
         st)
  = snd (convert_each output_folder output_ext overwrite quiet
           (walk_candidates output_folder output_ext overwrite quiet fuel
              stack st)
           acc st).
Proof.
  revert stack acc st.
  induction fuel as [|fuel IH]; intros [|top rest] acc st; try reflexivity.
  rewrite convert_walk_cons. cbn [walk_candidates].
  rewrite convert_each_app.
  pose proof (convert_each_state
                (map (OsPath.join top) (snd (scan (now st) top))) acc []
                st) as S.
  destruct (convert_each output_folder output_ext overwrite quiet
              (map (OsPath.join top) (snd (scan (now st) top))) acc st)
    as [[acc'|e] st']; [|reflexivity].
  simpl in S. rewrite <- S. apply IH.
Qed.

(** The result of a recursive loop is [Unfinished] only when the bound
    is reached. *)
Lemma convert_walk_result (fuel : nat) (stack acc : list string) (st : state) :
  fst (convert_walk output_folder output_ext overwrite quiet fuel stack acc
         st)
  = Raised Unfinished ->
  walk_ends output_folder output_ext overwrite quiet fuel stack st = false
  \/ fst (convert_each output_folder output_ext overwrite quiet
            (walk_candidates output_folder output_ext overwrite quiet fuel
               stack st)
            acc st)
     = Raised Unfinished.
Proof.
  intros E.
  destruct (walk_ends output_folder output_ext overwrite quiet fuel stack st)
    eqn:Hends; [right | left; reflexivity].
  rewrite <- (convert_walk_run fuel stack acc st Hends). exact E.
Qed.

(** A walk that ends within the bound is the same under any larger
    bound. *)
Lemma walk_more (fuel fuel' : nat) (stack : list string) (st : state) :
  walk_ends output_folder output_ext overwrite quiet fuel stack st = true ->
  (fuel <= fuel')%nat ->
  walk_ends output_folder output_ext overwrite quiet fuel' stack st = true
  /\ walk_candidates output_folder output_ext overwrite quiet fuel' stack st
     = walk_candidates output_folder output_ext overwrite quiet fuel stack st.
Proof.
  revert fuel' stack st.
  induction fuel as [|fuel IH]; intros fuel' [|top rest] st Hends Hle;
    try discriminate.
  - destruct fuel'; split; reflexivity.
  - destruct fuel'; split; reflexivity.
  - destruct fuel' as [|fuel']; [lia|].
    cbn [walk_ends walk_candidates] in Hends |- *.
    destruct (IH fuel' _ _ Hends) as [E C]; [lia|].
    rewrite E, C. split; reflexivity.
Qed.

Variable input_folder : string.
Variable recursive : bool.

Lemma run_more (fuel fuel' : nat) (st : state) :
  run_ends fuel input_folder output_folder output_ext recursive overwrite
    quiet st = true ->
  (fuel <= fuel')%nat ->
  run_ends fuel' input_folder output_folder output_ext recursive overwrite
    quiet st = true
  /\ run_candidates fuel' input_folder output_folder output_ext recursive
       overwrite quiet st
     = run_candidates fuel input_folder output_folder output_ext recursive
         overwrite quiet st.
Proof.
  unfold run_ends, run_candidates. destruct recursive; [|auto].
  apply walk_more.
Qed.

Lemma convert_all_run (fuel : nat) (st : state) :
  run_ends fuel input_folder output_folder output_ext recursive overwrite
    quiet st = true ->
  convert_all fuel input_folder output_folder output_ext recursive overwrite
    quiet st
  = convert_each output_folder output_ext overwrite quiet
      (run_candidates fuel input_folder output_folder output_ext recursive
         overwrite quiet st)
      [] st.
Proof.
  unfold run_ends, convert_all, run_candidates. destruct recursive.
  - apply convert_walk_run.
  - reflexivity.
Qed.

(** The loop that ends within the bound does not depend on the
    bound. *)
Lemma convert_all_more (fuel fuel' : nat) (st : state) :
  run_ends fuel input_folder output_folder output_ext recursive overwrite
    quiet st = true ->
  (fuel <= fuel')%nat ->
  convert_all fuel' input_folder output_folder output_ext recursive overwrite
    quiet st
  = convert_all fuel input_folder output_folder output_ext recursive
      overwrite quiet st.
Proof.
  intros Hends Hle. destruct (run_more fuel fuel' st Hends Hle) as [E C].
  rewrite (convert_all_run fuel' st E), (convert_all_run fuel st Hends), C.
  reflexivity.
Qed.

Lemma convert_all_state (fuel : nat) (st : state) :
  snd (convert_all fuel input_folder output_folder output_ext recursive
         overwrite quiet st)
  = snd (convert_each output_folder output_ext overwrite quiet
           (run_candidates fuel input_folder output_folder output_ext
              recursive overwrite quiet st)
           [] st).
Proof.
  unfold convert_all, run_candidates. destruct recursive.
  - apply convert_walk_state.
  - reflexivity.
Qed.

End BatchFacts.


(** ** The number in the summary *)

Section SummaryFacts.
Import PyStr PyNum.

Lemma rstrip_uint (d : Decimal.uint) :
  rstrip (DecimalString.NilEmpty.string_of_uint d)
  = DecimalString.NilEmpty.string_of_uint d.
Proof.
  induction d as [|d IH|d IH|d IH|d IH|d IH|d IH|d IH|d IH|d IH|d IH];
    [reflexivity|..]; cbn [DecimalString.NilEmpty.string_of_uint rstrip];
    rewrite IH; reflexivity.
Qed.

Lemma lstrip_uint (d : Decimal.uint) :
  lstrip (DecimalString.NilEmpty.string_of_uint d)
  = DecimalString.NilEmpty.string_of_uint d.
Proof. destruct d; reflexivity. Qed.

Lemma drop_underscores_uint (prev : ascii) (d : Decimal.uint) :
  Ascii.eqb prev "_" = false ->
  drop_underscores prev (DecimalString.NilEmpty.string_of_uint d)
  = Some (DecimalString.NilEmpty.string_of_uint d).
Proof.
  revert prev.
  induction d as [|d IH|d IH|d IH|d IH|d IH|d IH|d IH|d IH|d IH|d IH];
    intros prev Hprev;
    cbn [DecimalString.NilEmpty.string_of_uint drop_underscores];
    rewrite ?Hprev; [reflexivity|..];
    cbn [Ascii.eqb Bool.eqb andb negb]; rewrite IH by reflexivity;
    reflexivity.
Qed.

Lemma decimal_uint (acc : nat) (d : Decimal.uint) :
  decimal (Z.of_nat acc) (DecimalString.NilEmpty.string_of_uint d)
  = Some (Z.of_nat (Nat.of_uint_acc d acc)).
Proof.
  revert acc.
  induction d as [|d IH|d IH|d IH|d IH|d IH|d IH|d IH|d IH|d IH|d IH];
    intros acc; [reflexivity|..];
    cbn [DecimalString.NilEmpty.string_of_uint decimal Nat.of_uint_acc];
    rewrite <- IH, Nat.tail_mul_spec;
    match goal with
    | |- (if isdigit ?c then _ else _) = _ =>
        change (isdigit c) with true; cbv iota;
        f_equal; unfold digit_value;
        let v := eval vm_compute in (Z.of_nat (nat_of_ascii c)) in
        change (Z.of_nat (nat_of_ascii c)) with v; lia
    end.
Qed.

(** The number printed reads back as the number: [str] writes it in
    decimal digits. *)
Lemma py_int_str_of_nat (n : nat) : py_int (str_of_nat n) = Some (Z.of_nat n).
Proof.
  unfold str_of_nat, DecimalString.NilZero.string_of_uint.
  assert (Hread : forall d : Decimal.uint,
             d <> Decimal.Nil ->
             py_int (DecimalString.NilEmpty.string_of_uint d)
             = Some (Z.of_nat (Nat.of_uint d))).
  { intros d Hd. unfold py_int, strip.
    rewrite rstrip_uint, lstrip_uint, drop_underscores_uint by reflexivity.
    unfold signed_decimal.
    replace (split_sign (DecimalString.NilEmpty.string_of_uint d))
      with (false, DecimalString.NilEmpty.string_of_uint d)
      by (destruct d; reflexivity).
    replace (is_empty (DecimalString.NilEmpty.string_of_uint d)) with false
      by (destruct d; [contradiction|..]; reflexivity).
    pose proof (decimal_uint 0 d) as Hdec.
    change (Z.of_nat 0) with 0 in Hdec. rewrite Hdec. reflexivity. }
  pose proof (DecimalNat.Unsigned.of_to n) as Hn.
  destruct (Nat.to_uint n) as [| | | | | | | | | |] eqn:E;
    [simpl in Hn; subst n; reflexivity|..];
    rewrite <- Hn; apply Hread; discriminate.
Qed.

End SummaryFacts.

Section BatchClaims.
Context {H : Host}.
Import OsPath.

Lemma move_each_spec (archive_folder : string) (converted_files : list string)
  (st : state) :
  move_each archive_folder converted_files st
  = (Returned tt,
     {| now := archive_world archive_folder converted_files (now st);
        log := log st ++ archive_moves archive_folder converted_files |}).
Proof.
  revert st. induction converted_files as [|src rest IH]; intros st.
  - simpl. unfold ret. rewrite app_nil_r, state_eta. reflexivity.
  - simpl. unfold bind at 1. unfold move, act. rewrite IH. simpl.
    rewrite <- app_assoc. reflexivity.
Qed.

Lemma archive_originals_spec (archive_folder : string) (quiet : bool)
  (converted_files : list string) (st : state) :
  archive_originals (Some archive_folder) quiet converted_files st
  = (Returned tt,
     {| now := archive_world archive_folder converted_files
                 (os_makedirs (now st) archive_folder);
        log := log st
               ++ EMakedirs archive_folder
                  :: archive_moves archive_folder converted_files
                  ++ archive_summary archive_folder quiet converted_files |}).
Proof.
  unfold archive_originals, archive_summary, bind, makedirs, act.
  rewrite move_each_spec. simpl.
  destruct quiet; simpl; unfold ret, print, emit; simpl;
    rewrite <- !app_assoc; simpl; rewrite ?app_nil_r; reflexivity.
Qed.

(** [convert_folder] on an existing input folder. *)
Lemma convert_folder_spec (fuel : nat)
  (input_folder output_folder output_ext : string)
  (recursive overwrite quiet : bool) (archive_folder : option string)
  (st : state) :
  os_path_isdir (now st) input_folder = true ->
  convert_folder fuel input_folder output_folder output_ext recursive
    overwrite quiet archive_folder st
  = (converted_files <-
       convert_all fuel input_folder output_folder output_ext recursive
         overwrite quiet ;;
     archive_originals archive_folder quiet converted_files)
      (loop_start output_folder st).
Proof.
  intros Hdir. unfold convert_folder.
  unfold bind at 1. unfold ask at 1. rewrite Hdir. reflexivity.
Qed.

(** The state that a run of [convert_folder] on an existing input folder
    leaves, whether the enumeration comes to its end or not. *)
Lemma convert_folder_state (fuel : nat)
  (input_folder output_folder output_ext : string)
  (recursive overwrite quiet : bool) (archive_folder : option string)
  (st : state) :
  os_path_isdir (now st) input_folder = true ->
  exists (r : result (list string)) (st1 : state),
    st1 = snd (convert_each output_folder output_ext overwrite quiet
                 (run_candidates fuel input_folder output_folder output_ext
                    recursive overwrite quiet (loop_start output_folder st))
                 [] (loop_start output_folder st))
    /\ snd (convert_folder fuel input_folder output_folder output_ext
              recursive overwrite quiet archive_folder st)
       = match r with
         | Returned converted_files =>
             snd (archive_originals archive_folder quiet converted_files st1)
         | Raised _ => st1
         end.
Proof.
  intros Hdir. rewrite (convert_folder_spec _ _ _ _ _ _ _ _ _ Hdir).
  unfold bind.
  pose proof (convert_all_state output_folder output_ext overwrite quiet
                input_folder recursive fuel (loop_start output_folder st))
    as S.
  destruct (convert_all fuel input_folder output_folder output_ext recursive
              overwrite quiet (loop_start output_folder st)) as [r st1].
  simpl in S. exists r, st1. split; [exact S|].
  destruct r; reflexivity.
Qed.

(** [convert_folder] on an existing input folder with the tools found
    and an enumeration that comes to its end: the archive step is run on
    the yielded files. *)
Lemma convert_folder_run (fuel : nat)
  (input_folder output_folder output_ext : string)
  (recursive overwrite quiet : bool) (archive_folder : option string)
  (st : state) :
  tools_found H ->
  os_path_isdir (now st) input_folder = true ->
  run_ends fuel input_folder output_folder output_ext recursive overwrite
    quiet (loop_start output_folder st) = true ->
  convert_folder fuel input_folder output_folder output_ext recursive
    overwrite quiet archive_folder st
  = archive_originals archive_folder quiet
      (yielded_files output_folder output_ext overwrite quiet
         (run_candidates fuel input_folder output_folder output_ext
            recursive overwrite quiet (loop_start output_folder st))
         (loop_start output_folder st))
      (snd (convert_each output_folder output_ext overwrite quiet
              (run_candidates fuel input_folder output_folder output_ext
                 recursive overwrite quiet (loop_start output_folder st))
              [] (loop_start output_folder st))).
Proof.
  intros Htools Hdir Hends.
  rewrite (convert_folder_spec _ _ _ _ _ _ _ _ _ Hdir). unfold bind.
  rewrite (convert_all_run output_folder output_ext overwrite quiet
             input_folder recursive fuel _ Hends).
  pose proof (convert_each_yields output_folder output_ext overwrite quiet
                (run_candidates fuel input_folder output_folder output_ext
                   recursive overwrite quiet (loop_start output_folder st))
                [] (loop_start output_folder st) Htools) as Y.
  destruct (convert_each output_folder output_ext overwrite quiet _ [] _)
    as [r st1].
  simpl in Y. subst r. reflexivity.
Qed.

(** C7.  When [input_folder] is not an existing directory,
    [convert_folder] prints a message and exits with the status 1, and
    has done nothing else: the world is as it was, the output folder has
    not been created, no file has been probed or converted, nothing has
    been moved. *)
Theorem missing_input_folder_exits (fuel : nat)
  (input_folder output_folder output_ext : string)
  (recursive overwrite quiet : bool) (archive_folder : option string)
  (st : state) :
  os_path_isdir (now st) input_folder = false ->
  convert_folder fuel input_folder output_folder output_ext recursive
    overwrite quiet archive_folder st
  = (Raised (SystemExit 1),
     {| now := now st;
        log := log st
               ++ [EPrint ("Input folder does not exist: " ++ input_folder)] |})
  /\ 1 <> 0
  /\ is_Exception (SystemExit 1) = false
  /\ touched (log (snd (convert_folder fuel input_folder output_folder
                          output_ext recursive overwrite quiet archive_folder
                          st)))
     = touched (log st)
  /\ spawned (log (snd (convert_folder fuel input_folder output_folder
                          output_ext recursive overwrite quiet archive_folder
                          st)))
     = spawned (log st)
  /\ probed (log (snd (convert_folder fuel input_folder output_folder
                         output_ext recursive overwrite quiet archive_folder
                         st)))
     = probed (log st).
Proof.
  intros Hdir.
  assert (E : convert_folder fuel input_folder output_folder output_ext
                recursive overwrite quiet archive_folder st
              = (Raised (SystemExit 1),
                 {| now := now st;
                    log := log st
                           ++ [EPrint ("Input folder does not exist: "
                                       ++ input_folder)] |})).
  { unfold convert_folder. unfold bind at 1. unfold ask at 1.
    rewrite Hdir. reflexivity. }
  rewrite E. simpl. unfold touched, spawned, probed.
  rewrite filter_app, !flat_map_app. simpl. rewrite !app_nil_r.
  repeat split; [discriminate].
Qed.

(** C3.  In the loop of [convert_folder], the source path is appended to
    the converted list when, and only when, the call of [convert_media]
    for that file has returned, whatever that call has done; so, the tools
    being found, the list at the end of the loop holds every file yielded
    by the locator exactly once, in the order of the yields: this for the
    loop over one listing and for the whole loop, where with recursion
    each directory is listed when the walk reaches it; a loop that comes
    to its end does not depend on the bound of the model.  With an archive
    folder, [convert_folder] then ensures that the folder exists, moves
    every entry of the list to its basename in the archive folder and,
    unless quiet, prints the one-line summary with the number of files in
    decimal digits; without one, nothing is moved. *)
Theorem batch_appends_and_archives (fuel : nat)
  (input_folder output_folder output_ext : string)
  (recursive overwrite quiet : bool) :
  (forall (src : string) (converted_files : list string) (st : state),
      convert_one output_folder output_ext overwrite quiet src
        converted_files st
      = match convert_media src (out_path_of output_folder output_ext src)
                overwrite quiet st with
        | (Returned _, st') => (Returned (converted_files ++ [src])%list, st')
        | (Raised e, st') => (Raised e, st')
        end)
  /\ (tools_found H ->
      forall (candidates converted_files : list string) (st : state),
        fst (convert_each output_folder output_ext overwrite quiet
               candidates converted_files st)
        = Returned (converted_files
                    ++ yielded_files output_folder output_ext overwrite
                         quiet candidates st)%list)
  /\ (tools_found H ->
      forall st : state,
        run_ends fuel input_folder output_folder output_ext recursive
          overwrite quiet st = true ->
        fst (convert_all fuel input_folder output_folder output_ext
               recursive overwrite quiet st)
        = Returned (yielded_files output_folder output_ext overwrite quiet
                      (run_candidates fuel input_folder output_folder
                         output_ext recursive overwrite quiet st)
                      st))
  /\ (forall (fuel' : nat) (st : state),
         run_ends fuel input_folder output_folder output_ext recursive
           overwrite quiet st = true ->
         (fuel <= fuel')%nat ->
         convert_all fuel' input_folder output_folder output_ext recursive
           overwrite quiet st
         = convert_all fuel input_folder output_folder output_ext recursive
             overwrite quiet st)
  /\ (forall (archive_folder : string) (converted_files : list string)
             (st : state),
         archive_originals (Some archive_folder) quiet converted_files st
         = (Returned tt,
            {| now := archive_world archive_folder converted_files
                        (os_makedirs (now st) archive_folder);
               log := log st
                      ++ EMakedirs archive_folder
                         :: map (fun src =>
                                   EMove src
                                     (join archive_folder (basename src)))
                              converted_files
                         ++ (if quiet then []
                             else [EPrint
                                     ("Moved "
                                      ++ str_of_nat (length converted_files)
                                      ++ " file(s) to archive: "
                                      ++ archive_folder)]) |}))
  /\ (forall n : nat, PyNum.py_int (str_of_nat n) = Some (Z.of_nat n))
  /\ (forall (converted_files : list string) (st : state),
         archive_originals None quiet converted_files st = (Returned tt, st))
  /\ (tools_found H ->
      forall (archive_folder : option string) (st : state),
        os_path_isdir (now st) input_folder = true ->
        run_ends fuel input_folder output_folder output_ext recursive
          overwrite quiet (loop_start output_folder st) = true ->
        convert_folder fuel input_folder output_folder output_ext recursive
          overwrite quiet archive_folder st
        = archive_originals archive_folder quiet
            (yielded_files output_folder output_ext overwrite quiet
               (run_candidates fuel input_folder output_folder output_ext
                  recursive overwrite quiet (loop_start output_folder st))
               (loop_start output_folder st))
            (snd (convert_each output_folder output_ext overwrite quiet
                    (run_candidates fuel input_folder output_folder
                       output_ext recursive overwrite quiet
                       (loop_start output_folder st))
                    [] (loop_start output_folder st)))).
Proof.
  split; [intros; apply convert_one_spec|].
  split; [intros Htools candidates converted_files st;
          apply convert_each_yields; exact Htools|].
  split.
  { intros Htools st Hends.
    rewrite (convert_all_run output_folder output_ext overwrite quiet
               input_folder recursive fuel st Hends).
    apply (convert_each_yields output_folder output_ext overwrite quiet
             _ [] st Htools). }
  split.
  { intros fuel' st Hends Hle.
    apply (convert_all_more output_folder output_ext overwrite quiet
             input_folder recursive fuel fuel' st Hends Hle). }
  split; [intros; apply archive_originals_spec|].
  split; [exact py_int_str_of_nat|].
  split; [reflexivity|].
  intros Htools archive_folder st Hdir Hends.
  apply convert_folder_run; assumption.
Qed.


End BatchClaims.

Lemma studio_tools_found : tools_found (Sim.host Sim.studio).
Proof. intros w. split; reflexivity. Qed.

Lemma missing_input_folder_exits_witness :
  @convert_folder (Sim.host Sim.studio) 8 "nowhere" "out" ".wav"
    true true false (Some "arch") (Sim.boot Sim.studio Sim.disk)
  = (Raised (SystemExit 1),
     Sim.frame Sim.studio Sim.disk
       [EPrint "Input folder does not exist: nowhere"]).
Proof.
  apply (@missing_input_folder_exits (Sim.host Sim.studio) 8 "nowhere" "out"
           ".wav" true true false (Some "arch")
           (Sim.boot Sim.studio Sim.disk)).
  reflexivity.
Defined.

Lemma batch_appends_and_archives_witness :
  fst (@convert_each (Sim.host Sim.studio) "out" ".wav" false false
         ["in/A.wav"; "in/B.txt"] [] (Sim.boot Sim.studio Sim.disk))
  = Returned ["in/A.wav"]
  /\ fst (@convert_all (Sim.host Sim.studio) 8 "in" "in/out" ".mp3"
            true false false
            (loop_start "in/out" (Sim.boot Sim.studio Sim.nested)))
     = Returned ["in/A.wav"; "in/out/A.mp3"]
  /\ log (snd (@convert_folder (Sim.host Sim.studio) 8 "in" "in/out" ".mp3"
                 true false false (Some "arch")
                 (Sim.boot Sim.studio Sim.nested)))
     = [EMakedirs "in/out";
        ERun (ffprobe_command "in/A.wav");
        EPopen (ffmpeg_command false "in/A.wav" "in/out/A.mp3");
        ETqdm (FFin 10%Q) "A.wav"; EUpdate (FFin 5%Q); EUpdate (FFin 5%Q);
        EWait; ETqdmClose; EPrint "OK  in/A.wav -> in/out/A.mp3";
        EPrint "Skipping (exists): in/out/A.mp3";
        EMakedirs "arch"; EMove "in/A.wav" "arch/A.wav";
        EMove "in/out/A.mp3" "arch/A.mp3";
        EPrint "Moved 2 file(s) to archive: arch"].
Proof.
  destruct (@batch_appends_and_archives (Sim.host Sim.studio) 8 "in" "in/out"
              ".mp3" true false false)
    as (_ & _ & Hall & _ & _ & _ & _ & Hrun).
  destruct (@batch_appends_and_archives (Sim.host Sim.studio) 8 "in" "out"
              ".wav" false false false)
    as (_ & Hloop & _).
  split; [|split].
  - exact (Hloop studio_tools_found ["in/A.wav"; "in/B.txt"] []
             (Sim.boot Sim.studio Sim.disk)).
  - rewrite (Hall studio_tools_found
               (loop_start "in/out" (Sim.boot Sim.studio Sim.nested)))
      by (vm_compute; reflexivity).
    vm_compute. reflexivity.
  - rewrite (Hrun studio_tools_found (Some "arch")
               (Sim.boot Sim.studio Sim.nested) eq_refl)
      by (vm_compute; reflexivity).
    vm_compute. reflexivity.
Defined.


(** * Further properties of the code *)

(** ** The loop over the progress lines *)

Section LoopFacts.
Import PyStr PyNum.

(** X1.  The lines that follow the one on which the loop stops are never
    consumed: whatever they hold, the progress state is the one reached at
    the stop.  As long as the loop has not stopped, reading goes on from
    the state reached so far, which is all that it remembers. *)
Theorem read_progress_app (duration : pyfloat) (l1 l2 : list string)
  (p p' : progress) (stop : bool) :
  read_progress duration l1 p = (p', stop) ->
  read_progress duration (l1 ++ l2) p
  = if stop then (p', true) else read_progress duration l2 p'.
Proof.
  revert p. induction l1 as [|raw_line rest IH]; intros p Hr; simpl in *.
  - injection Hr as <- <-. reflexivity.
  - destruct (consume_line duration p raw_line) as [p1 stop1].
    destruct stop1.
    + injection Hr as <- <-. reflexivity.
    + apply IH. exact Hr.
Qed.

Lemma read_progress_app_witness :
  read_progress (FFin 10%Q)
    (["out_time_ms=4000000"; "progress=end"] ++ ["out_time_ms=9000000"])
    progress_start
  = ({| last_t := FFin 4%Q; updates := [FFin 4%Q] |}, true).
Proof.
  apply (read_progress_app (FFin 10%Q)
           ["out_time_ms=4000000"; "progress=end"] ["out_time_ms=9000000"]
           progress_start
           {| last_t := FFin 4%Q; updates := [FFin 4%Q] |} true).
  reflexivity.
Defined.

(** X2.  The end of the stream is recognised by a substring test: on a
    line [progress=<value>] the loop stops exactly when [end] occurs
    somewhere in the value, so [progress=pending] stops it as
    [progress=end] does; such a line never moves the bar. *)
Theorem progress_line_stops_on_substring (duration : pyfloat) (p : progress)
  (raw_line value : string) (rest : list string) :
  strip raw_line = "progress=" ++ value ->
  consume_line duration p raw_line = (p, contains "end" value)
  /\ read_progress duration (raw_line :: rest) p
     = if contains "end" value then (p, true)
       else read_progress duration rest p.
Proof.
  intros Hline.
  assert (Hc : consume_line duration p raw_line = (p, contains "end" value)).
  { unfold consume_line. rewrite Hline.
    unfold line_timestamp, is_progress_end, startswith. simpl.
    rewrite prefix_nil. reflexivity. }
  split; [exact Hc|]. simpl. rewrite Hc. reflexivity.
Qed.

Lemma progress_line_stops_on_substring_witness :
  read_progress (FFin 10%Q)
    [("progress=pending" ++ Sim.LF)%string; "out_time_ms=9000000"]
    progress_start
  = (progress_start, true).
Proof.
  apply (progress_line_stops_on_substring (FFin 10%Q) progress_start
           ("progress=pending" ++ Sim.LF)%string "pending"
           ["out_time_ms=9000000"]).
  reflexivity.
Defined.

End LoopFacts.

(** ** The updates of the bar *)

Section UpdateFacts.
Import PyNum.

Variable d : Q.
Hypothesis d_pos : (0 < d)%Q.
Hypothesis d_float : binary64 d = true.

Lemma rise_positive (l q : Q) :
  on_grid l -> on_grid q ->
  (0 <= l)%Q -> (l < q)%Q -> (q <= d)%Q ->
  is_positive (sub (FFin q) (FFin l)).
Proof.
  intros Gl Gq H0 Hlq Hqd.
  destruct (sub_positive d d_pos d_float l q Gl Gq H0 Hlq Hqd)
    as (u & -> & Hu & _).
  exact Hu.
Qed.

Lemma advance_positive (t : option pyfloat) (p : progress) :
  in_step d p ->
  match t with Some t => gridded t | None => True end ->
  Forall is_positive (updates p) ->
  Forall is_positive (updates (advance (FFin d) t p)).
Proof.
  intros (l & Hl & H0 & H1 & G) Ht Hpos.
  destruct t as [t|]; [|exact Hpos]. unfold advance. rewrite Hl.
  destruct (clamp_cases d d_float t l Ht) as [(q & Hq & Hqd & Gq) | Hno];
    [|rewrite Hno; exact Hpos].
  rewrite Hq. unfold gtb.
  destruct (ltb (FFin l) (FFin q)) eqn:E; [|exact Hpos].
  apply ltb_fin in E. simpl. apply Forall_app. split; [exact Hpos|].
  constructor; [|constructor]. apply rise_positive; assumption.
Qed.

Lemma read_progress_positive (stdout_lines : list string) (p : progress) :
  in_step d p -> Forall is_positive (updates p) ->
  Forall is_positive
    (updates (fst (read_progress (FFin d) stdout_lines p))).
Proof.
  revert p. induction stdout_lines as [|raw_line rest IH]; intros p Hp Hpos.
  - exact Hpos.
  - simpl.
    destruct (consume_line_in_step d d_float p raw_line Hp) as [Hp' _].
    assert (Hpos' : Forall is_positive
                      (updates (fst (consume_line (FFin d) p raw_line)))).
    { unfold consume_line.
      destruct (PyStr.is_empty (PyStr.strip raw_line)); [exact Hpos|].
      apply advance_positive; [exact Hp | | exact Hpos].
      destruct (line_timestamp (PyStr.strip raw_line)) as [t|] eqn:E;
        [|exact I].
      exact (line_timestamp_gridded _ _ E). }
    destruct (consume_line (FFin d) p raw_line) as [p' stop].
    simpl in Hp', Hpos'. destruct stop; [exact Hpos' | apply IH; assumption].
Qed.

End UpdateFacts.

(** X3.  For a job whose duration is a positive float, every call of
    [pbar.update], in the loop and at the completion after the exit of the
    process, has a strictly positive argument: the bar is never moved back
    and never updated by zero.  With gradual underflow the difference of
    two distinct floats is never rounded to zero. *)
Theorem bar_updates_are_positive (d : Q) (stdout_lines : list string) :
  (0 < d)%Q -> binary64 d = true ->
  Forall is_positive
    (updates (finish (FFin d)
                (fst (read_progress (FFin d) stdout_lines progress_start)))).
Proof.
  intros Hpos Hfloat.
  pose proof (progress_start_in_step d Hpos) as Hstart.
  pose proof (read_progress_in_step d Hfloat stdout_lines _ Hstart) as Hend.
  pose proof (read_progress_positive d Hpos Hfloat stdout_lines _ Hstart
                (Forall_nil _)) as Hups.
  destruct Hend as (l & Hl & H0 & H1 & G).
  unfold finish. rewrite Hl in *.
  destruct (ltb (FFin l) (FFin d)) eqn:E; [|exact Hups].
  simpl. apply Forall_app. split; [exact Hups|].
  constructor; [|constructor].
  apply ltb_fin in E.
  apply (rise_positive d Hpos Hfloat); try assumption;
    [apply binary64_on_grid; exact Hfloat | apply Qle_refl].
Qed.

Lemma bar_updates_are_positive_witness :
  Forall is_positive
    (updates (finish (FFin 10%Q)
                (fst (read_progress (FFin 10%Q)
                        ["out_time_ms=3000000"; "out_time_ms=2000000";
                         "out_time=00:00:07.5"]
                        progress_start)))).
Proof.
  apply (bar_updates_are_positive 10%Q
           ["out_time_ms=3000000"; "out_time_ms=2000000";
            "out_time=00:00:07.5"]);
    [reflexivity | vm_compute; reflexivity].
Defined.

(** ** The fields of [out_time] *)

Section FieldFacts.
Import PyStr PyNum.

Lemma split_length (c : ascii) (s : string) :
  length (split c s) = S (count_char c s).
Proof.
  induction s as [|x s IH]; simpl; [reflexivity|].
  destruct (Ascii.eqb x c); simpl.
  - rewrite IH. reflexivity.
  - destruct (split c s); simpl in *; [discriminate | exact IH].
Qed.

(** X4.  [_parse_out_time] gives a value only for a line with an [=]
    whose value, once stripped, is not empty and holds exactly two colons:
    a value like [MM:SS] or [D:HH:MM:SS] gives [None], as a line without
    [=] does. *)
Theorem _parse_out_time_needs_three_fields (line : string) (t : pyfloat) :
  _parse_out_time line = Some t ->
  exists key value : string,
    split_first "=" line = Some (key, value)
    /\ is_empty (strip value) = false
    /\ count_char ":" (strip value) = 2%nat.
Proof.
  unfold _parse_out_time. intros Ht.
  destruct (split_first "=" line) as [[key value]|]; [|discriminate].
  exists key, value. split; [reflexivity|].
  destruct (is_empty (strip value)); [discriminate|]. split; [reflexivity|].
  pose proof (split_length ":" (strip value)) as Hlen.
  destruct (split ":" (strip value)) as [|h [|m [|s [|x r]]]];
    try discriminate.
  simpl in Hlen. injection Hlen as <-. reflexivity.
Qed.

Lemma _parse_out_time_needs_three_fields_witness :
  exists key value : string,
    split_first "=" "out_time=00:01:23.500000" = Some (key, value)
    /\ is_empty (strip value) = false
    /\ count_char ":" (strip value) = 2%nat.
Proof.
  apply (_parse_out_time_needs_three_fields "out_time=00:01:23.500000"
           (FFin (167 # 2)%Q)).
  reflexivity.
Defined.

End FieldFacts.

(** ** What one call of [convert_media] does to the outside *)

Section CallFacts.
Context {H : Host}.

#[local] Hint Resolve logs_only_ret logs_only_raise logs_only_ask
  logs_only_emit_all logs_only_emit logs_only_bind : effects.


Lemma spawned_app (a b : list event) :
  spawned (a ++ b) = (spawned a ++ spawned b)%list.
Proof. apply flat_map_app. Qed.

Lemma probed_app (a b : list event) :
  probed (a ++ b) = (probed a ++ probed b)%list.
Proof. apply flat_map_app. Qed.

Lemma touched_app (a b : list event) :
  touched (a ++ b) = (touched a ++ touched b)%list.
Proof. apply filter_app. Qed.


Lemma harmless_touches_nothing (evs : list event) :
  forallb is_harmless evs = true -> touched evs = [].
Proof.
  induction evs as [|e evs IH]; simpl; [reflexivity|].
  intros E. apply andb_prop in E as [E1 E2].
  destruct e; try discriminate; simpl; auto.
Qed.

(** Events of display are neither spawns nor probes nor commands on the
    file system. *)
Lemma display_facts (evs : list event) :
  forallb is_display evs = true ->
  spawned evs = [] /\ probed evs = [] /\ forallb is_harmless evs = true.
Proof.
  induction evs as [|e evs IH]; simpl; [auto|].
  intros E. apply andb_prop in E as [E1 E2].
  destruct (IH E2) as (S & P & T).
  destruct e; try discriminate; simpl; auto.
Qed.





End CallFacts.

Section CallClaims.
Context {H : Host}.
Import PyStr.



(** The shape of a call: it only adds to the log, nothing that touches
    the file system; either it leaves the world alone, having run no
    process, or it has run the probe and spawned the transcode process
    once, and the world is the one that this process leaves. *)
Lemma convert_media_shape (i o : string) (ov q : bool) (st : state) :
  exists evs : list event,
    log (snd (convert_media i o ov q st)) = (log st ++ evs)%list
    /\ forallb is_harmless evs = true
    /\ ((now (snd (convert_media i o ov q st)) = now st
         /\ spawned evs = [] /\ probed evs = [])
        \/ (fst (convert_media i o ov q st) = Returned tt
            /\ now (snd (convert_media i o ov q st))
               = snd (subprocess_Popen (now st) (ffmpeg_command ov i o))
            /\ spawned evs = [ffmpeg_command ov i o]
            /\ probed evs = [ffprobe_command i])).
Proof.
  destruct (shutil_which (now st) "ffmpeg") eqn:H1;
    [destruct (shutil_which (now st) "ffprobe") eqn:H2|].
  - rewrite (convert_media_found i o ov q st H1 H2).
    destruct (os_path_exists (now st) o && negb ov).
    + destruct q; simpl.
      * exists []. rewrite app_nil_r.
        split; [reflexivity|]. split; [reflexivity|]. left. auto.
      * eexists. split; [reflexivity|]. split; [reflexivity|]. left. auto.
    + unfold bind at 1.
      unfold get_media_duration, bind, emit, ask, ret. simpl.
      match goal with
      | |- context [launch ?d ov q i o ?st0] =>
          destruct (launch_effects d ov q i o st0) as (evs & E & O)
      end.
      rewrite E. simpl. rewrite <- app_assoc. eexists.
      split; [reflexivity|].
      destruct (display_facts evs O) as (S & P & T). simpl.
      rewrite S, P, T. split; [reflexivity|]. right. auto.
  - rewrite (convert_media_no_ffprobe i o ov q st H1 H2).
    exists []. simpl. rewrite app_nil_r.
    split; [reflexivity|]. split; [reflexivity|]. left. auto.
  - rewrite (convert_media_no_ffmpeg i o ov q st H1).
    exists []. simpl. rewrite app_nil_r.
    split; [reflexivity|]. split; [reflexivity|]. left. auto.
Qed.

(** X6.  A call of [convert_media] never creates a directory and never
    moves a file, and it runs at most one probe and spawns at most one
    process: either no process is run and the world is left as it was, or
    the probe is run and the transcode process is spawned once with the
    command of the call, and the change of the world is the one of this
    process. *)
Theorem convert_media_touches_nothing (i o : string) (ov q : bool)
  (st : state) :
  exists evs : list event,
    log (snd (convert_media i o ov q st)) = (log st ++ evs)%list
    /\ touched evs = []
    /\ ((now (snd (convert_media i o ov q st)) = now st
         /\ spawned evs = [] /\ probed evs = [])
        \/ (now (snd (convert_media i o ov q st))
            = snd (subprocess_Popen (now st) (ffmpeg_command ov i o))
            /\ spawned evs = [ffmpeg_command ov i o]
            /\ probed evs = [ffprobe_command i])).
Proof.
  destruct (convert_media_shape i o ov q st) as (evs & E & T & W).
  exists evs. split; [exact E|].
  split; [apply harmless_touches_nothing; exact T|].
  destruct W as [W | (_ & W)]; [left | right]; exact W.
Qed.

End CallClaims.


(** ** What a batch does to the outside *)

Section RunFacts.
Context {H : Host}.

Variables output_folder output_ext : string.
Variables overwrite quiet : bool.

(** With [overwrite=True] and the tools found, a call probes and
    spawns. *)
Lemma convert_media_overwrites (i o : string) (st : state) :
  shutil_which (now st) "ffmpeg" = true ->
  shutil_which (now st) "ffprobe" = true ->
  exists evs : list event,
    convert_media i o true quiet st
    = (Returned tt,
       {| now := snd (subprocess_Popen (now st) (ffmpeg_command true i o));
          log := log st
                 ++ ERun (ffprobe_command i)
                    :: EPopen (ffmpeg_command true i o) :: evs |})
    /\ forallb is_display evs = true.
Proof.
  intros H1 H2. rewrite (convert_media_found i o true quiet st H1 H2).
  rewrite andb_false_r. unfold bind at 1.
  unfold get_media_duration, bind, emit, ask, ret. simpl.
  match goal with
  | |- context [launch ?d true quiet i o ?st0] =>
      destruct (launch_effects d true quiet i o st0) as (evs & E & O);
      rewrite E
  end.
  simpl. exists evs. rewrite <- app_assoc. auto.
Qed.

Lemma convert_each_harmless (candidates acc : list string) (st : state) :
  exists evs : list event,
    log (snd (convert_each output_folder output_ext overwrite quiet
                candidates acc st))
    = (log st ++ evs)%list
    /\ forallb is_harmless evs = true.
Proof.
  revert acc st. induction candidates as [|full rest IH]; intros acc st.
  - exists []. simpl. rewrite app_nil_r. auto.
  - rewrite convert_each_cons.
    destruct (is_media_file (now st) full); [|apply IH].
    destruct (convert_media_shape full
                (out_path_of output_folder output_ext full)
                overwrite quiet st) as (e1 & E1 & T1 & _).
    destruct (convert_media full _ overwrite quiet st) as [[[]|e] st1];
      simpl in E1.
    + destruct (IH (acc ++ [full])%list st1) as (e2 & E2 & T2).
      exists (e1 ++ e2)%list. rewrite E2, E1, <- app_assoc, forallb_app, T1, T2.
      auto.
    + exists e1. simpl. auto.
Qed.

(** Stable candidates: the regular files among [all] are the same before
    and after each transcode process that the loop can spawn. *)
Lemma yielded_files_static (all candidates : list string) (st : state) :
  (forall (w : world) (src full : string),
      In src all -> In full all ->
      os_path_isfile
        (snd (subprocess_Popen w
                (ffmpeg_command overwrite src
                   (out_path_of output_folder output_ext src))))
        full
      = os_path_isfile w full) ->
  incl candidates all ->
  yielded_files output_folder output_ext overwrite quiet candidates st
  = filter (is_media_file (now st)) candidates.
Proof.
  intros Hstable. revert st.
  induction candidates as [|full rest IH]; intros st Hincl; [reflexivity|].
  assert (Hrest : incl rest all).
  { intros x Hx. apply Hincl. right. exact Hx. }
  simpl. destruct (is_media_file (now st) full); [|apply IH; exact Hrest].
  f_equal. rewrite (IH _ Hrest). apply filter_ext_in. intros x Hx.
  destruct (convert_media_shape full
              (out_path_of output_folder output_ext full) overwrite quiet st)
    as (evs & _ & _ & [(W & _) | (_ & W & _)]); rewrite W; [reflexivity|].
  unfold is_media_file. rewrite Hstable; [reflexivity | |].
  - apply Hincl. left. reflexivity.
  - apply Hrest. exact Hx.
Qed.

Lemma convert_each_overwrite (candidates acc : list string) (st : state) :
  tools_found H -> overwrite = true ->
  spawned (log (snd (convert_each output_folder output_ext overwrite quiet
                       candidates acc st)))
  = (spawned (log st)
     ++ map (fun src =>
               ffmpeg_command true src
                 (out_path_of output_folder output_ext src))
          (yielded_files output_folder output_ext overwrite quiet
             candidates st))%list
  /\ probed (log (snd (convert_each output_folder output_ext overwrite quiet
                         candidates acc st)))
     = (probed (log st)
        ++ map ffprobe_command
             (yielded_files output_folder output_ext overwrite quiet
                candidates st))%list.
Proof.
  intros Htools ->. revert acc st.
  induction candidates as [|full rest IH]; intros acc st.
  - simpl. rewrite !app_nil_r. auto.
  - rewrite convert_each_cons. cbn [yielded_files].
    destruct (is_media_file (now st) full); [|apply IH].
    destruct (Htools (now st)) as [H1 H2].
    destruct (convert_media_overwrites full
                (out_path_of output_folder output_ext full) st H1 H2)
      as (evs & E & O).
    rewrite E. cbn [snd]. destruct (display_facts evs O) as (S & P & _).
    destruct (IH (acc ++ [full])%list
                {| now := snd (subprocess_Popen (now st)
                                 (ffmpeg_command true full
                                    (out_path_of output_folder output_ext
                                       full)));
                   log := log st
                          ++ ERun (ffprobe_command full)
                             :: EPopen
                                  (ffmpeg_command true full
                                     (out_path_of output_folder output_ext
                                        full))
                             :: evs |}) as [IS IP].
    rewrite IS, IP. cbn [log]. rewrite spawned_app, probed_app. simpl.
    rewrite S, P, <- !app_assoc. auto.
Qed.

End RunFacts.

Section RunClaims.
Context {H : Host}.

Lemma archive_step_quiet_on_processes (archive_folder : option string)
  (quiet : bool) (converted_files : list string) (st : state) :
  spawned (log (snd (archive_originals archive_folder quiet converted_files
                       st)))
  = spawned (log st)
  /\ probed (log (snd (archive_originals archive_folder quiet converted_files
                         st)))
     = probed (log st).
Proof.
  destruct archive_folder as [a|]; [|auto].
  rewrite archive_originals_spec. cbn [snd log].
  assert (Hmoves : spawned (archive_moves a converted_files) = []
                   /\ probed (archive_moves a converted_files) = []).
  { unfold archive_moves.
    induction converted_files as [|src rest IH]; simpl; auto. }
  destruct Hmoves as [S P].
  rewrite spawned_app, probed_app. simpl.
  rewrite spawned_app, probed_app, S, P.
  unfold archive_summary. destruct quiet; simpl; rewrite !app_nil_r; auto.
Qed.

(** X7.  With [overwrite=True] and the tools found, a run of
    [convert_folder] on an existing folder whose enumeration comes to
    its end probes and then spawns the transcode process exactly once for
    every file of the converted list, which holds the files that the
    locator has yielded in the order of the yields: the probe on the
    source, and [ffmpeg] with [-y] on the source and its target; the
    archive step runs no process. *)
Theorem overwrite_run_spawns_once_per_file (fuel : nat)
  (input_folder output_folder output_ext : string) (recursive quiet : bool)
  (archive_folder : option string) (st : state) :
  tools_found H ->
  os_path_isdir (now st) input_folder = true ->
  run_ends fuel input_folder output_folder output_ext recursive true quiet
    (loop_start output_folder st) = true ->
  exists converted_files : list string,
    fst (convert_all fuel input_folder output_folder output_ext recursive
           true quiet (loop_start output_folder st))
    = Returned converted_files
    /\ converted_files
       = yielded_files output_folder output_ext true quiet
           (run_candidates fuel input_folder output_folder output_ext
              recursive true quiet (loop_start output_folder st))
           (loop_start output_folder st)
    /\ spawned (log (snd (convert_folder fuel input_folder output_folder
                            output_ext recursive true quiet archive_folder
                            st)))
       = (spawned (log st)
          ++ map (fun src =>
                    ["ffmpeg"; "-hide_banner"; "-loglevel"; "error";
                     "-progress"; "pipe:1"; "-nostats"; "-y"; "-i"; src;
                     OsPath.join output_folder
                       (OsPath.splitext_root (OsPath.basename src)
                        ++ output_ext)])
               converted_files)%list
    /\ probed (log (snd (convert_folder fuel input_folder output_folder
                           output_ext recursive true quiet archive_folder
                           st)))
       = (probed (log st)
          ++ map (fun src =>
                    ["ffprobe"; "-v"; "error"; "-show_entries";
                     "format=duration"; "-of";
                     "default=noprint_wrappers=1:nokey=1"; src])
               converted_files)%list.
Proof.
  intros Htools Hdir Hends.
  set (st0 := loop_start output_folder st) in *.
  set (candidates := run_candidates fuel input_folder output_folder
                       output_ext recursive true quiet st0).
  exists (yielded_files output_folder output_ext true quiet candidates st0).
  split.
  { rewrite (convert_all_run output_folder output_ext true quiet
               input_folder recursive fuel st0 Hends).
    apply (convert_each_yields output_folder output_ext true quiet
             candidates [] st0 Htools). }
  split; [reflexivity|].
  rewrite (convert_folder_run fuel input_folder output_folder output_ext
             recursive true quiet archive_folder st Htools Hdir Hends).
  fold st0. fold candidates.
  destruct (archive_step_quiet_on_processes archive_folder quiet
              (yielded_files output_folder output_ext true quiet candidates
                 st0)
              (snd (convert_each output_folder output_ext true quiet
                      candidates [] st0)))
    as [-> ->].
  destruct (convert_each_overwrite output_folder output_ext true quiet
              candidates [] st0 Htools eq_refl) as [-> ->].
  unfold st0, loop_start. cbn [log].
  rewrite spawned_app, probed_app. simpl.
  rewrite !app_nil_r. auto.
Qed.

(** X8.  Without recursion, when the transcode processes of a run do
    not change which of the entries listed at the start of the loop are
    regular files, the files that the lazy loop of [convert_folder]
    yields are those of [list(iter_media_files(input_folder))] taken when
    the loop starts; the tools being found, the loop ends with this list
    as the converted list. *)
Theorem lazy_loop_yields_iter_media_files (fuel : nat)
  (input_folder output_folder output_ext : string)
  (overwrite quiet : bool) (st : state) :
  (forall (w : world) (src full : string),
      In src (os_listdir (now st) input_folder) ->
      In full (os_listdir (now st) input_folder) ->
      os_path_isfile
        (snd (subprocess_Popen w
                (ffmpeg_command overwrite (OsPath.join input_folder src)
                   (out_path_of output_folder output_ext
                      (OsPath.join input_folder src)))))
        (OsPath.join input_folder full)
      = os_path_isfile w (OsPath.join input_folder full)) ->
  iter_media_files fuel (now st) input_folder false
  = Some (yielded_files output_folder output_ext overwrite quiet
            (run_candidates fuel input_folder output_folder output_ext false
               overwrite quiet st)
            st)
  /\ (tools_found H ->
      option_map Returned (iter_media_files fuel (now st) input_folder false)
      = Some (fst (convert_all fuel input_folder output_folder output_ext
                     false overwrite quiet st))).
Proof.
  intros Hstable.
  set (candidates := map (OsPath.join input_folder)
                       (os_listdir (now st) input_folder)).
  assert (Hy : yielded_files output_folder output_ext overwrite quiet
                 candidates st
               = filter (is_media_file (now st)) candidates).
  { apply (yielded_files_static output_folder output_ext overwrite quiet
             candidates); [|apply incl_refl].
    intros w src full Hsrc Hfull. unfold candidates in Hsrc, Hfull.
    apply in_map_iff in Hsrc as (a & <- & Ha).
    apply in_map_iff in Hfull as (b & <- & Hb).
    apply Hstable; assumption. }
  assert (Hi : iter_media_files fuel (now st) input_folder false
               = Some (yielded_files output_folder output_ext overwrite quiet
                         candidates st)).
  { rewrite Hy. reflexivity. }
  split; [exact Hi|]. intros Htools. rewrite Hi. simpl. f_equal.
  symmetry.
  apply (convert_each_yields output_folder output_ext overwrite quiet
           candidates [] st Htools).
Qed.

(** The commands on the file system of a run without an archive folder. *)
Lemma convert_folder_without_archive (fuel : nat)
  (input_folder output_folder output_ext : string)
  (recursive overwrite quiet : bool) (st : state) :
  touched (log (snd (convert_folder fuel input_folder output_folder
                       output_ext recursive overwrite quiet None st)))
  = (touched (log st)
     ++ (if os_path_isdir (now st) input_folder
         then [EMakedirs output_folder]
         else []))%list.
Proof.
  destruct (os_path_isdir (now st) input_folder) eqn:Hdir.
  - destruct (convert_folder_state fuel input_folder output_folder
                output_ext recursive overwrite quiet None st Hdir)
      as (r & st1 & S & E).
    assert (E' : snd (convert_folder fuel input_folder output_folder
                        output_ext recursive overwrite quiet None st) = st1)
      by (rewrite E; destruct r; reflexivity).
    rewrite E', S.
    destruct (convert_each_harmless output_folder output_ext overwrite quiet
                (run_candidates fuel input_folder output_folder output_ext
                   recursive overwrite quiet (loop_start output_folder st))
                [] (loop_start output_folder st))
      as (evs & L & T).
    rewrite L. unfold loop_start. cbn [log].
    rewrite !touched_app, (harmless_touches_nothing evs T). simpl.
    rewrite app_nil_r. reflexivity.
  - unfold convert_folder. unfold bind at 1. unfold ask at 1.
    rewrite Hdir. simpl. rewrite touched_app. reflexivity.
Qed.

(** X9.  Without an archive folder, the only command of a run of
    [convert_folder] on the file system is the creation of the output
    folder: no file is moved, and nothing else is created, whether the
    tools are found or not, and whether the walk comes to its end or
    not; and when the input folder does not exist, not even that. *)
Theorem run_without_archive_moves_nothing (fuel : nat)
  (input_folder output_folder output_ext : string)
  (recursive overwrite quiet : bool) (st : state) :
  touched (log (snd (convert_folder fuel input_folder output_folder
                       output_ext recursive overwrite quiet None st)))
  = (touched (log st)
     ++ (if os_path_isdir (now st) input_folder
         then [EMakedirs output_folder]
         else []))%list.
Proof.
  apply convert_folder_without_archive.
Qed.

End RunClaims.

Lemma overwrite_run_spawns_once_per_file_witness :
  spawned (log (snd (@convert_folder (Sim.host Sim.studio) 8 "in" "in/out"
                       ".mp3" true true false None
                       (Sim.boot Sim.studio Sim.nested))))
  = [["ffmpeg"; "-hide_banner"; "-loglevel"; "error"; "-progress"; "pipe:1";
      "-nostats"; "-y"; "-i"; "in/A.wav"; "in/out/A.mp3"];
     ["ffmpeg"; "-hide_banner"; "-loglevel"; "error"; "-progress"; "pipe:1";
      "-nostats"; "-y"; "-i"; "in/out/A.mp3"; "in/out/A.mp3"]].
Proof.
  destruct (@overwrite_run_spawns_once_per_file (Sim.host Sim.studio) 8
              "in" "in/out" ".mp3" true false None
              (Sim.boot Sim.studio Sim.nested) studio_tools_found eq_refl)
    as (converted_files & _ & C & S & _); [vm_compute; reflexivity|].
  rewrite S, C. vm_compute. reflexivity.
Defined.

Lemma lazy_loop_yields_iter_media_files_witness :
  @iter_media_files (Sim.host Sim.studio) 8 Sim.disk "in" false
  = Some (@yielded_files (Sim.host Sim.studio) "out" ".wav" false false
            ["in/A.wav"; "in/B.txt"] (Sim.boot Sim.studio Sim.disk)).
Proof.
  apply (@lazy_loop_yields_iter_media_files (Sim.host Sim.studio) 8
           "in" "out" ".wav" false false (Sim.boot Sim.studio Sim.disk)).
  intros w src full Hsrc Hfull. simpl in Hsrc, Hfull. simpl.
  unfold Sim.spawn. simpl.
  destruct Hsrc as [<- | [<- | []]]; destruct Hfull as [<- | [<- | []]];
    simpl;
    match goal with
    | |- context [negb (Sim.mem ?p (Sim.files w))] =>
        destruct (Sim.mem p (Sim.files w))
    end; simpl; try reflexivity;
    unfold Sim.mem; rewrite existsb_app; simpl; rewrite !orb_false_r;
    reflexivity.
Defined.

(** ** The name of the target *)

Section NameFacts.
Import PyStr OsPath.

Lemma has_char_app (c : ascii) (a b : string) :
  has_char c (a ++ b) = has_char c a || has_char c b.
Proof.
  induction a as [|x a IH]; simpl; [reflexivity|].
  rewrite IH. apply orb_assoc.
Qed.

Lemma startswith_slash (name : string) :
  has_char "/" name = false -> startswith name "/" = false.
Proof.
  unfold startswith. destruct name as [|c r]; [reflexivity|].
  cbn [has_char String.prefix].
  intros Hn. apply orb_false_elim in Hn as [Hc _].
  destruct (ascii_dec "/" c) as [<-|]; [|reflexivity].
  rewrite Ascii.eqb_refl in Hc. discriminate.
Qed.

Lemma basename_plain (name : string) :
  has_char "/" name = false -> basename name = name.
Proof.
  destruct name as [|c r]; simpl; [reflexivity|].
  intros Hn. apply orb_false_elim in Hn as [Hc Hr]. rewrite Hr, Hc.
  reflexivity.
Qed.

Lemma basename_after_slash (x name : string) :
  has_char "/" name = false -> basename (x ++ String "/" name) = name.
Proof.
  intros Hn. induction x as [|c x IH]; simpl.
  - rewrite Hn. reflexivity.
  - rewrite has_char_app. simpl. rewrite orb_true_r. exact IH.
Qed.

(** The basename of a joined path is the name that was joined. *)
Lemma basename_join (dir name : string) :
  has_char "/" name = false -> basename (join dir name) = name.
Proof.
  intros Hn. unfold join. rewrite (startswith_slash name Hn).
  destruct (is_empty dir || endswith dir "/") eqn:E.
  - apply orb_prop in E as [E|E].
    + destruct dir; [|discriminate]. apply basename_plain. exact Hn.
    + destruct (endswith_slash dir E) as (dir' & ->).
      rewrite append_assoc. apply basename_after_slash. exact Hn.
  - apply basename_after_slash. exact Hn.
Qed.

Lemma rfind_from_none (i : nat) (c : ascii) (s : string) :
  has_char c s = false -> rfind_from i c s = None.
Proof.
  revert i. induction s as [|x s IH]; intros i; simpl; [reflexivity|].
  intros Hs. apply orb_false_elim in Hs as [Hx Hs].
  rewrite (IH (S i) Hs), Hx. reflexivity.
Qed.

Lemma rfind_from_last (i : nat) (c : ascii) (x y : string) :
  has_char c y = false ->
  rfind_from i c (x ++ String c y) = Some (i + String.length x)%nat.
Proof.
  intros Hy. revert i. induction x as [|a x IH]; intros i; simpl.
  - rewrite (rfind_from_none (S i) c y Hy), Ascii.eqb_refl, Nat.add_0_r.
    reflexivity.
  - rewrite (IH (S i)). f_equal. lia.
Qed.

Lemma substring_head (x y : string) :
  substring 0 (String.length x) (x ++ y) = x.
Proof.
  induction x as [|a x IH]; simpl.
  - destruct y; reflexivity.
  - rewrite IH. reflexivity.
Qed.

(** The stem of [stem.ext]. *)
Lemma splitext_root_stem (stem ext : string) :
  has_char "/" stem = false -> has_char "/" ext = false ->
  has_char "." ext = false -> all_dots stem = false ->
  splitext_root (stem ++ "." ++ ext) = stem.
Proof.
  intros Hs He Hd Hdots. unfold splitext_root, rfind.
  change (stem ++ "." ++ ext) with (stem ++ String "." ext).
  rewrite (rfind_from_last 0 "." stem ext Hd).
  rewrite rfind_from_none.
  - simpl. rewrite Nat.sub_0_r, substring_head, Hdots. reflexivity.
  - rewrite has_char_app. simpl. rewrite Hs, He. reflexivity.
Qed.

(** A name that is a dot and an extension has no extension to split. *)
Lemma splitext_root_hidden (ext : string) :
  has_char "/" ext = false -> has_char "." ext = false ->
  splitext_root ("." ++ ext) = "." ++ ext.
Proof.
  intros He Hd. unfold splitext_root, rfind.
  change ("." ++ ext) with (EmptyString ++ String "." ext).
  rewrite (rfind_from_last 0 "." EmptyString ext Hd).
  rewrite rfind_from_none; [reflexivity|].
  simpl. exact He.
Qed.

(** X10.  The target of the source [dir/STEM.EXT] is
    [output_folder/STEM] followed by [output_ext], whatever the folder of
    the source: two sources with the same stem have the same target.  A
    source whose name is only a dot and an extension, like [.wav], keeps
    its whole name as the stem. *)
Theorem target_of_source
  (output_folder output_ext dir stem ext : string) :
  has_char "/" stem = false -> has_char "/" ext = false ->
  has_char "." ext = false ->
  (all_dots stem = false ->
   out_path_of output_folder output_ext (join dir (stem ++ "." ++ ext))
   = join output_folder (stem ++ output_ext))
  /\ out_path_of output_folder output_ext (join dir ("." ++ ext))
     = join output_folder (("." ++ ext) ++ output_ext).
Proof.
  intros Hs He Hd. unfold out_path_of. split.
  - intros Hdots. rewrite basename_join.
    + rewrite (splitext_root_stem stem ext Hs He Hd Hdots). reflexivity.
    + rewrite has_char_app. simpl. rewrite Hs, He. reflexivity.
  - rewrite basename_join.
    + rewrite (splitext_root_hidden ext He Hd). reflexivity.
    + simpl. exact He.
Qed.

Lemma target_of_source_witness :
  out_path_of "out" ".mp3" (join "in/2024" ("take.1" ++ "." ++ "WAV"))
  = join "out" ("take.1" ++ ".mp3")
  /\ out_path_of "out" ".mp3" (join "in" ("." ++ "wav"))
     = join "out" (("." ++ "wav") ++ ".mp3").
Proof.
  destruct (target_of_source "out" ".mp3" "in/2024" "take.1" "WAV"
              eq_refl eq_refl eq_refl) as [Hstem _].
  destruct (target_of_source "out" ".mp3" "in" "take.1" "wav"
              eq_refl eq_refl eq_refl) as [_ Hhidden].
  split; [apply Hstem; reflexivity | exact Hhidden].
Defined.

End NameFacts.

(** ** The config file *)

Section ConfigFacts.

Lemma dict_get_set_same {V : Type} (d : dict V) (key : string) (v : V) :
  dict_get (dict_set d key v) key = Some v.
Proof.
  induction d as [|[k x] d IH]; simpl.
  - rewrite String.eqb_refl. reflexivity.
  - destruct (String.eqb k key) eqn:E; simpl; rewrite E; auto.
Qed.

Lemma dict_get_set_other {V : Type} (d : dict V) (key key' : string) (v : V) :
  key <> key' -> dict_get (dict_set d key v) key' = dict_get d key'.
Proof.
  intros Hne. induction d as [|[k x] d IH]; simpl.
  - destruct (String.eqb key key') eqn:E; [|reflexivity].
    apply String.eqb_eq in E. contradiction.
  - destruct (String.eqb k key) eqn:E; simpl.
    + apply String.eqb_eq in E. subst k.
      destruct (String.eqb key key') eqn:E'; [|reflexivity].
      apply String.eqb_eq in E'. contradiction.
    + destruct (String.eqb k key'); [reflexivity | exact IH].
Qed.

(** One round of the loop of [load_config], seen through [get]. *)
Lemma normalise_key_get (cfg : dict pyval) (out : dict (option string))
  (k key : string) :
  dict_get (normalise_key cfg out k) key
  = if String.eqb k key
    then match normal_value (dict_get cfg k) with
         | Some val => Some val
         | None => dict_get out key
         end
    else dict_get out key.
Proof.
  unfold normalise_key.
  destruct (String.eqb k key) eqn:E.
  - apply String.eqb_eq in E. subst key.
    destruct (normal_value (dict_get cfg k)); [|reflexivity].
    apply dict_get_set_same.
  - destruct (normal_value (dict_get cfg k)); [|reflexivity].
    apply dict_get_set_other. intros ->. rewrite String.eqb_refl in E.
    discriminate.
Qed.

(** X11.  [load_config] returns unless the file cannot be opened or
    read for another reason than its absence: that error reaches the
    caller.  A missing file, a text that is not JSON and a document that
    is not an object give the empty dict.  For an object, the result
    holds the three keys [input_folder], [output_folder] and [archive]
    and no other: a key whose value is a string has this string, a key
    that is null or absent has [None], and a key with a value of another
    type is left out. *)
Theorem load_config_normalises :
  load_config NoFile = Returned []
  /\ load_config NotJson = Returned []
  /\ (forall msg : string,
         load_config (Unreadable msg) = Raised (ExternalError msg))
  /\ (forall v : pyval,
         (forall cfg, v <> PDict cfg) -> load_config (Document v) = Returned [])
  /\ (forall cfg : dict pyval,
         exists config : dict (option string),
           load_config (Document (PDict cfg)) = Returned config
           /\ (forall key : string,
                  In key ["input_folder"; "output_folder"; "archive"] ->
                  dict_get config key
                  = match dict_get cfg key with
                    | None => Some None
                    | Some PNone => Some None
                    | Some (PStr s) => Some (Some s)
                    | Some _ => None
                    end)
           /\ (forall key : string,
                  ~ In key ["input_folder"; "output_folder"; "archive"] ->
                  dict_get config key = None)).
Proof.
  split; [reflexivity|]. split; [reflexivity|]. split; [reflexivity|].
  split.
  { intros v Hv. destruct v as [|b|q|s|l|cfg]; try reflexivity.
    elim (Hv cfg). reflexivity. }
  intros cfg. eexists. split; [reflexivity|].
  unfold config_keys. simpl fold_left. split.
  - intros key [<- | [<- | [<- | []]]];
      rewrite !normalise_key_get; simpl;
      change (fun val => ?f val) with f;
      repeat match goal with
      | |- context [normal_value ?x] =>
          let E := fresh in destruct (normal_value x) eqn:E
      end;
      repeat match goal with
      | E : normal_value ?x = _ |- _ =>
          unfold normal_value in E;
          destruct x as [[| | | | |]|]; try discriminate E;
          try (injection E as <-)
      end; reflexivity.
  - intros key Hkey. rewrite !normalise_key_get.
    assert (H1 : String.eqb "input_folder" key = false).
    { apply String.eqb_neq. intros <-. apply Hkey. simpl. auto. }
    assert (H2 : String.eqb "output_folder" key = false).
    { apply String.eqb_neq. intros <-. apply Hkey. simpl. auto. }
    assert (H3 : String.eqb "archive" key = false).
    { apply String.eqb_neq. intros <-. apply Hkey. simpl. auto. }
    rewrite H1, H2, H3. reflexivity.
Qed.

Lemma load_config_normalises_witness :
  load_config (Document (PList [PStr "in"])) = Returned []
  /\ exists config : dict (option string),
       load_config
         (Document (PDict [("archive", PBool false);
                           ("input_folder", PStr "in");
                           ("theme", PStr "dark")]))
       = Returned config
       /\ dict_get config "archive" = None
       /\ dict_get config "input_folder" = Some (Some "in")
       /\ dict_get config "output_folder" = Some None
       /\ dict_get config "theme" = None.
Proof.
  destruct load_config_normalises as (_ & _ & _ & Hother & Hdict).
  split; [apply Hother; discriminate|].
  destruct (Hdict [("archive", PBool false); ("input_folder", PStr "in");
                   ("theme", PStr "dark")])
    as (config & E & Hkeys & Hrest).
  exists config. split; [exact E|].
  split; [apply (Hkeys "archive"); simpl; auto|].
  split; [apply (Hkeys "input_folder"); simpl; auto|].
  split; [apply (Hkeys "output_folder"); simpl; auto|].
  apply (Hrest "theme"). simpl. intuition discriminate.
Defined.

End ConfigFacts.

(** ** Saved defaults and the command line *)

Section CliFacts.
Context {H : Host}.
Import PyStr.

(** X12.  What [save_config] writes, [load_config] reads back: the
    three folders as they were saved, a disabled archive as [None]. *)
Theorem save_then_load (home i o : string) (a : option string) (d : desk) :
  load_config (settings (save_config home i o a d))
  = Returned [("input_folder", Some i); ("output_folder", Some o);
              ("archive", a)].
Proof. destruct a; reflexivity. Qed.

(** X13.  The defaults of the run that follows a [--save-defaults]: a
    saved folder comes back as the default, but an empty one, and an
    archive saved as disabled, come back as the built-in default; so a
    run with [--no-archive --save-defaults] does not keep later runs from
    archiving, they move the originals to [archived]. *)
Theorem defaults_after_save (home i o : string) (a : option string)
  (d : desk) :
  exists args : Cli.Namespace,
    Cli.parse_args (settings (save_config home i o a d)) = Returned args
    /\ Cli.input_folder args = (if is_empty i then "input_folder" else i)
    /\ Cli.output_folder args
       = (if is_empty o then "output_folder/odpovedi" else o)
    /\ Cli.archive args
       = match a with
         | Some s => if is_empty s then "archived" else s
         | None => "archived"
         end
    /\ Cli.archive_of args = Some (Cli.archive args)
    /\ Cli.format args = "wav".
Proof.
  unfold Cli.parse_args. rewrite save_then_load.
  eexists. split; [reflexivity|]. destruct a; repeat split; reflexivity.
Qed.

End CliFacts.

Section ExtFacts.
Import PyStr.

Lemma lstrip_char_idem (c : ascii) (s : string) :
  lstrip_char c (lstrip_char c s) = lstrip_char c s.
Proof.
  induction s as [|x s IH]; simpl; [reflexivity|].
  destruct (Ascii.eqb x c) eqn:E; [exact IH|]. simpl. rewrite E. reflexivity.
Qed.

Lemma lstrip_char_head (c : ascii) (s : string) :
  startswith (lstrip_char c s) (String c EmptyString) = false.
Proof.
  unfold startswith. induction s as [|x s IH]; simpl; [reflexivity|].
  destruct (Ascii.eqb x c) eqn:E; [exact IH|].
  cbn [String.prefix]. destruct (ascii_dec c x) as [<-|]; [|reflexivity].
  rewrite Ascii.eqb_refl in E. discriminate.
Qed.

(** X14.  The output extension made from [--format] starts with exactly
    one dot: leading dots of the format are dropped, so [mp3], [.mp3] and
    [..mp3] all give [.mp3]; a format without a leading dot is taken as
    it is. *)
Theorem output_ext_has_one_dot (format : string) :
  Cli.output_ext_of ("." ++ format) = Cli.output_ext_of format
  /\ Cli.output_ext_of (Cli.output_ext_of format) = Cli.output_ext_of format
  /\ startswith (Cli.output_ext_of format) "." = true
  /\ startswith (Cli.output_ext_of format) ".." = false
  /\ (startswith format "." = false ->
      Cli.output_ext_of format = "." ++ format).
Proof.
  unfold Cli.output_ext_of. split; [reflexivity|].
  split; [simpl; rewrite lstrip_char_idem; reflexivity|].
  split; [unfold startswith; simpl; apply prefix_nil|].
  split.
  - pose proof (lstrip_char_head "." format) as Hh.
    unfold startswith in *. cbn [append String.prefix].
    destruct (ascii_dec "." ".") as [_|N]; [exact Hh | now elim N].
  - unfold startswith. destruct format as [|x s]; [reflexivity|].
    cbn [String.prefix lstrip_char]. intros Hx.
    destruct (ascii_dec "." x) as [<-|N]; [destruct s; discriminate|].
    destruct (Ascii.eqb x ".") eqn:E; [|reflexivity].
    apply Ascii.eqb_eq in E. subst x. now elim N.
Qed.

Lemma output_ext_has_one_dot_witness :
  Cli.output_ext_of "flac" = "." ++ "flac".
Proof.
  apply (proj2 (proj2 (proj2 (proj2 (output_ext_has_one_dot "flac"))))).
  reflexivity.
Defined.

End ExtFacts.

Section MainFacts.
Context {H : Host}.

(** X15.  With [--no-archive], [main] moves no file: its only commands
    on the file system are the creation of the folder of the config file,
    when the defaults are saved, and of the output folder, when the input
    folder exists; with [--show-defaults] it does neither, whatever the
    other options.  The config file is written only with
    [--save-defaults] and without [--show-defaults]. *)
Theorem main_without_archive (fuel : nat) (home : string)
  (args : Cli.Namespace) (d : desk) :
  Cli.no_archive args = true ->
  touched (log (session (snd (Cli.main fuel home args d))))
  = (touched (log (session d))
     ++ (if Cli.show_defaults args then []
         else
           (if Cli.save_defaults args
            then [EMakedirs (dirname (CONFIG_FILE home))]
            else [])
           ++ (if os_path_isdir
                    (if Cli.save_defaults args
                     then os_makedirs (now (session d))
                            (dirname (CONFIG_FILE home))
                     else now (session d))
                    (Cli.input_folder args)
               then [EMakedirs (Cli.output_folder args)]
               else [])))%list
  /\ settings (snd (Cli.main fuel home args d))
     = if negb (Cli.show_defaults args) && Cli.save_defaults args
       then Document
              (PDict [("input_folder", PStr (Cli.input_folder args));
                      ("output_folder", PStr (Cli.output_folder args));
                      ("archive", PNone)])
       else settings d.
Proof.
  intros Hno. unfold Cli.main, Cli.archive_of. rewrite Hno.
  destruct (Cli.show_defaults args); simpl.
  - rewrite touched_app. simpl. auto.
  - destruct (Cli.save_defaults args); simpl;
      match goal with
      | |- context [convert_folder fuel ?i ?o ?e ?r ?ov ?q None ?st] =>
          pose proof (convert_folder_without_archive fuel i o e r ov q st)
            as T;
          destruct (convert_folder fuel i o e r ov q None st) as [res st']
      end; simpl in *; rewrite T; simpl.
    + rewrite touched_app. simpl. rewrite <- app_assoc. auto.
    + auto.
Qed.

End MainFacts.

Lemma main_without_archive_witness :
  touched
    (log (session
            (snd (@Cli.main (Sim.host Sim.studio) 8 "/home/user"
                    {| Cli.input_folder := "in";
                       Cli.output_folder := "out";
                       Cli.format := "mp3";
                       Cli.archive := "archived";
                       Cli.no_archive := true;
                       Cli.recursive := false;
                       Cli.overwrite := false;
                       Cli.quiet := true;
                       Cli.save_defaults := true;
                       Cli.show_defaults := false |}
                    {| settings := NoFile;
                       session := Sim.boot Sim.studio Sim.disk |}))))
  = [EMakedirs "/home/user"; EMakedirs "out"].
Proof.
  apply (@main_without_archive (Sim.host Sim.studio) 8 "/home/user"
           {| Cli.input_folder := "in";
              Cli.output_folder := "out";
              Cli.format := "mp3";
              Cli.archive := "archived";
              Cli.no_archive := true;
              Cli.recursive := false;
              Cli.overwrite := false;
              Cli.quiet := true;
              Cli.save_defaults := true;
              Cli.show_defaults := false |}
           {| settings := NoFile; session := Sim.boot Sim.studio Sim.disk |}).
  reflexivity.
Defined.

(** ** Processes of a run, whatever the options *)

Section SpawnFacts.
Context {H : Host}.

Variables output_folder output_ext : string.
Variables overwrite quiet : bool.

Lemma convert_each_spawns (candidates acc : list string) (st : state) :
  exists evs : list event,
    log (snd (convert_each output_folder output_ext overwrite quiet
                candidates acc st))
    = (log st ++ evs)%list
    /\ incl (spawned evs)
            (map (fun src =>
                    ffmpeg_command overwrite src
                      (out_path_of output_folder output_ext src))
                 (yielded_files output_folder output_ext overwrite quiet
                    candidates st))
    /\ (length (spawned evs)
        <= length (yielded_files output_folder output_ext overwrite quiet
                     candidates st))%nat.
Proof.
  revert acc st. induction candidates as [|full rest IH]; intros acc st.
  - exists []. simpl. rewrite app_nil_r.
    split; [reflexivity|]. split; [apply incl_refl | apply le_n].
  - rewrite convert_each_cons. cbn [yielded_files].
    destruct (is_media_file (now st) full); [|apply IH].
    destruct (convert_media_shape full
                (out_path_of output_folder output_ext full)
                overwrite quiet st) as (e1 & E1 & _ & W).
    assert (S1 : incl (spawned e1)
                   [ffmpeg_command overwrite full
                      (out_path_of output_folder output_ext full)]
                 /\ (length (spawned e1) <= 1)%nat).
    { destruct W as [(_ & -> & _) | (_ & _ & -> & _)].
      - split; [intros x [] | apply Nat.le_0_l].
      - split; [apply incl_refl | apply le_n]. }
    destruct S1 as [I1 L1].
    destruct (convert_media full _ overwrite quiet st) as [[[]|e] st1];
      cbn [snd] in E1 |- *.
    + destruct (IH (acc ++ [full])%list st1) as (e2 & E2 & I2 & L2).
      exists (e1 ++ e2)%list. rewrite E2, E1, <- app_assoc.
      split; [reflexivity|]. rewrite spawned_app. split.
      * intros x Hx. apply in_app_or in Hx as [Hx|Hx].
        -- apply I1 in Hx. destruct Hx as [<-|[]]. left. reflexivity.
        -- right. apply I2. exact Hx.
      * rewrite length_app. simpl. lia.
    + exists e1. split; [exact E1|]. split.
      * intros x Hx. apply I1 in Hx. destruct Hx as [<-|[]]. left. reflexivity.
      * simpl. lia.
Qed.

End SpawnFacts.

Section SpawnClaims.
Context {H : Host}.

(** X16.  Whatever the options and whether the tools are found or not,
    the loop of [convert_folder] spawns at most one transcode process for
    each file that the locator yields, and every process it spawns runs
    the command of [convert_media] on a yielded file and its target: no
    other program is started and no file outside the yields is
    converted. *)
Theorem loop_spawns_only_for_yielded_files
  (output_folder output_ext : string) (overwrite quiet : bool)
  (candidates converted_files : list string) (st : state) :
  exists evs : list event,
    log (snd (convert_each output_folder output_ext overwrite quiet
                candidates converted_files st))
    = (log st ++ evs)%list
    /\ (forall command : list string,
           In command (spawned evs) ->
           exists src : string,
             In src (yielded_files output_folder output_ext overwrite quiet
                       candidates st)
             /\ command
                = ffmpeg_command overwrite src
                    (out_path_of output_folder output_ext src))
    /\ (length (spawned evs)
        <= length (yielded_files output_folder output_ext overwrite quiet
                     candidates st))%nat.
Proof.
  destruct (convert_each_spawns output_folder output_ext overwrite quiet
              candidates converted_files st) as (evs & E & I & L).
  exists evs. split; [exact E|]. split; [|exact L].
  intros command Hc. apply I in Hc. apply in_map_iff in Hc.
  destruct Hc as (src & <- & Hsrc). exists src. auto.
Qed.

End SpawnClaims.

(** ** The folder of the config file *)

Section DirFacts.
Import PyStr OsPath.

Lemma rstrip_char_snoc (c : ascii) (x : string) :
  rstrip_char c (x ++ String c EmptyString) = rstrip_char c x.
Proof.
  induction x as [|a x IH]; simpl.
  - rewrite Ascii.eqb_refl. reflexivity.
  - rewrite IH. reflexivity.
Qed.

Lemma all_chars_rstrip (c : ascii) (x : string) :
  all_chars c x = true -> rstrip_char c x = EmptyString.
Proof.
  induction x as [|a x IH]; simpl; [reflexivity|].
  intros Hx. apply andb_prop in Hx as [Ha Hx].
  rewrite (IH Hx), Ha. reflexivity.
Qed.

Lemma all_chars_snoc (c : ascii) (x : string) :
  all_chars c (x ++ String c EmptyString) = all_chars c x.
Proof.
  induction x as [|a x IH]; simpl.
  - rewrite Ascii.eqb_refl. reflexivity.
  - rewrite IH. reflexivity.
Qed.

Lemma length_snoc (x : string) (c : ascii) :
  String.length (x ++ String c EmptyString) = S (String.length x).
Proof. induction x as [|a x IH]; simpl; [|rewrite IH]; reflexivity. Qed.

(** The head of [dir/name]. *)
Lemma dirname_slash (dir name : string) :
  is_empty dir = false -> rstrip_char "/" dir = dir ->
  has_char "/" name = false ->
  dirname (dir ++ "/" ++ name) = dir.
Proof.
  intros Hne Hdir Hname. unfold dirname, rfind.
  change (dir ++ "/" ++ name) with (dir ++ String "/" name).
  rewrite (rfind_from_last 0 "/" dir name Hname). simpl Nat.add.
  replace (dir ++ String "/" name)
    with ((dir ++ String "/" EmptyString) ++ name)
    by (rewrite append_assoc; reflexivity).
  rewrite <- (length_snoc dir "/"), substring_head, all_chars_snoc.
  rewrite is_empty_app_cons, rstrip_char_snoc, Hdir.
  destruct (all_chars "/" dir) eqn:E; [|reflexivity].
  apply all_chars_rstrip in E. rewrite Hdir in E. subst dir. discriminate.
Qed.

(** X17.  Joining a folder without a trailing slash and a name without a
    slash can be undone: [dirname] gives back the folder and [basename]
    the name.  So the folder that [save_config] creates before it writes
    the config file is the home directory. *)
Theorem join_then_split (dir : string) :
  is_empty dir = false -> rstrip_char "/" dir = dir ->
  (forall name : string,
      has_char "/" name = false ->
      dirname (join dir name) = dir /\ basename (join dir name) = name)
  /\ dirname (CONFIG_FILE dir) = dir.
Proof.
  intros Hne Hdir.
  assert (Hsplit : forall name : string,
             has_char "/" name = false ->
             dirname (join dir name) = dir
             /\ basename (join dir name) = name).
  { intros name Hname.
    assert (Hjoin : join dir name = dir ++ "/" ++ name).
    { unfold join. rewrite (startswith_slash name Hname), Hne. simpl.
      destruct (endswith dir "/") eqn:E; [|reflexivity].
      destruct (endswith_slash dir E) as (dir' & ->).
      rewrite rstrip_char_snoc in Hdir.
      assert (Hlen : String.length (rstrip_char "/" dir')
                     = String.length (dir' ++ "/"))
        by (rewrite Hdir; reflexivity).
      assert (Hle : forall x, (String.length (rstrip_char "/" x)
                               <= String.length x)%nat).
      { induction x as [|a x IH]; simpl; [apply le_n|].
        destruct (Ascii.eqb a "/" && is_empty (rstrip_char "/" x));
          simpl; lia. }
      specialize (Hle dir'). rewrite Hlen, length_snoc in Hle. lia. }
    split; [|apply basename_join; exact Hname].
    rewrite Hjoin. apply dirname_slash; assumption. }
  split; [exact Hsplit|].
  apply (Hsplit ".convert_audio_tool.json"). reflexivity.
Qed.

Lemma join_then_split_witness :
  (dirname (join "/home/user" "notes.txt") = "/home/user"
   /\ basename (join "/home/user" "notes.txt") = "notes.txt")
  /\ dirname (CONFIG_FILE "/home/user") = "/home/user".
Proof.
  destruct (join_then_split "/home/user" eq_refl eq_refl) as [Hsplit Hconfig].
  split; [apply Hsplit; reflexivity | exact Hconfig].
Defined.

End DirFacts.
